(** * Range-aware video streaming endpoint: a shallow embedding

    This development embeds [src/app/api/video_stream_service.py] (the
    [get_video] handler, [validate_filename], [file_sender] and
    [file_sender_range]) together with the library behaviour the handler
    relies on: Python strings and integers, [pathlib] pure paths of the
    POSIX flavour, a directory tree standing for the file system,
    [cachetools.TTLCache], naive [datetime] values and [hashlib.md5].

    Python [int] is [Z], [str] is [string], [bytes] is [list byte].
    HTTP errors are values of a result type, the two global caches are
    threaded explicitly, and every file-system operation is logged in a
    trace so that "before any file-system access" is a statement about
    the model. *)

From Stdlib Require Import ZArith Lia Bool List Strings.Ascii Strings.String Strings.Byte.
Import ListNotations.

Set Warnings "-register-all".

Open Scope string_scope.
Open Scope Z_scope.

(** ** Python strings and integers *)

Module Py.

(** [c in "0".."9"]. *)
Definition is_digit (c : ascii) : bool :=
  let n := nat_of_ascii c in (48 <=? n)%nat && (n <=? 57)%nat.

Definition digit_val (c : ascii) : Z := Z.of_nat (nat_of_ascii c) - 48.

Definition digit_char (d : Z) : ascii := ascii_of_nat (Z.to_nat (d + 48)).

(** Header values reach the handler decoded as latin-1, so a character
    of a [str] is a code point below U+0100 and [ascii] holds it.

    The white space [int] skips around a number: the ASCII blanks
    U+0009..U+000D and U+0020, and of the code points from U+0080 on
    U+0085 (next line) and U+00A0 (no-break space).  The separators
    U+001C..U+001F are not skipped. *)
Definition is_space (c : ascii) : bool :=
  let n := nat_of_ascii c in
  ((9 <=? n)%nat && (n <=? 13)%nat) || (n =? 32)%nat
  || (n =? 133)%nat || (n =? 160)%nat.

(** The characters below U+0100 that the regular expression [\s]
    matches on a [str] pattern: those of [str.isspace], which adds the
    separators U+001C..U+001F to the blanks of [is_space]. *)
Definition is_re_space (c : ascii) : bool :=
  let n := nat_of_ascii c in
  ((9 <=? n)%nat && (n <=? 13)%nat) || ((28 <=? n)%nat && (n <=? 32)%nat)
  || (n =? 133)%nat || (n =? 160)%nat.

(** Decimal digits of a non-negative integer, most significant first.
    The fuel bounds the number of digits. *)
Fixpoint digits_fuel (fuel : nat) (n : Z) (acc : string) : string :=
  match fuel with
  | O => acc
  | S f =>
      let acc' := String (digit_char (n mod 10)) acc in
      if n <? 10 then acc' else digits_fuel f (n / 10) acc'
  end.

Definition digits (n : Z) : string :=
  digits_fuel (S (Z.to_nat (Z.log2 n))) n "".

(** [str(n)] for an [int]. *)
Definition str_int (n : Z) : string :=
  if n <? 0 then String "-" (digits (- n)) else digits n.

(** Value of a digit string with the single underscores that [int]
    allows between digits; [prev_digit] says whether the previous
    character was a digit. *)
Fixpoint int_digits (s : string) (acc : Z) (prev_digit : bool) : option Z :=
  match s with
  | "" => if prev_digit then Some acc else None
  | String c s' =>
      if is_digit c then int_digits s' (10 * acc + digit_val c) true
      else if (Ascii.eqb c "_" && prev_digit)%bool then int_digits s' acc false
      else None
  end.

Fixpoint lstrip (s : string) : string :=
  match s with
  | String c s' => if is_space c then lstrip s' else s
  | "" => ""
  end.

(** Drops trailing white space. *)
Fixpoint rstrip (s : string) : string :=
  match s with
  | "" => ""
  | String c s' =>
      match rstrip s' with
      | "" => if is_space c then "" else String c ""
      | r => String c r
      end
  end.

Definition strip (s : string) : string := rstrip (lstrip s).

(** Number of decimal digits in [s]. *)
Fixpoint count_digits (s : string) : nat :=
  match s with
  | "" => O
  | String c s' => if is_digit c then S (count_digits s') else count_digits s'
  end.

(** [sys.get_int_max_str_digits()]: the default limit of CPython 3.11
    on the digits of a decimal string that [int] converts. *)
Definition MAX_STR_DIGITS : nat := 4300.

(** [int(s)] on a string of characters below U+0100: surrounding white
    space, an optional sign, decimal digits with single underscores
    between them, and no more than [MAX_STR_DIGITS] digits (leading
    zeros count, underscores do not).  [None] stands for the
    [ValueError]. *)
Definition int (s : string) : option Z :=
  let s := strip s in
  if (MAX_STR_DIGITS <? count_digits s)%nat then None
  else
    match s with
    | String c r =>
        if Ascii.eqb c "-" then option_map Z.opp (int_digits r 0 false)
        else if Ascii.eqb c "+" then int_digits r 0 false
        else int_digits (String c r) 0 false
    | "" => None
    end.

(** Every character of [s] satisfies [f]. *)
Fixpoint all (f : ascii -> bool) (s : string) : bool :=
  match s with
  | "" => true
  | String c s' => f c && all f s'
  end.

(** [c != x]. *)
Definition differs (x : ascii) (c : ascii) : bool := negb (Ascii.eqb c x).

(** [s.startswith(p)]. *)
Fixpoint startswith (p s : string) : bool :=
  match p, s with
  | "", _ => true
  | String a p', String b s' => Ascii.eqb a b && startswith p' s'
  | _, "" => false
  end.

(** [s.replace(old, "")] for a non-empty [old]: the occurrences are
    removed from left to right without overlap.  [skip] counts the
    characters of the current occurrence still to drop. *)
Fixpoint remove_from (old : string) (skip : nat) (s : string) : string :=
  match s with
  | "" => ""
  | String c s' =>
      match skip with
      | S k => remove_from old k s'
      | O =>
          if startswith old s then remove_from old (String.length old - 1) s'
          else String c (remove_from old O s')
      end
  end.

Definition remove (old s : string) : string := remove_from old O s.

(** [s.split(sep)] for a one-character separator. *)
Fixpoint split (sep : ascii) (s : string) : list string :=
  match s with
  | "" => [""]
  | String c s' =>
      if Ascii.eqb c sep then "" :: split sep s'
      else match split sep s' with
           | h :: t => String c h :: t
           | [] => [String c ""]
           end
  end.

(** [re.search(r"[\\/]", s)] finds a match: some character of [s] is a
    backslash or a forward slash. *)
Fixpoint has_separator (s : string) : bool :=
  match s with
  | "" => false
  | String c s' => Ascii.eqb c "/" || Ascii.eqb c "\" || has_separator s'
  end.

(** Truthiness of a [str]. *)
Definition truthy (s : string) : bool := negb (String.eqb s "").

End Py.


(** ** Naive [datetime] values *)

Module DateTime.

Record t := mk {
  year : Z; month : Z; day : Z;
  hour : Z; minute : Z; second : Z; microsecond : Z
}.

Definition is_leap (y : Z) : bool :=
  (y mod 4 =? 0) && (negb (y mod 100 =? 0) || (y mod 400 =? 0)).

Definition days_in_month (y m : Z) : Z :=
  if (m =? 2) && is_leap y then 29
  else nth (Z.to_nat m) [-1; 31; 28; 31; 30; 31; 30; 31; 31; 30; 31; 30; 31] (-1).

Definition days_before_year (y : Z) : Z :=
  let y' := y - 1 in y' * 365 + y' / 4 - y' / 100 + y' / 400.

Definition days_before_month (y m : Z) : Z :=
  nth (Z.to_nat m) [-1; 0; 31; 59; 90; 120; 151; 181; 212; 243; 273; 304; 334] (-1)
  + (if (2 <? m) && is_leap y then 1 else 0).

Definition toordinal (d : t) : Z :=
  days_before_year (year d) + days_before_month (year d) (month d) + day d.

(** Monday is 0. *)
Definition weekday (d : t) : Z := (toordinal d + 6) mod 7.

(** The checks of the [datetime] constructor. *)
Definition valid (d : t) : bool :=
  (1 <=? year d) && (year d <=? 9999) &&
  (1 <=? month d) && (month d <=? 12) &&
  (1 <=? day d) && (day d <=? days_in_month (year d) (month d)) &&
  (0 <=? hour d) && (hour d <=? 23) &&
  (0 <=? minute d) && (minute d <=? 59) &&
  (0 <=? second d) && (second d <=? 59) &&
  (0 <=? microsecond d) && (microsecond d <=? 999999).

Definition fields (d : t) : list Z :=
  [year d; month d; day d; hour d; minute d; second d; microsecond d].

Fixpoint lex_compare (a b : list Z) : comparison :=
  match a, b with
  | [], [] => Eq
  | [], _ :: _ => Lt
  | _ :: _, [] => Gt
  | x :: a', y :: b' =>
      match x ?= y with
      | Eq => lex_compare a' b'
      | c => c
      end
  end.

(** [d1 >= d2]: the comparison of the field tuples. *)
Definition ge (d1 d2 : t) : bool :=
  match lex_compare (fields d1) (fields d2) with
  | Lt => false
  | _ => true
  end.

Fixpoint zeros (k : nat) : string :=
  match k with
  | O => ""
  | S k' => String "0" (zeros k')
  end.

(** ["%0<w>d" % n] for a non-negative [n]. *)
Definition zpad (w : nat) (n : Z) : string :=
  let s := Py.digits n in zeros (w - String.length s) ++ s.

(** [d.isoformat()]: the fraction is written when it is not zero. *)
Definition isoformat (d : t) : string :=
  zpad 4 (year d) ++ "-" ++ zpad 2 (month d) ++ "-" ++ zpad 2 (day d) ++ "T"
  ++ zpad 2 (hour d) ++ ":" ++ zpad 2 (minute d) ++ ":" ++ zpad 2 (second d)
  ++ (if microsecond d =? 0 then "" else "." ++ zpad 6 (microsecond d)).

(** Reads exactly [k] decimal digits. *)
Fixpoint take_digits (k : nat) (acc : Z) (s : string) : option (Z * string) :=
  match k with
  | O => Some (acc, s)
  | S k' =>
      match s with
      | String c s' =>
          if Py.is_digit c then take_digits k' (10 * acc + Py.digit_val c) s'
          else None
      | "" => None
      end
  end.

(** Expects the character [c]. *)
Definition expect (c : ascii) (s : string) : option string :=
  match s with
  | String c' s' => if Ascii.eqb c c' then Some s' else None
  | "" => None
  end.

Definition bind {A B} (x : option A) (f : A -> option B) : option B :=
  match x with Some a => f a | None => None end.

Notation "' p <- x ;; k" := (bind x (fun p => k))
  (at level 61, p pattern, x at next level, right associativity).
Notation "x <- y ;; k" := (bind y (fun x => k))
  (at level 61, y at next level, right associativity).

Definition checked (d : t) : option t := if valid d then Some d else None.

(** [datetime.fromisoformat] on the strings [isoformat] writes:
    [YYYY-MM-DDTHH:MM:SS] with an optional [.ffffff].  [None] stands for
    the [ValueError]. *)
Definition fromisoformat (s : string) : option t :=
  '(y, s) <- take_digits 4 0 s ;; s <- expect "-" s ;;
  '(mo, s) <- take_digits 2 0 s ;; s <- expect "-" s ;;
  '(da, s) <- take_digits 2 0 s ;; s <- expect "T" s ;;
  '(h, s) <- take_digits 2 0 s ;; s <- expect ":" s ;;
  '(mi, s) <- take_digits 2 0 s ;; s <- expect ":" s ;;
  '(se, s) <- take_digits 2 0 s ;;
  match s with
  | "" => checked (mk y mo da h mi se 0)
  | _ =>
      s <- expect "." s ;;
      '(us, s) <- take_digits 6 0 s ;;
      match s with
      | "" => checked (mk y mo da h mi se us)
      | _ => None
      end
  end.

Definition day_abbr : list string :=
  ["Mon"; "Tue"; "Wed"; "Thu"; "Fri"; "Sat"; "Sun"].

Definition month_abbr : list string :=
  ["Jan"; "Feb"; "Mar"; "Apr"; "May"; "Jun";
   "Jul"; "Aug"; "Sep"; "Oct"; "Nov"; "Dec"].

(** [d.strftime("%a, %d %b %Y %H:%M:%S GMT")] in the C locale.  CPython
    hands the format to the C library, and glibc writes [%Y] as the
    plain decimal year: four digits from the year 1000 on, fewer before
    (unlike [isoformat], which pads to four). *)
Definition strftime_rfc1123 (d : t) : string :=
  nth (Z.to_nat (weekday d)) day_abbr "" ++ ", " ++ zpad 2 (day d) ++ " "
  ++ nth (Z.to_nat (month d - 1)) month_abbr "" ++ " " ++ Py.str_int (year d) ++ " "
  ++ zpad 2 (hour d) ++ ":" ++ zpad 2 (minute d) ++ ":" ++ zpad 2 (second d)
  ++ " GMT".

Definition lower (c : ascii) : ascii :=
  let n := nat_of_ascii c in
  if (65 <=? n)%nat && (n <=? 90)%nat then ascii_of_nat (n + 32) else c.

Fixpoint lower_string (s : string) : string :=
  match s with
  | "" => ""
  | String c s' => String (lower c) (lower_string s')
  end.

(** Matches the literal [lit] at the head of [s], ignoring case. *)
Fixpoint expect_nocase (lit s : string) : option string :=
  match lit, s with
  | "", _ => Some s
  | String a lit', String b s' =>
      if Ascii.eqb (lower a) (lower b) then expect_nocase lit' s' else None
  | _, "" => None
  end.

(** Index (from [i]) of the first name of [names] at the head of [s],
    ignoring case. *)
Fixpoint expect_name (names : list string) (i : Z) (s : string) : option (Z * string) :=
  match names with
  | [] => None
  | n :: rest =>
      match expect_nocase n s with
      | Some s' => Some (i, s')
      | None => expect_name rest (i + 1) s
      end
  end.

Fixpoint skip_spaces (s : string) : string :=
  match s with
  | String c s' => if Py.is_re_space c then skip_spaces s' else s
  | "" => ""
  end.

(** The regular expression [\s+]. *)
Definition spaces1 (s : string) : option string :=
  match s with
  | String c s' => if Py.is_re_space c then Some (skip_spaces s') else None
  | "" => None
  end.

(** One or two digits, as many as there are. *)
Definition digits12 (s : string) : option (string * Z * string) :=
  match s with
  | String a (String b s') =>
      if Py.is_digit a then
        if Py.is_digit b then Some (String a (String b ""), 10 * Py.digit_val a + Py.digit_val b, s')
        else Some (String a "", Py.digit_val a, String b s')
      else None
  | String a "" => if Py.is_digit a then Some (String a "", Py.digit_val a, "") else None
  | "" => None
  end.

(** A one- or two-digit field whose value is at most [hi]; [zero_ok]
    says whether the value 0 is accepted ([%d] refuses it). *)
Definition field12 (zero_ok : bool) (hi : Z) (s : string) : option (Z * string) :=
  '(_, v, s') <- digits12 s ;;
  if (v <=? hi) && (zero_ok || negb (v =? 0)) then Some (v, s') else None.

(** [datetime.strptime(s, "%a, %d %b %Y %H:%M:%S GMT")] in the C locale,
    on a string of characters below U+0100: the match of the regular
    expression the format compiles to (names and [GMT] in any case,
    [\s+] for each blank of the format, so that U+0085 and U+00A0 are
    blanks too, one- or two-digit day and time fields, a four-digit
    year, nothing left over), then the checks of the [datetime]
    constructor.  [None] stands for the [ValueError]. *)
Definition strptime_rfc1123 (s : string) : option t :=
  '(_, s) <- expect_name day_abbr 0 s ;; s <- expect "," s ;; s <- spaces1 s ;;
  '(da, s) <- field12 false 31 s ;; s <- spaces1 s ;;
  '(mo, s) <- expect_name month_abbr 1 s ;; s <- spaces1 s ;;
  '(y, s) <- take_digits 4 0 s ;; s <- spaces1 s ;;
  '(h, s) <- field12 true 23 s ;; s <- expect ":" s ;;
  '(mi, s) <- field12 true 59 s ;; s <- expect ":" s ;;
  '(se, s) <- field12 true 61 s ;; s <- spaces1 s ;;
  s <- expect_nocase "GMT" s ;;
  match s with
  | "" => checked (mk y mo da h mi se 0)
  | _ => None
  end.



End DateTime.

(** ** [hashlib.md5] *)

Module MD5.

Definition w32 (x : Z) : Z := x mod 2 ^ 32.

Definition rotl (x n : Z) : Z :=
  w32 (Z.lor (Z.shiftl x n) (Z.shiftr x (32 - n))).

Definition not32 (x : Z) : Z := Z.lxor x 0xffffffff.

Definition shifts : list Z :=
  [7; 12; 17; 22; 7; 12; 17; 22; 7; 12; 17; 22; 7; 12; 17; 22;
   5; 9; 14; 20; 5; 9; 14; 20; 5; 9; 14; 20; 5; 9; 14; 20;
   4; 11; 16; 23; 4; 11; 16; 23; 4; 11; 16; 23; 4; 11; 16; 23;
   6; 10; 15; 21; 6; 10; 15; 21; 6; 10; 15; 21; 6; 10; 15; 21].

(** [floor(2^32 * abs(sin(i + 1)))]. *)
Definition sines : list Z :=
  [0xd76aa478; 0xe8c7b756; 0x242070db; 0xc1bdceee; 0xf57c0faf; 0x4787c62a;
   0xa8304613; 0xfd469501; 0x698098d8; 0x8b44f7af; 0xffff5bb1; 0x895cd7be;
   0x6b901122; 0xfd987193; 0xa679438e; 0x49b40821; 0xf61e2562; 0xc040b340;
   0x265e5a51; 0xe9b6c7aa; 0xd62f105d; 0x02441453; 0xd8a1e681; 0xe7d3fbc8;
   0x21e1cde6; 0xc33707d6; 0xf4d50d87; 0x455a14ed; 0xa9e3e905; 0xfcefa3f8;
   0x676f02d9; 0x8d2a4c8a; 0xfffa3942; 0x8771f681; 0x6d9d6122; 0xfde5380c;
   0xa4beea44; 0x4bdecfa9; 0xf6bb4b60; 0xbebfbc70; 0x289b7ec6; 0xeaa127fa;
   0xd4ef3085; 0x04881d05; 0xd9d4d039; 0xe6db99e5; 0x1fa27cf8; 0xc4ac5665;
   0xf4292244; 0x432aff97; 0xab9423a7; 0xfc93a039; 0x655b59c3; 0x8f0ccc92;
   0xffeff47d; 0x85845dd1; 0x6fa87e4f; 0xfe2ce6e0; 0xa3014314; 0x4e0811a1;
   0xf7537e82; 0xbd3af235; 0x2ad7d2bb; 0xeb86d391].

Definition regs : Type := (Z * Z * Z * Z)%type.

(** One of the 64 operations on the block [m] of sixteen words. *)
Definition round (m : list Z) (r : regs) (i : nat) : regs :=
  let '(a, b, c, d) := r in
  let iz := Z.of_nat i in
  let '(f, g) :=
    if iz <? 16 then (Z.lor (Z.land b c) (Z.land (not32 b) d), iz)
    else if iz <? 32 then (Z.lor (Z.land d b) (Z.land (not32 d) c), (5 * iz + 1) mod 16)
    else if iz <? 48 then (Z.lxor (Z.lxor b c) d, (3 * iz + 5) mod 16)
    else (Z.lxor c (Z.lor b (not32 d)), (7 * iz) mod 16) in
  let f' := w32 (f + a + nth i sines 0 + nth (Z.to_nat g) m 0) in
  (d, w32 (b + rotl f' (nth i shifts 0)), b, c).

Definition process (r : regs) (m : list Z) : regs :=
  let '(a0, b0, c0, d0) := r in
  let '(a, b, c, d) := fold_left (round m) (seq 0 64) r in
  (w32 (a0 + a), w32 (b0 + b), w32 (c0 + c), w32 (d0 + d)).

(** Little-endian bytes of a [k]-byte word. *)
Fixpoint le_bytes (k : nat) (x : Z) : list Z :=
  match k with
  | O => []
  | S k' => x mod 256 :: le_bytes k' (x / 256)
  end.

Fixpoint le_word (bs : list Z) : Z :=
  match bs with
  | [] => 0
  | b :: bs' => b + 256 * le_word bs'
  end.

(** Cuts a list into pieces of [n] elements. *)
Fixpoint pieces {A} (fuel n : nat) (l : list A) : list (list A) :=
  match fuel, l with
  | S f, _ :: _ => firstn n l :: pieces f n (skipn n l)
  | _, _ => []
  end.

Definition pad (msg : list Z) : list Z :=
  let len := Z.of_nat (List.length msg) in
  msg ++ [128] ++ repeat 0 (Z.to_nat ((55 - len) mod 64)) ++ le_bytes 8 (8 * len).

Definition digest (msg : list byte) : list Z :=
  let padded := pad (map (fun b => Z.of_N (Byte.to_N b)) msg) in
  let blocks := map (fun blk => map le_word (pieces 16 4 blk))
                    (pieces (List.length padded) 64 padded) in
  let '(a, b, c, d) :=
    fold_left process blocks (0x67452301, 0xefcdab89, 0x98badcfe, 0x10325476) in
  le_bytes 4 a ++ le_bytes 4 b ++ le_bytes 4 c ++ le_bytes 4 d.

Definition hex_digit (x : Z) : ascii :=
  if x <? 10 then ascii_of_nat (Z.to_nat (x + 48)) else ascii_of_nat (Z.to_nat (x + 87)).

Fixpoint hex (bs : list Z) : string :=
  match bs with
  | [] => ""
  | b :: bs' => String (hex_digit (b / 16)) (String (hex_digit (b mod 16)) (hex bs'))
  end.

(** [hashlib.md5(msg).hexdigest()]. *)
Definition hexdigest (msg : list byte) : string := hex (digest msg).

End MD5.

(** [s.encode()] for an ASCII string. *)
Definition encode (s : string) : list byte := list_byte_of_string s.

(** ** [pathlib] pure paths, POSIX flavour *)

Module Path.

(** A parsed path: [root] is [""] (relative), ["/"] or ["//"]; [tail]
    holds the components, none of them empty or ["."]. *)
Record t := mk { root : string; tail : list string }.

(** [s[n:]]. *)
Fixpoint drop (n : nat) (s : string) : string :=
  match n, s with
  | S n', String _ s' => drop n' s'
  | _, _ => s
  end.

(** [posixpath.splitroot] without the drive: one leading slash, or
    three and more, make the root ["/"]; exactly two make it ["//"]. *)
Definition splitroot (p : string) : string * string :=
  if negb (Py.startswith "/" p) then ("", p)
  else if negb (Py.startswith "//" p) || Py.startswith "///" p then ("/", drop 1 p)
  else ("//", drop 2 p).

Definition keep_part (x : string) : bool :=
  negb (String.eqb x "") && negb (String.eqb x ".").

Definition parse (s : string) : t :=
  let '(r, rel) := splitroot s in mk r (filter keep_part (Py.split "/" rel)).

(** [p / s]: a rooted [s] replaces [p]. *)
Definition join (p : t) (s : string) : t :=
  let q := parse s in
  if String.eqb (root q) "" then mk (root p) (tail p ++ tail q)%list else q.

(** [p.name]. *)
Definition name (p : t) : string := last (tail p) "".

(** The components with a slash between them. *)
Fixpoint join_parts (parts : list string) : string :=
  match parts with
  | [] => ""
  | [x] => x
  | x :: rest => x ++ "/" ++ join_parts rest
  end.

(** [str(p)]: the root and the components; ["."] for the empty path. *)
Definition str (p : t) : string :=
  match root p ++ join_parts (tail p) with
  | "" => "."
  | s => s
  end.

Fixpoint is_prefix (a b : list string) : bool :=
  match a, b with
  | [], _ => true
  | x :: a', y :: b' => String.eqb x y && is_prefix a' b'
  | _ :: _, [] => false
  end.

(** [p.relative_to(other)] does not raise [ValueError]: the comparison
    is on the components as written, [".."] included. *)
Definition relative_to_ok (p other : t) : bool :=
  String.eqb (root p) (root other) && is_prefix (tail other) (tail p).

End Path.

(** ** The file system *)

(** Regular files with their content and modification time (the naive
    local [datetime] that [datetime.fromtimestamp(st_mtime)] returns),
    directories, and directories the process may not search ([Locked]);
    no symbolic links, and every regular file may be read.  A name is
    held as the bytes the kernel sees. *)
Inductive node :=
| File (content : list byte) (mtime : DateTime.t)
| Dir (entries : list (string * node))
| Locked.

Record FS := mkFS { fs_root : node; fs_cwd : list string }.

Fixpoint lookup (name : string) (es : list (string * node)) : option node :=
  match es with
  | [] => None
  | (n, x) :: es' => if String.eqb n name then Some x else lookup name es'
  end.

(** What looking a path up comes to: the node it names; no such node
    ([ENOENT], or [ENOTDIR] for a component below a regular file); or a
    lookup the kernel refuses ([EACCES] below a directory that may not
    be searched, [ENAMETOOLONG]). *)
Inductive reached :=
| Found (n : node)
| Missing
| Refused.

(** Linux limits: bytes of one component, and bytes of a path with its
    closing null. *)
Definition NAME_MAX : nat := 255.
Definition PATH_MAX : nat := 4096.

(** Name resolution as the kernel does it: [stack] holds the
    directories above [cur]; [".."] goes up, and stays at the root.  A
    component is looked up in a directory only: below a regular file
    there is nothing, a locked directory refuses every component, and a
    directory refuses a name of more than [NAME_MAX] bytes, present or
    not. *)
Fixpoint walk (stack : list node) (cur : node) (parts : list string) : reached :=
  match parts with
  | [] => Found cur
  | p :: rest =>
      match cur with
      | File _ _ => Missing
      | Locked => Refused
      | Dir es =>
          if String.eqb p ".." then
            match stack with
            | [] => walk [] cur rest
            | up :: st => walk st up rest
            end
          else if (NAME_MAX <? String.length p)%nat then Refused
          else
            match lookup p es with
            | Some n => walk (cur :: stack) n rest
            | None => Missing
            end
      end
  end.

(** Some character of [s] is the null character. *)
Fixpoint has_null (s : string) : bool :=
  match s with
  | "" => false
  | String c s' => Ascii.eqb c zero || has_null s'
  end.

(** The lookup of [str(p)].  A path with an embedded null never reaches
    the kernel (Python raises [ValueError], which [is_file] takes for
    absence); a path of [PATH_MAX] bytes or more is refused whatever it
    names. *)
Definition lookup_path (fs : FS) (p : Path.t) : reached :=
  let s := Path.str p in
  if has_null s then Missing
  else if (PATH_MAX <=? String.length s)%nat then Refused
  else
    walk [] (fs_root fs)
         ((if String.eqb (Path.root p) "" then fs_cwd fs else []) ++ Path.tail p)%list.

(** The node [p] names, when the lookup reaches one. *)
Definition resolve (fs : FS) (p : Path.t) : option node :=
  match lookup_path fs p with
  | Found n => Some n
  | _ => None
  end.

(** [p.is_file()]: [Some true] for a regular file; [Some false] for
    another node and for a missing one ([Path.is_file] swallows
    [ENOENT], [ENOTDIR], [EBADF], [ELOOP] and [ValueError]); [None]
    when the lookup is refused, where [is_file] raises the [OSError]
    ([PermissionError], or errno [ENAMETOOLONG]). *)
Definition is_file (fs : FS) (p : Path.t) : option bool :=
  match lookup_path fs p with
  | Found (File _ _) => Some true
  | Found _ => Some false
  | Missing => Some false
  | Refused => None
  end.

(** [p.stat()]: [st_size] and the modification time. *)
Definition stat (fs : FS) (p : Path.t) : option (Z * DateTime.t) :=
  match resolve fs p with
  | Some (File c m) => Some (Z.of_nat (List.length c), m)
  | _ => None
  end.

(** An open binary file: its bytes and the read position. *)
Record handle := mkHandle { h_data : list byte; h_pos : nat }.

(** [open(p, "rb")]. *)
Definition open_rb (fs : FS) (p : Path.t) : option handle :=
  match resolve fs p with
  | Some (File c _) => Some (mkHandle c 0)
  | _ => None
  end.

(** [file.read(n)] for [n >= 0]: at most [n] bytes from the position,
    fewer only at the end of the file. *)
Definition read (n : Z) (h : handle) : list byte * handle :=
  let chunk := firstn (Z.to_nat n) (skipn (h_pos h) (h_data h)) in
  (chunk, mkHandle (h_data h) (h_pos h + List.length chunk)).

(** [file.seek(n)] for [n >= 0]. *)
Definition seek (n : Z) (h : handle) : handle := mkHandle (h_data h) (Z.to_nat n).

(** The file-system operations a request performs, in order. *)
Inductive fs_op :=
| OpIsFile (p : Path.t)
| OpStat (p : Path.t)
| OpOpen (p : Path.t)
| OpSeek (n : Z)
| OpRead (n : Z).

(** ** [cachetools.TTLCache] *)

Module TTLCache.

Record params := mkParams { maxsize : nat; ttl : Z }.

Record entry (V : Type) := mkEntry { key : string; value : V; expires : Z }.
Arguments mkEntry {V}.
Arguments key {V}.
Arguments value {V}.
Arguments expires {V}.

(** The entries, least recently used first; an entry is live while the
    clock is before [expires].  Clock readings are integers, in
    seconds. *)
Definition t (V : Type) := list (entry V).

Definition find {V} (k : string) (c : t V) : option (entry V) :=
  List.find (fun e => String.eqb (key e) k) c.

Definition delete {V} (k : string) (c : t V) : t V :=
  filter (fun e => negb (String.eqb (key e) k)) c.

(** [c.get(k)]: an entry past its time is absent; a hit makes the entry
    the most recently used. *)
Definition get {V} (now : Z) (k : string) (c : t V) : option V * t V :=
  match find k c with
  | Some e => if now <? expires e then (Some (value e), (delete k c ++ [e])%list) else (None, c)
  | None => (None, c)
  end.

(** [c.expire(now)]. *)
Definition expire {V} (now : Z) (c : t V) : t V :=
  filter (fun e => now <? expires e) c.

(** [c[k] = v]: expired entries go first, then the least recently used
    ones while the cache is full and [k] is new. *)
Definition setitem {V} (p : params) (now : Z) (k : string) (v : V) (c : t V) : t V :=
  let c1 := expire now c in
  let c2 := match find k c1 with
            | Some _ => c1
            | None => skipn (List.length c1 + 1 - maxsize p) c1
            end in
  (delete k c2 ++ [mkEntry k v (now + ttl p)])%list.

End TTLCache.

(** ** The service: [video_stream_service.py] *)

(** [VIDEO_META_CACHE = TTLCache(maxsize=50, ttl=300)] and
    [CHUNK_CACHE = TTLCache(maxsize=25, ttl=60)]. *)
Definition VIDEO_META_CACHE : TTLCache.params := TTLCache.mkParams 50 300.
Definition CHUNK_CACHE : TTLCache.params := TTLCache.mkParams 25 60.

(** The dictionary stored in the metadata cache. *)
Record Meta := mkMeta { etag : string; last_modified : string; file_size : Z }.

(** The two module-level caches. *)
Record State := mkState {
  meta_cache : TTLCache.t Meta;
  chunk_cache : TTLCache.t (list byte)
}.

Definition initial : State := mkState [] [].

(** The query parameters and the three request headers the handler
    reads; [None] is an absent parameter or header. *)
Record Request := mkRequest {
  filename : string;
  subfolder : option string;
  range : option string;
  if_none_match : option string;
  if_modified_since : option string
}.

(** The lazy body of a response: the generator and its arguments. *)
Inductive Body :=
| NoBody
| FileSender (video_path : Path.t)
| FileSenderRange (video_path : Path.t) (start end_ : Z).

(** What the handler returns or raises.  [Unhandled] is an exception
    that is not an [HTTPException]; the framework answers 500. *)
Inductive Result :=
| Response (status_code : Z) (headers : list (string * string)) (body : Body)
| HTTPException (status_code : Z) (detail : string)
| Unhandled (exception : string).

Record Outcome := mkOutcome {
  result : Result;
  state : State;
  trace : list fs_op
}.

Definition status_of (r : Result) : Z :=
  match r with
  | Response s _ _ => s
  | HTTPException s _ => s
  | Unhandled _ => 500
  end.

(** [f"{x}"] for an optional string. *)
Definition fmt_opt (x : option string) : string :=
  match x with
  | Some s => s
  | None => "None"
  end.

(** Truthiness of an optional string: present and not empty. *)
Definition given (x : option string) : option string :=
  match x with
  | Some s => if Py.truthy s then Some s else None
  | None => None
  end.

(** [validate_filename] raises. *)
Definition validate_filename (filename : string) : bool :=
  Py.has_separator filename.

(** Line 69: the key of the metadata cache. *)
Definition meta_key (req : Request) : string :=
  filename req ++ "-" ++ fmt_opt (subfolder req).

(** Lines 70-80: the conditional headers against a warm entry. *)
Inductive Conditional := NotModified | ParseError | Proceed.

(** Line 74: [if_none_match and if_none_match == meta['etag']]. *)
Definition etag_matches (meta : Meta) (req : Request) : bool :=
  match given (if_none_match req) with
  | Some v => String.eqb v (etag meta)
  | None => false
  end.

Definition conditional (meta : option Meta) (req : Request) : Conditional :=
  match meta with
  | None => Proceed
  | Some meta =>
      if etag_matches meta req then NotModified
      else
        match given (if_modified_since req) with
        | None => Proceed
        | Some v =>
            match DateTime.fromisoformat (last_modified meta) with
            | None => ParseError
            | Some lm =>
                match DateTime.strptime_rfc1123 v with
                | None => ParseError
                | Some d => if DateTime.ge d lm then NotModified else Proceed
                end
            end
        end
  end.

(** Lines 84-87. *)
Definition video_path_of (VIDEO_DIR : Path.t) (req : Request) : Path.t :=
  match given (subfolder req) with
  | Some sub => Path.join (Path.join VIDEO_DIR sub) (filename req)
  | None => Path.join VIDEO_DIR (filename req)
  end.

(** Lines 118-120: [start] and [end] of a [Range] header. *)
Definition parse_range (range_header : string) (file_size : Z) : option (Z * Z) :=
  match Py.split "-" (Py.remove "bytes=" range_header) with
  | [s; e] =>
      match Py.int s with
      | None => None
      | Some start =>
          if Py.truthy e then
            match Py.int e with
            | None => None
            | Some end_ => Some (start, end_)
            end
          else Some (start, file_size - 1)
      end
  | _ => None
  end.

Definition range_headers (start end_ file_size : Z) : list (string * string) :=
  [("Content-Range",
    "bytes " ++ Py.str_int start ++ "-" ++ Py.str_int end_ ++ "/" ++ Py.str_int file_size);
   ("Accept-Ranges", "bytes");
   ("Content-Length", Py.str_int (end_ - start + 1));
   ("Content-Type", "video/mp4")].

Definition full_headers (file_size : Z) (etag : string) (d : DateTime.t)
  : list (string * string) :=
  [("Content-Length", Py.str_int file_size);
   ("Content-Type", "video/mp4");
   ("Cache-Control", "public, max-age=300");
   ("ETag", etag);
   ("Last-Modified", DateTime.strftime_rfc1123 d)].

(** Lines 104-150, once the path has passed the checks. *)
Definition respond (st : State) (now : Z) (cache_key : string) (req : Request)
    (video_path : Path.t) (size : Z) (mtime : DateTime.t) (tr : list fs_op) : Outcome :=
  let file_size := size in
  let last_modified := DateTime.isoformat mtime in
  let etag := MD5.hexdigest (encode (Py.str_int file_size ++ "-" ++ last_modified)) in
  let st' := mkState (TTLCache.setitem VIDEO_META_CACHE now cache_key
                        (mkMeta etag last_modified file_size) (meta_cache st))
                     (chunk_cache st) in
  match given (range req) with
  | Some range_header =>
      match parse_range range_header file_size with
      | None => mkOutcome (Unhandled "ValueError") st' tr
      | Some (start, end_) =>
          if (start >=? file_size) || (end_ >=? file_size)
          then mkOutcome (HTTPException 416 "Requested range not satisfiable") st' tr
          else mkOutcome (Response 206 (range_headers start end_ file_size)
                            (FileSenderRange video_path start end_)) st' tr
      end
  | None =>
      match DateTime.fromisoformat last_modified with
      | None => mkOutcome (Unhandled "ValueError") st' tr
      | Some d =>
          mkOutcome (Response 200 (full_headers file_size etag d)
                       (FileSender video_path)) st' tr
      end
  end.

(** The handler of [GET /api/videos], at clock reading [now]. *)
Definition get_video (VIDEO_DIR : Path.t) (st : State) (fs : FS) (now : Z)
    (req : Request) : Outcome :=
  let cache_key := meta_key req in
  let '(meta, mc) := TTLCache.get now cache_key (meta_cache st) in
  let st := mkState mc (chunk_cache st) in
  match conditional meta req with
  | NotModified => mkOutcome (Response 304 [] NoBody) st []
  | ParseError => mkOutcome (Unhandled "ValueError") st []
  | Proceed =>
      if validate_filename (filename req)
      then mkOutcome (HTTPException 400 "Invalid filename") st []
      else
        let video_path := video_path_of VIDEO_DIR req in
        match is_file fs video_path with
        | None => mkOutcome (Unhandled "OSError") st [OpIsFile video_path]
        | Some false =>
            mkOutcome (HTTPException 404 "Video file not found") st [OpIsFile video_path]
        | Some true =>
            if negb (Path.relative_to_ok video_path VIDEO_DIR)
            then mkOutcome (HTTPException 400 "Invalid file path") st [OpIsFile video_path]
            else
              let tr := [OpIsFile video_path; OpStat video_path] in
              match stat fs video_path with
              | None => mkOutcome (Unhandled "FileNotFoundError") st tr
              | Some (size, mtime) => respond st now cache_key req video_path size mtime tr
              end
        end
  end.

(** What a generator yields: the chunks, or an exception part-way. *)
Inductive Stream :=
| Yielded (chunks : list (list byte))
| Raised (exception : string).

Record Sent := mkSent {
  stream : Stream;
  state_after : State;
  reads : list fs_op
}.

(** The loop of [file_sender]: reads of 65536 bytes until one is empty.
    [None] when the fuel runs out. *)
Fixpoint file_sender_loop (fuel : nat) (file : handle)
  : option (list (list byte) * list fs_op) :=
  match fuel with
  | O => None
  | S fuel' =>
      let '(chunk, file') := read 65536 file in
      match chunk with
      | [] => Some ([], [OpRead 65536])
      | _ :: _ =>
          match file_sender_loop fuel' file' with
          | Some (chunks, tr) => Some (chunk :: chunks, OpRead 65536 :: tr)
          | None => None
          end
      end
  end.

(** [file_sender(video_path)], run to its end. *)
Definition file_sender (st : State) (fs : FS) (video_path : Path.t) : Sent :=
  match open_rb fs video_path with
  | None => mkSent (Raised "OSError") st [OpOpen video_path]
  | Some file =>
      match file_sender_loop (S (List.length (h_data file))) file with
      | Some (chunks, tr) => mkSent (Yielded chunks) st (OpOpen video_path :: tr)
      | None => mkSent (Raised "fuel") st [OpOpen video_path]
      end
  end.

(** The loop of [file_sender_range] (lines 174-180).  [None] when the
    fuel runs out. *)
Fixpoint range_loop (fuel : nat) (file : handle) (start end_ : Z)
    (chunks : list (list byte)) (tr : list fs_op)
  : option (list (list byte) * list fs_op) :=
  match fuel with
  | O => None
  | S fuel' =>
      if start <=? end_ then
        let chunk_size := Z.min 65536 (end_ - start + 1) in
        let '(chunk, file') := read chunk_size file in
        match chunk with
        | [] => Some (chunks, (tr ++ [OpRead chunk_size])%list)
        | _ :: _ =>
            range_loop fuel' file' (start + Z.of_nat (List.length chunk)) end_
                       (chunks ++ [chunk])%list (tr ++ [OpRead chunk_size])%list
        end
      else Some (chunks, tr)
  end.

Definition chunk_key (video_path : Path.t) (start end_ : Z) : string :=
  Path.name video_path ++ "-" ++ Py.str_int start ++ "-" ++ Py.str_int end_.

(** [file_sender_range(video_path, start, end)], run to its end at
    clock reading [now].  An empty cached blob is falsy and counts as a
    miss. *)
Definition file_sender_range (st : State) (fs : FS) (now : Z)
    (video_path : Path.t) (start end_ : Z) : Sent :=
  let cache_key := chunk_key video_path start end_ in
  let '(cached, cc) := TTLCache.get now cache_key (chunk_cache st) in
  let st := mkState (meta_cache st) cc in
  match cached with
  | Some (b :: bs) => mkSent (Yielded [b :: bs]) st []
  | _ =>
      match open_rb fs video_path with
      | None => mkSent (Raised "OSError") st [OpOpen video_path]
      | Some file =>
          if start <? 0 then mkSent (Raised "OSError") st [OpOpen video_path; OpSeek start]
          else
            match range_loop (S (Z.to_nat (end_ - start + 1))) (seek start file)
                             start end_ [] [OpOpen video_path; OpSeek start] with
            | None => mkSent (Raised "fuel") st [OpOpen video_path; OpSeek start]
            | Some (chunks, tr) =>
                let full_chunk := List.concat chunks in
                let st' :=
                  if Z.of_nat (List.length full_chunk) <? 1024 * 1024
                  then mkState (meta_cache st)
                         (TTLCache.setitem CHUNK_CACHE now cache_key full_chunk (chunk_cache st))
                  else st in
                mkSent (Yielded [full_chunk]) st' tr
            end
      end
  end.

(** Running the body of a response. *)
Definition send (st : State) (fs : FS) (now : Z) (body : Body) : Sent :=
  match body with
  | NoBody => mkSent (Yielded []) st []
  | FileSender p => file_sender st fs p
  | FileSenderRange p start end_ => file_sender_range st fs now p start end_
  end.

(** A request served to its end: the handler, then the body the
    framework pulls from the generator.  [fs'] and [now'] are the file
    system and the clock when the body is produced. *)
Record Served := mkServed {
  sv_result : Result;
  sv_stream : Stream;
  sv_state : State;
  sv_handler_trace : list fs_op;
  sv_body_trace : list fs_op
}.

Definition serve (VIDEO_DIR : Path.t) (st : State) (fs : FS) (now : Z)
    (fs' : FS) (now' : Z) (req : Request) : Served :=
  let o := get_video VIDEO_DIR st fs now req in
  match result o with
  | Response _ _ body =>
      let s := send (state o) fs' now' body in
      mkServed (result o) (stream s) (state_after s) (trace o) (reads s)
  | _ => mkServed (result o) (Yielded []) (state o) (trace o) []
  end.

(** ** Runs of the service *)


(** The states the two caches go through, starting empty.  The handler
    runs in one piece, at any time and on any file system.  A streamer
    suspends while it reads the file, so its look-up in the chunk cache
    and the store of what its loop has read are steps of their own,
    with steps of other requests in between. *)
Inductive reachable (VIDEO_DIR : Path.t) : State -> Prop :=
| reach_initial : reachable VIDEO_DIR initial
| reach_get_video st fs now req :
    reachable VIDEO_DIR st ->
    reachable VIDEO_DIR (state (get_video VIDEO_DIR st fs now req))
| reach_lookup st now k :
    reachable VIDEO_DIR st ->
    reachable VIDEO_DIR
      (mkState (meta_cache st) (snd (TTLCache.get now k (chunk_cache st))))
| reach_store st st0 fs0 now0 req0 status headers p s e fuel file tr0 chunks tr now :
    reachable VIDEO_DIR st ->
    result (get_video VIDEO_DIR st0 fs0 now0 req0)
    = Response status headers (FileSenderRange p s e) ->
    range_loop fuel file s e [] tr0 = Some (chunks, tr) ->
    reachable VIDEO_DIR
      (mkState (meta_cache st)
         (TTLCache.setitem CHUNK_CACHE now (chunk_key p s e) (List.concat chunks)
            (chunk_cache st))).

(** The request without its conditional headers. *)
Definition unconditional (req : Request) : Request :=
  mkRequest (filename req) (subfolder req) (range req) None None.

(** The request without its [If-Modified-Since] header. *)
Definition without_if_modified_since (req : Request) : Request :=
  mkRequest (filename req) (subfolder req) (range req) (if_none_match req) None.

(** The header [bytes=<start>-<end?>] and the end it stands for. *)
Definition range_header (start : Z) (end_ : option Z) : string :=
  "bytes=" ++ Py.str_int start ++ "-"
  ++ match end_ with Some e => Py.str_int e | None => "" end.


(** The bytes [start..end_] of a file, both ends included. *)
Definition slice (content : list byte) (start end_ : Z) : list byte :=
  firstn (Z.to_nat (end_ - start + 1)) (skipn (Z.to_nat start) content).

(** A sequence of requests served one after the other. *)
Fixpoint serve_all (VIDEO_DIR : Path.t) (st : State)
    (reqs : list (FS * Z * Request)) : list Served :=
  match reqs with
  | [] => []
  | (fs, now, req) :: rest =>
      let s := serve VIDEO_DIR st fs now fs now req in
      s :: serve_all VIDEO_DIR (sv_state s) rest
  end.

(** [posixpath.normpath] on the components, kept in reverse in [done]:
    [".."] removes the component before it, is dropped at the root of
    an absolute path and is kept at the head of a relative one. *)
Fixpoint normalize (absolute : bool) (done : list string) (parts : list string)
  : list string :=
  match parts with
  | [] => rev done
  | p :: rest =>
      if String.eqb p ".." then
        match done with
        | [] => if absolute then normalize absolute [] rest
                else normalize absolute [p] rest
        | d :: done' =>
            if String.eqb d ".." then normalize absolute (p :: done) rest
            else normalize absolute done' rest
        end
      else normalize absolute (p :: done) rest
  end.

Definition normpath (p : Path.t) : Path.t :=
  Path.mk (Path.root p)
          (normalize (negb (String.eqb (Path.root p) "")) [] (Path.tail p)).

(** No component is [".."]. *)
Definition no_dotdot (parts : list string) : Prop :=
  Forall (fun x => String.eqb x ".." = false) parts.

(** The normalized path is the root directory or lies below it. *)
Definition descendant (VIDEO_DIR p : Path.t) : bool :=
  Path.relative_to_ok (normpath p) (normpath VIDEO_DIR).

(** A read of 1 to 65536 bytes. *)
Definition is_read (op : fs_op) : Prop :=
  exists n, op = OpRead n /\ 1 <= n <= 65536.

(** A request answered 304 with an empty body and no file-system
    operation. *)
Definition not_modified (sv : Served) : Prop :=
  sv_result sv = Response 304 [] NoBody /\ sv_stream sv = Yielded []
  /\ sv_handler_trace sv = [] /\ sv_body_trace sv = [].

(** Stored entity tags are not empty. *)
Definition meta_ok (st : State) : Prop :=
  Forall (fun en => etag (TTLCache.value en) <> "") (meta_cache st).

(** What is stored for an empty range is the empty blob. *)
Definition chunks_ok (st : State) : Prop :=
  Forall (fun en => forall p s e, 0 <= s -> 0 <= e -> e < s ->
                      TTLCache.key en = chunk_key p s e -> TTLCache.value en = [])
         (chunk_cache st).

(** ** A small installation *)

Module Scenario.

Definition VIDEO_DIR : Path.t := Path.parse "/srv/downloads".

Definition mtime : DateTime.t := DateTime.mk 2024 3 1 12 0 0 0.

Definition bytes (s : string) : list byte := list_byte_of_string s.

(** [/srv/secret.txt] lies outside the video directory
    [/srv/downloads], which holds [a.mp4], [b.mp4], [sub/a.mp4] and
    [x/y-z/a]. *)
Definition tree (a_mp4 : string) : node :=
  Dir [("srv", Dir [
    ("secret.txt", File (bytes "TOPSECRET") mtime);
    ("downloads", Dir [
      ("a.mp4", File (bytes a_mp4) mtime);
      ("b.mp4", File (bytes "ABCDEFGHIJ") mtime);
      ("sub", Dir [("a.mp4", File (bytes "KLMNOPQRST") mtime)]);
      ("x", Dir [("y-z", Dir [("a", File (bytes "uvw") mtime)])])])])].

Definition fs : FS := mkFS (tree "0123456789") [].

(** The same files after [a.mp4] has been rewritten. *)
Definition fs_rewritten : FS := mkFS (tree "abcdefghij") [].

Definition request (filename : string) (subfolder range : option string) : Request :=
  mkRequest filename subfolder range None None.

(** The whole of [a.mp4], and the state after it has been served at
    time 0; its entity tag. *)
Definition a_mp4 : Request := request "a.mp4" None None.

Definition warm : State := sv_state (serve VIDEO_DIR initial fs 0 fs 0 a_mp4).

Definition a_tag : string := "d9b26b99d64e9ef3c53181d1f206fc3c".

(** The bytes 2 to 5 of [a.mp4] and of [sub/a.mp4]. *)
Definition ranged : Request := request "a.mp4" None (Some "bytes=2-5").

Definition ranged_sub : Request := request "a.mp4" (Some "sub") (Some "bytes=2-5").

(** A video last modified in the year 999. *)
Definition mtime_999 : DateTime.t := DateTime.mk 999 3 1 12 0 0 0.

Definition fs_999 : FS :=
  mkFS (Dir [("srv", Dir [("downloads", Dir [
          ("a.mp4", File (bytes "0123456789") mtime_999)])])]) [].




End Scenario.

(** ** Whole runs of the endpoint *)


(** One request served to its end: the file system and clock of the
    handler, those of the body, and the request. *)
Definition Step : Type := (FS * Z * FS * Z * Request)%type.

(** The caches after a sequence of requests served one after the other. *)
Fixpoint run (VIDEO_DIR : Path.t) (st : State) (steps : list Step) : State :=
  match steps with
  | [] => st
  | (fs, now, fs', now', req) :: rest =>
      run VIDEO_DIR (sv_state (serve VIDEO_DIR st fs now fs' now' req)) rest
  end.

(** The bytes held by the chunk cache. *)
Definition cached_bytes (st : State) : Z :=
  fold_right (fun en acc => Z.of_nat (List.length (TTLCache.value en)) + acc) 0
             (chunk_cache st).


(** ** The speech-to-text endpoints: [video_stream_service.py], lines 195-445

    The five handlers around the task table [STT_TASKS], with the parts
    of [STTManager] ([stt_manager.py]) and [STTConfig] ([stt_model.py])
    that [process_stt_task] runs.  A [str] is its UTF-8 text; the task
    table is threaded explicitly.  Each handler runs in one piece: the
    only [await]s are on [file.read()], before the table is touched,
    and on [transcribe_audio], a coroutine that never suspends. *)

Module STT.

(** Python values held in a task, a configuration and a JSON body.  A
    [float] is kept as its [repr]. *)
Inductive Value :=
| VNone
| VBool (b : bool)
| VInt (n : Z)
| VFloat (repr : string)
| VStr (s : string)
| VList (l : list Value)
| VDict (d : list (string * Value)).

(** Truth value of a Python object. *)
Definition truthy (v : Value) : bool :=
  match v with
  | VNone => false
  | VBool b => b
  | VInt n => negb (n =? 0)
  | VFloat r => negb (String.eqb r "0.0" || String.eqb r "-0.0")
  | VStr s => negb (String.eqb s "")
  | VList l => match l with [] => false | _ => true end
  | VDict d => match d with [] => false | _ => true end
  end.

(** [type(v).__name__]. *)
Definition type_name (v : Value) : string :=
  match v with
  | VNone => "NoneType"
  | VBool _ => "bool"
  | VInt _ => "int"
  | VFloat _ => "float"
  | VStr _ => "str"
  | VList _ => "list"
  | VDict _ => "dict"
  end.

(** [v == s] for a [str] literal [s]. *)
Definition eq_str (v : Value) (s : string) : bool :=
  match v with
  | VStr x => String.eqb x s
  | _ => false
  end.

(** *** Dictionaries with [str] keys, in insertion order *)

Module Dict.

Definition t (V : Type) := list (string * V).

(** [d.get(k)]; [None] is also what [k in d] tests. *)
Fixpoint get {V} (k : string) (d : t V) : option V :=
  match d with
  | [] => None
  | (k', v) :: d' => if String.eqb k' k then Some v else get k d'
  end.

(** [d[k] = v]: a present key keeps its place. *)
Fixpoint set {V} (k : string) (v : V) (d : t V) : t V :=
  match d with
  | [] => [(k, v)]
  | (k', v') :: d' => if String.eqb k' k then (k', v) :: d' else (k', v') :: set k v d'
  end.

(** [del d[k]] for a present key. *)
Fixpoint del {V} (k : string) (d : t V) : t V :=
  match d with
  | [] => []
  | (k', v') :: d' => if String.eqb k' k then d' else (k', v') :: del k d'
  end.

(** [d.update(other)]. *)
Definition update {V} (other : t V) (d : t V) : t V :=
  fold_left (fun acc kv => set (fst kv) (snd kv) acc) other d.

(** [d.get(k, default)]. *)
Definition get_or {V} (k : string) (default : V) (d : t V) : V :=
  match get k d with
  | Some v => v
  | None => default
  end.

End Dict.

(** *** Strings and paths *)

(** [s.lower()].  It is exact on the ASCII letters and on the two
    characters outside ASCII whose lower case has ASCII in it: the
    Kelvin sign U+212A, which becomes [k], and U+0130, which becomes
    [i] and U+0307.  Other characters are left as they are: their lower
    case has no ASCII in it either, so that a comparison of the result
    with ASCII text is exact. *)
Definition lower_char (c : ascii) : ascii :=
  let n := nat_of_ascii c in
  if (65 <=? n)%nat && (n <=? 90)%nat then ascii_of_nat (n + 32) else c.

Definition is_byte (n : nat) (c : ascii) : bool := (nat_of_ascii c =? n)%nat.

Fixpoint lower (s : string) : string :=
  match s with
  | "" => ""
  | String c s' =>
      match s' with
      | String c2 s2 =>
          if is_byte 196 c && is_byte 176 c2
          then String "i" (String (ascii_of_nat 204) (String (ascii_of_nat 135) (lower s2)))
          else
            match s2 with
            | String c3 s3 =>
                if is_byte 226 c && is_byte 132 c2 && is_byte 170 c3
                then String "k" (lower s3)
                else String (lower_char c) (lower s')
            | "" => String (lower_char c) (lower s')
            end
      | "" => String (lower_char c) ""
      end
  end.

Fixpoint is_ascii (s : string) : bool :=
  match s with
  | "" => true
  | String c s' => (nat_of_ascii c <? 128)%nat && is_ascii s'
  end.

(** [s.rfind(c)]: the last index of [c], or -1. *)
Fixpoint rfind_from (c : ascii) (s : string) (i last : Z) : Z :=
  match s with
  | "" => last
  | String a s' => rfind_from c s' (i + 1) (if Ascii.eqb a c then i else last)
  end.

Definition rfind (c : ascii) (s : string) : Z := rfind_from c s 0 (-1).

(** [PurePath.suffix] and [PurePath.stem]: the last dot of the name
    counts when it is neither its first nor its last character. *)
Definition suffix (p : Path.t) : string :=
  let name := Path.name p in
  let i := rfind "." name in
  if (0 <? i) && (i <? Z.of_nat (String.length name) - 1)
  then Path.drop (Z.to_nat i) name else "".

Definition stem (p : Path.t) : string :=
  let name := Path.name p in
  let i := rfind "." name in
  if (0 <? i) && (i <? Z.of_nat (String.length name) - 1)
  then String.substring 0 (Z.to_nat i) name else name.

(** [sep.join(items)]. *)
Fixpoint join (sep : string) (items : list string) : string :=
  match items with
  | [] => ""
  | [x] => x
  | x :: rest => x ++ sep ++ join sep rest
  end.

(** Whether [s.encode("latin-1")] succeeds: every character is below
    U+0100, that is one ASCII byte or a two-byte sequence led by 0xC2
    or 0xC3. *)
Fixpoint is_latin1 (s : string) : bool :=
  match s with
  | "" => true
  | String c r =>
      let n := nat_of_ascii c in
      if (n <? 128)%nat then is_latin1 r
      else if (n =? 194)%nat || (n =? 195)%nat then
        match r with
        | String _ r' => is_latin1 r'
        | "" => false
        end
      else false
  end.

(** *** [json.dumps(v, ensure_ascii=False, indent=2)] *)

Module Json.

Definition hex_digit (n : nat) : ascii :=
  if (n <? 10)%nat then ascii_of_nat (48 + n) else ascii_of_nat (87 + n).

(** The escape of one character inside a JSON string. *)
Definition escape_char (c : ascii) : string :=
  let n := nat_of_ascii c in
  if (n =? 34)%nat then "\" ++ String c ""
  else if (n =? 92)%nat then "\\"
  else if (n =? 8)%nat then "\b"
  else if (n =? 12)%nat then "\f"
  else if (n =? 10)%nat then "\n"
  else if (n =? 13)%nat then "\r"
  else if (n =? 9)%nat then "\t"
  else if (n <? 32)%nat then
    "\u00" ++ String (hex_digit (n / 16)) (String (hex_digit (n mod 16)) "")
  else String c "".

Fixpoint escape (s : string) : string :=
  match s with
  | "" => ""
  | String c s' => escape_char c ++ escape s'
  end.

Definition quote : string := String (ascii_of_nat 34) "".

Definition encode_str (s : string) : string := quote ++ escape s ++ quote.

Definition encode_float (r : string) : string :=
  if String.eqb r "nan" then "NaN"
  else if String.eqb r "inf" then "Infinity"
  else if String.eqb r "-inf" then "-Infinity"
  else r.

Fixpoint spaces (n : nat) : string :=
  match n with
  | O => ""
  | S n' => String " " (spaces n')
  end.

(** A line break followed by the indentation of [level]. *)
Definition newline_indent (level : nat) : string :=
  String (ascii_of_nat 10) (spaces (2 * level)).

Fixpoint dumps_at (level : nat) (v : Value) : string :=
  match v with
  | VNone => "null"
  | VBool true => "true"
  | VBool false => "false"
  | VInt n => Py.str_int n
  | VFloat r => encode_float r
  | VStr s => encode_str s
  | VList [] => "[]"
  | VList l =>
      "[" ++ newline_indent (S level)
          ++ join ("," ++ newline_indent (S level)) (map (dumps_at (S level)) l)
          ++ newline_indent level ++ "]"
  | VDict [] => "{}"
  | VDict d =>
      "{" ++ newline_indent (S level)
          ++ join ("," ++ newline_indent (S level))
               (map (fun kv => match kv with
                               | (k, x) => encode_str k ++ ": " ++ dumps_at (S level) x
                               end) d)
          ++ newline_indent level ++ "}"
  end.

Definition dumps (v : Value) : string := dumps_at 0 v.

(** What [json.dumps(v, allow_nan=False)] accepts: no [nan], no
    infinity. *)
Fixpoint compliant (v : Value) : bool :=
  match v with
  | VFloat r => negb (String.eqb r "nan" || String.eqb r "inf" || String.eqb r "-inf")
  | VList l => forallb compliant l
  | VDict d => forallb (fun kv => match kv with (_, x) => compliant x end) d
  | _ => true
  end.

End Json.

(** *** Time strings *)

(** [format(n, "0<w>d")]: the sign, then zeros up to the width. *)
Definition format_0d (w : nat) (n : Z) : string :=
  if n <? 0 then "-" ++ DateTime.zpad (w - 1) (- n) else DateTime.zpad w n.

(** [STTManager.format_time_string] ([stt_manager.py], lines 281-287),
    which [transcribe_audio] applies to the bounds of a segment. *)
Definition format_time_string (milliseconds : Z) : string :=
  let hours := milliseconds / 3600000 in
  let minutes := (milliseconds mod 3600000) / 60000 in
  let seconds := (milliseconds mod 60000) / 1000 in
  let ms := milliseconds mod 1000 in
  format_0d 2 hours ++ ":" ++ format_0d 2 minutes ++ ":" ++ format_0d 2 seconds
  ++ "," ++ format_0d 3 ms.

(** A [timedelta] of [us] microseconds: its days, seconds and
    microseconds, or [None] for the [OverflowError] past 999999999
    days. *)
Definition timedelta (us : Z) : option (Z * Z * Z) :=
  let days := us / 86400000000 in
  if (-999999999 <=? days) && (days <=? 999999999)
  then Some (days, (us mod 86400000000) / 1000000, us mod 1000000)
  else None.

(** [STTTools.ms_to_time_string] ([stt_tools.py], lines 60-73) on
    integers. *)
Definition ms_to_time_string (ms : Z) (seconds : option Z) : option string :=
  match timedelta (match seconds with
                   | None => ms * 1000
                   | Some s => s * 1000000
                   end) with
  | None => None
  | Some (_, td_seconds, td_microseconds) =>
      let hours := td_seconds / 3600 in
      let remainder := td_seconds mod 3600 in
      let minutes := remainder / 60 in
      let seconds := remainder mod 60 in
      let milliseconds := td_microseconds / 1000 in
      Some (format_0d 2 hours ++ ":" ++ format_0d 2 minutes ++ ":" ++ format_0d 2 seconds
            ++ "," ++ format_0d 3 milliseconds)
  end.

(** *** Exceptions and replies *)

(** The exceptions other than [HTTPException] and [ImportError];
    [Other] is one of any other class, with its [str]. *)
Inductive Exn :=
| KeyError (key : string)
| FileNotFoundError (msg : string)
| RuntimeError (msg : string)
| TypeError (msg : string)
| ValueError (msg : string)
| AttributeError (msg : string)
| UnicodeEncodeError (msg : string)
| Other (msg : string).

(** [str(e)].  A [KeyError] shows the [repr] of its key, here a key
    without quotes or escapes.  Of the message of a
    [UnicodeEncodeError] only the start is kept. *)
Definition str (e : Exn) : string :=
  match e with
  | KeyError k => "'" ++ k ++ "'"
  | FileNotFoundError m | RuntimeError m | TypeError m | ValueError m
  | AttributeError m | UnicodeEncodeError m | Other m => m
  end.

(** What an [except Exception as e] of a handler catches. *)
Inductive Caught :=
| Http (status_code : Z) (detail : string)
| Exc (e : Exn).

(** The answer of a handler.  [HTTP500 e] is
    [HTTPException(status_code=500, detail=str(e))]. *)
Inductive Reply :=
| JSONResponse (content : Value)
| Response (content : list byte) (media_type : string) (headers : list (string * string))
| HTTP500 (e : Caught).

Definition status_code_of (r : Reply) : Z :=
  match r with
  | HTTP500 _ => 500
  | _ => 200
  end.

(** [JSONResponse(content)] renders its body at once, with
    [allow_nan=False]. *)
Definition json_response (content : Value) : Exn + Reply :=
  if Json.compliant content then inr (JSONResponse content)
  else inl (ValueError "Out of range float values are not JSON compliant").

(** The body [{"code": .., "message": .., "data": ..}] of the handlers. *)
Definition body (code : Z) (message : string) (data : list (string * Value)) : Value :=
  VDict [("code", VInt code); ("message", VStr message); ("data", VDict data)].

(** *** The task table *)

Record Config := mkConfig {
  language : string;
  model : string;
  response_format : string
}.

(** The dictionary stored for a task (lines 230-243). *)
Record Task := mkTask {
  status : string;
  progress : Value;
  message : string;
  file_path : string;
  filename : string;
  config : Config;
  result : Value;
  error : Value
}.

Definition Tasks := Dict.t Task.

Definition set_status (s : string) (t : Task) : Task :=
  mkTask s (progress t) (message t) (file_path t) (filename t) (config t) (result t) (error t).
Definition set_progress (p : Value) (t : Task) : Task :=
  mkTask (status t) p (message t) (file_path t) (filename t) (config t) (result t) (error t).
Definition set_message (m : string) (t : Task) : Task :=
  mkTask (status t) (progress t) m (file_path t) (filename t) (config t) (result t) (error t).
Definition set_result (r : Value) (t : Task) : Task :=
  mkTask (status t) (progress t) (message t) (file_path t) (filename t) (config t) r (error t).
Definition set_error (e : Value) (t : Task) : Task :=
  mkTask (status t) (progress t) (message t) (file_path t) (filename t) (config t) (result t) e.

(** The operations of a handler on the files. *)
Inductive file_op :=
| OpCreate (path : string)
| OpWrite (path : string) (content : list byte)
| OpExists (path : string)
| OpUnlink (path : string).

(** A handler's answer, the task table it leaves and what it did to the
    files. *)
Record Handled := mkHandled {
  reply : Reply;
  tasks_after : Tasks;
  file_ops : list file_op
}.

(** The [except Exception as e] that ends each handler. *)
Definition fail (e : Caught) (tasks : Tasks) (ops : list file_op) : Handled :=
  mkHandled (HTTP500 e) tasks ops.

(** Returning [JSONResponse(content)] inside the handler's [try]. *)
Definition answer (content : Value) (tasks : Tasks) (ops : list file_op) : Handled :=
  match json_response content with
  | inr r => mkHandled r tasks ops
  | inl e => fail (Exc e) tasks ops
  end.

(** A body of strings and integers always renders. *)
Definition answer_plain (content : Value) (tasks : Tasks) (ops : list file_op) : Handled :=
  mkHandled (JSONResponse content) tasks ops.

(** *** [upload_audio_for_stt] (lines 198-257) *)

Definition supported_extensions : list string :=
  [".wav"; ".mp3"; ".mp4"; ".m4a"; ".flac"; ".aac"; ".mov"; ".avi"; ".mkv"; ".mpeg"].

(** [tempfile.NamedTemporaryFile(delete=False, suffix=..)]: the name of
    the file created, or the exception. *)
Inductive Temp :=
| TempFile (name : string)
| TempFails (e : Exn).

(** [file_name] is [file.filename], [task_id] the [str(uuid.uuid4())]
    drawn, [temp] how the creation of the temporary file ends, [read]
    what [file.read()] returns or raises, and [write] what writing the
    content and closing the file raises, if anything.  The temporary
    file is created with [delete=False]: nothing removes it when the
    read or the write fails. *)
Definition upload_audio_for_stt (tasks : Tasks) (file_name : option string)
    (language model response_format : string) (task_id : string)
    (temp : Temp) (read : Exn + list byte) (write : option Exn) : Handled :=
  match file_name with
  | None => fail (Http 400 "No file provided") tasks []
  | Some name =>
      if String.eqb name "" then fail (Http 400 "No file provided") tasks []
      else
        let file_extension := lower (suffix (Path.parse name)) in
        if negb (existsb (String.eqb file_extension) supported_extensions)
        then fail (Http 400 ("Unsupported file format: " ++ file_extension)) tasks []
        else
          match temp with
          | TempFails e => fail (Exc e) tasks []
          | TempFile temp_file_path =>
              match read with
              | inl e => fail (Exc e) tasks [OpCreate temp_file_path]
              | inr content =>
                  let ops := [OpCreate temp_file_path; OpWrite temp_file_path content] in
                  match write with
                  | Some e => fail (Exc e) tasks ops
                  | None =>
                      let tasks' :=
                        Dict.set task_id
                          (mkTask "uploaded" (VInt 0) "文件上传成功" temp_file_path name
                                  (mkConfig language model response_format) VNone VNone)
                          tasks in
                      answer_plain
                        (body 0 "文件上传成功"
                           [("task_id", VStr task_id);
                            ("filename", VStr name);
                            ("file_size", VInt (Z.of_nat (List.length content)))])
                        tasks' ops
                  end
              end
          end
  end.

(** *** [STTConfig.get_default_config] ([stt_model.py], lines 122-141) *)

Definition DEFAULT_CONFIG : Dict.t Value :=
  [("stt_enabled", VBool false);
   ("stt_auto_process", VBool false);
   ("stt_model", VStr "base");
   ("stt_language", VStr "auto");
   ("stt_output_format", VStr "srt");
   ("stt_device", VStr "cpu");
   ("stt_model_path", VStr "./stt-main/models");
   ("stt_beam_size", VInt 5);
   ("stt_best_of", VInt 5);
   ("stt_temperature", VInt 0);
   ("stt_vad_filter", VBool true);
   ("stt_condition_on_previous_text", VBool false);
   ("stt_initial_prompt_zh", VStr "转录为中文简体。")].

Definition get_default_config : Dict.t Value := DEFAULT_CONFIG.

(** *** [STTManager] ([stt_manager.py]) *)

(** How an [import] statement ends. *)
Inductive Import :=
| Imported
| ImportError
| ImportRaises (e : Exn).

(** [initialize] (lines 60-69): [is_available] after the manager is
    built, or the exception that [from faster_whisper import ..] lets
    through. *)
Definition initialize (faster_whisper : Import) : Exn + bool :=
  match faster_whisper with
  | Imported => inr true
  | ImportError => inr false
  | ImportRaises e => inl e
  end.

(** [get_recommended_device] (lines 109-125); [cuda] tells whether
    [torch] imports and reports at least one CUDA device. *)
Definition get_recommended_device (is_available cuda : bool) : string :=
  if negb is_available then "cpu" else if cuda then "cuda" else "cpu".

(** [get_stt_config] (lines 71-92). *)
Definition get_stt_config (user_config : Dict.t Value) (is_available cuda : bool)
  : Dict.t Value :=
  let default_device := get_recommended_device is_available cuda in
  [("enabled", Dict.get_or "stt_enabled" (VBool false) user_config);
   ("auto_process", Dict.get_or "stt_auto_process" (VBool false) user_config);
   ("model", Dict.get_or "stt_model" (VStr "base") user_config);
   ("language", Dict.get_or "stt_language" (VStr "auto") user_config);
   ("output_format", Dict.get_or "stt_output_format" (VStr "srt") user_config);
   ("device", Dict.get_or "stt_device" (VStr default_device) user_config);
   ("model_path", Dict.get_or "stt_model_path" (VStr "./models") user_config);
   ("beam_size", Dict.get_or "stt_beam_size" (VInt 5) user_config);
   ("best_of", Dict.get_or "stt_best_of" (VInt 5) user_config);
   ("temperature", Dict.get_or "stt_temperature" (VInt 0) user_config);
   ("vad_filter", Dict.get_or "stt_vad_filter" (VBool true) user_config);
   ("condition_on_previous_text",
    Dict.get_or "stt_condition_on_previous_text" (VBool false) user_config);
   ("initial_prompt_zh",
    Dict.get_or "stt_initial_prompt_zh" (VStr "以下是普通话内容，请转录为中文简体。")
                user_config)].

(** [config[k]]. *)
Definition item (k : string) (config : Dict.t Value) : Exn + Value :=
  match Dict.get k config with
  | Some v => inr v
  | None => inl (KeyError k)
  end.

(** A call of [progress_callback]. *)
Definition Progress : Type := (Value * string)%type.

(** The speech engine.  [load] is [get_model] on the model, the device
    and the compute type: the exception it raises, if any.  [decode] is
    [model.transcribe] and the loop over its segments, on the audio
    path and the configuration: the calls of the callback, then the
    exception raised or [result_data], the duration, the language and
    its probability. *)
Record Engine := mkEngine {
  load : Value -> Value -> string -> option Exn;
  decode : string -> Dict.t Value -> list Progress * (Exn + (list Value * Value * Value * Value))
}.

(** What [transcribe_audio] returns. *)
Inductive Transcribed :=
| Success (data duration language language_probability : Value)
| Failure (error : string).

Definition bind {A B} (x : Exn + A) (f : A -> Exn + B) : Exn + B :=
  match x with
  | inl e => inl e
  | inr a => f a
  end.

(** A leading minus sign. *)
Definition negative (r : string) : bool := Py.startswith "-" r.

(** [v > 0] for a number; other values do not compare with [0].  A
    [float] is positive when its [repr] is neither negative, nor a
    zero, nor [nan]. *)
Definition positive (v : Value) : Exn + bool :=
  match v with
  | VInt n => inr (0 <? n)
  | VBool b => inr b
  | VFloat r => inr (negb (negative r || String.eqb r "0.0" || String.eqb r "nan"))
  | _ => inl (TypeError ("'>' not supported between instances of '" ++ type_name v
                         ++ "' and 'int'"))
  end.

(** The strings of [result_data], for ["\n".join]; [i] is the index of
    the first item. *)
Fixpoint strings (i : Z) (l : list Value) : Exn + list string :=
  match l with
  | [] => inr []
  | VStr s :: l' => bind (strings (i + 1) l') (fun r => inr (s :: r))
  | v :: _ => inl (TypeError ("sequence item " ++ Py.str_int i ++ ": expected str instance, "
                              ++ type_name v ++ " found"))
  end.

(** The [try] block of [transcribe_audio] (lines 307-377): the calls of
    the callback so far, and the exception or the result. *)
Definition transcribe_body (engine : Engine) (audio_path : string)
    (config : Dict.t Value) : list Progress * (Exn + Transcribed) :=
  let calls := [(VFloat "0.1", "正在加载模型...")] in
  match bind (item "model" config) (fun m =>
        bind (item "device" config) (fun d =>
        bind (item "device" config) (fun d' =>
        match load engine m d (if eq_str d' "cpu" then "float32" else "float16") with
        | Some e => inl e
        | None => inr tt
        end))) with
  | inl e => (calls, inl e)
  | inr _ =>
      let calls := (calls ++ [(VFloat "0.2", "开始转录...")])%list in
      match bind (item "beam_size" config) (fun _ =>
            bind (item "best_of" config) (fun _ =>
            bind (item "temperature" config) (fun t =>
            bind (positive t) (fun pos =>
            bind (if pos then item "temperature" config else inr (VInt 0)) (fun _ =>
            bind (item "condition_on_previous_text" config) (fun _ =>
            bind (item "vad_filter" config) (fun _ =>
            bind (item "language" config) (fun l =>
            bind (if eq_str l "auto" then inr VNone else item "language" config) (fun _ =>
            bind (item "language" config) (fun l' =>
            if eq_str l' "zh" then item "initial_prompt_zh" config else inr VNone))))))))))
      with
      | inl e => (calls, inl e)
      | inr _ =>
          let '(more, r) := decode engine audio_path config in
          let calls := (calls ++ more)%list in
          match r with
          | inl e => (calls, inl e)
          | inr (result_data, duration, lang, prob) =>
              let calls := (calls ++ [(VFloat "1.0", "转录完成")])%list in
              (calls,
               bind (item "output_format" config) (fun fmt =>
               bind (if eq_str fmt "json" then inr (VList result_data)
                     else bind (strings 0 result_data)
                            (fun l => inr (VStr (join (String (ascii_of_nat 10) "") l))))
                    (fun final_result =>
               inr (Success final_result duration lang prob))))
          end
      end
  end.

(** [transcribe_audio] (lines 289-388).  [exists_] tells whether the
    audio path exists; [config] is [None] or a dictionary.  The
    exception raised, or the calls of the callback and the result. *)
Definition transcribe_audio (engine : Engine) (is_available cuda : bool)
    (user_config : Dict.t Value) (exists_ : bool) (audio_path : string)
    (config : option (Dict.t Value)) : Exn + (list Progress * Transcribed) :=
  if negb is_available then inl (RuntimeError "STT functionality not available")
  else
    let config := match config with
                  | None => get_stt_config user_config is_available cuda
                  | Some c => c
                  end in
    if negb exists_ then inl (FileNotFoundError ("Audio file not found: " ++ audio_path))
    else
      match transcribe_body engine audio_path config with
      | (calls, inr r) => inr (calls, r)
      | (calls, inl e) =>
          let error_msg := "转录失败: " ++ str e in
          inr ((calls ++ [(VInt 0, error_msg)])%list, Failure (str e))
      end.

(** *** [process_stt_task] (lines 259-354) *)

(** What a run of [process_stt_task] finds around it: how the imports
    of the project's modules and of [faster_whisper] end, whether CUDA
    is there, the engine, and whether the file of the task exists. *)
Record Env := mkEnv {
  project_imports : Import;
  faster_whisper : Import;
  cuda : bool;
  engine : Engine;
  audio_exists : bool
}.

(** [progress_callback] (lines 313-315), call after call. *)
Definition progress_callback (task : Task) (calls : list Progress) : Task :=
  fold_left (fun t c => set_message (snd c) (set_progress (fst c) t)) calls task.

(** The outer [except Exception as e] (lines 349-354) for a task of the
    table. *)
Definition process_failed (e : Exn) (task_id : string) (task : Task) (tasks : Tasks)
    (ops : list file_op) : Handled :=
  fail (Exc e) (Dict.set task_id (set_error (VStr (str e)) (set_status "error" task)) tasks)
       ops.

Definition process_stt_task (env : Env) (tasks : Tasks) (task_id : string) : Handled :=
  match Dict.get task_id tasks with
  | None => fail (Http 404 "Task not found") tasks []
  | Some task =>
      let data := [("task_id", VStr task_id)] in
      if String.eqb (status task) "processing"
      then answer_plain (body 1 "任务正在处理中" data) tasks []
      else
        match project_imports env with
        | ImportError =>
            let task := set_error (VStr "STT依赖未安装") (set_status "error" task) in
            answer_plain (body 1 "STT依赖未安装" data) (Dict.set task_id task tasks) []
        | ImportRaises e => process_failed e task_id task tasks []
        | Imported =>
            let user_config :=
              Dict.update [("stt_model", VStr (model (config task)));
                           ("stt_language", VStr (language (config task)));
                           ("stt_output_format", VStr (response_format (config task)))]
                          get_default_config in
            match initialize (faster_whisper env) with
            | inl e => process_failed e task_id task tasks []
            | inr false =>
                let task := set_error (VStr "STT功能不可用") (set_status "error" task) in
                answer_plain (body 1 "STT功能不可用" data) (Dict.set task_id task tasks) []
            | inr true =>
                let task :=
                  set_message "开始处理..."
                    (set_progress (VFloat "0.1") (set_status "processing" task)) in
                let path := file_path task in
                match transcribe_audio (engine env) true (cuda env) user_config
                                       (audio_exists env) path (Some user_config) with
                | inl e => process_failed e task_id task tasks [OpExists path]
                | inr (calls, r) =>
                    let task := progress_callback task calls in
                    let task :=
                      match r with
                      | Success data' _ _ _ =>
                          set_message "处理完成"
                            (set_progress (VFloat "1.0")
                               (set_result data' (set_status "completed" task)))
                      | Failure err =>
                          set_message ("处理失败: " ++ err)
                            (set_error (VStr err) (set_status "error" task))
                      end in
                    answer_plain (body 0 "处理已开始" data) (Dict.set task_id task tasks)
                                 [OpExists path]
                end
            end
        end
  end.

(** *** [get_stt_task_status] (lines 356-381) *)

Definition get_stt_task_status (tasks : Tasks) (task_id : string) : Handled :=
  match Dict.get task_id tasks with
  | None => fail (Http 404 "Task not found") tasks []
  | Some task =>
      answer (body 0 "获取状态成功"
                [("task_id", VStr task_id);
                 ("status", VStr (status task));
                 ("progress", progress task);
                 ("message", VStr (message task));
                 ("filename", VStr (filename task));
                 ("result", if String.eqb (status task) "completed" then result task else VNone);
                 ("error", if String.eqb (status task) "error" then error task else VNone)])
             tasks []
  end.

(** *** [download_stt_result] (lines 383-416) *)

Definition download_stt_result (tasks : Tasks) (task_id : string) : Handled :=
  match Dict.get task_id tasks with
  | None => fail (Http 404 "Task not found") tasks []
  | Some task =>
      if negb (String.eqb (status task) "completed")
      then fail (Http 400 "Task not completed") tasks []
      else if negb (truthy (result task))
      then fail (Http 404 "No result available") tasks []
      else
        let response_format := response_format (config task) in
        let filename := stem (Path.parse (filename task)) ++ "." ++ response_format in
        let '(content, media_type) :=
          if String.eqb response_format "json"
          then (VStr (Json.dumps (result task)), "application/json")
          else (result task, "text/plain") in
        match content with
        | VStr s =>
            let disposition := "attachment; filename=" ++ filename in
            if is_latin1 disposition
            then mkHandled (Response (encode s) media_type
                                     [("Content-Disposition", disposition)])
                           tasks []
            else fail (Exc (UnicodeEncodeError "'latin-1' codec can't encode")) tasks []
        | v => fail (Exc (AttributeError ("'" ++ type_name v
                                          ++ "' object has no attribute 'encode'")))
                    tasks []
        end
  end.

(** *** [delete_stt_task] (lines 418-445) *)

(** [file_exists] is what [os.path.exists] answers for the file of the
    task; what [os.unlink] raises is dropped by the handler. *)
Definition delete_stt_task (file_exists : bool) (tasks : Tasks) (task_id : string)
  : Handled :=
  match Dict.get task_id tasks with
  | None => fail (Http 404 "Task not found") tasks []
  | Some task =>
      let path := file_path task in
      let ops := if file_exists then [OpExists path; OpUnlink path] else [OpExists path] in
      answer_plain (body 0 "任务删除成功" [("task_id", VStr task_id)])
                   (Dict.del task_id tasks) ops
  end.

(** *** Runs of the five endpoints *)

Inductive Call :=
| Upload (file_name : option string) (language model response_format : string)
         (task_id : string) (temp : Temp) (read : Exn + list byte) (write : option Exn)
| Process (env : Env) (task_id : string)
| GetStatus (task_id : string)
| Download (task_id : string)
| Delete (file_exists : bool) (task_id : string).

Definition handle (tasks : Tasks) (c : Call) : Handled :=
  match c with
  | Upload file_name language model response_format task_id temp read write =>
      upload_audio_for_stt tasks file_name language model response_format task_id temp
                           read write
  | Process env task_id => process_stt_task env tasks task_id
  | GetStatus task_id => get_stt_task_status tasks task_id
  | Download task_id => download_stt_result tasks task_id
  | Delete file_exists task_id => delete_stt_task file_exists tasks task_id
  end.

(** The task table after a sequence of calls, [STT_TASKS = {}] at the
    start. *)
Definition serve_calls (calls : list Call) : Tasks :=
  fold_left (fun tasks c => tasks_after (handle tasks c)) calls [].

(** A task that holds no transcription: uploaded or in error, without
    a result, its progress as the upload or a failed run leaves it. *)
Definition pending (t : Task) : Prop :=
  (status t = "uploaded" \/ status t = "error")
  /\ result t = VNone
  /\ (progress t = VInt 0 \/ progress t = VFloat "0.1")
  /\ (error t = VNone \/ exists s, error t = VStr s).

(** The configuration [process_stt_task] builds for a task. *)
Definition user_config_of (task : Task) : Dict.t Value :=
  Dict.update [("stt_model", VStr (model (config task)));
               ("stt_language", VStr (language (config task)));
               ("stt_output_format", VStr (response_format (config task)))]
              get_default_config.

End STT.

(** A run of the speech-to-text endpoints: [talk.MP3] is uploaded as
    task [7f3a], its bytes kept in [/tmp/tmpk2x9.mp3]; the engine would
    transcribe anything. *)
Module SpeechScenario.

Definition upload : STT.Call :=
  STT.Upload (Some "talk.MP3") "en" "small" "json" "7f3a"
             (STT.TempFile "/tmp/tmpk2x9.mp3") (inr (Scenario.bytes "RIFFdata")) None.

Definition task : STT.Task :=
  STT.mkTask "uploaded" (STT.VInt 0) "文件上传成功" "/tmp/tmpk2x9.mp3" "talk.MP3"
             (STT.mkConfig "en" "small" "json") STT.VNone STT.VNone.

Definition engine : STT.Engine :=
  STT.mkEngine
    (fun _ _ _ => None)
    (fun _ _ => ([(STT.VFloat "0.9", "处理中: 1.5s/1.5s")],
                 inr ([STT.VStr "hello"], STT.VFloat "1.5", STT.VStr "en", STT.VFloat "0.98"))).

Definition env : STT.Env := STT.mkEnv STT.Imported STT.Imported false engine true.

(** An engine that cannot load any model. *)
Definition broken_engine : STT.Engine :=
  STT.mkEngine (fun _ _ _ => Some (STT.RuntimeError "no such model")) (STT.decode engine).

End SpeechScenario.

(** * Properties *)

(** ** The library models on known values

    The values on the right are what CPython 3.11 computes. *)

Example str_int_1000 : Py.str_int 1000 = "1000".
Proof. reflexivity. Qed.

Example str_int_neg : Py.str_int (-25) = "-25".
Proof. reflexivity. Qed.

Example int_padded : Py.int " 1_000 " = Some 1000.
Proof. reflexivity. Qed.

Example int_empty : Py.int "" = None.
Proof. reflexivity. Qed.

Example remove_bytes : Py.remove "bytes=" "bytes=0-99" = "0-99".
Proof. reflexivity. Qed.

Example split_range : Py.split "-" "0-" = ["0"; ""].
Proof. reflexivity. Qed.

Example isoformat_ex :
  DateTime.isoformat (DateTime.mk 1994 11 6 8 49 37 0) = "1994-11-06T08:49:37".
Proof. reflexivity. Qed.

Example isoformat_frac :
  DateTime.fromisoformat "1994-11-06T08:49:37.000120"
  = Some (DateTime.mk 1994 11 6 8 49 37 120).
Proof. reflexivity. Qed.

Example strftime_ex :
  DateTime.strftime_rfc1123 (DateTime.mk 1994 11 6 8 49 37 0)
  = "Sun, 06 Nov 1994 08:49:37 GMT".
Proof. reflexivity. Qed.

Example strptime_ex :
  DateTime.strptime_rfc1123 "sun,  6 nov 1994 8:49:37 gmt"
  = Some (DateTime.mk 1994 11 6 8 49 37 0).
Proof. reflexivity. Qed.

Example strptime_bad : DateTime.strptime_rfc1123 "yesterday" = None.
Proof. reflexivity. Qed.

Example strptime_feb30 :
  DateTime.strptime_rfc1123 "Sun, 30 Feb 1994 08:49:37 GMT" = None.
Proof. reflexivity. Qed.

Example md5_empty : MD5.hexdigest (encode "") = "d41d8cd98f00b204e9800998ecf8427e".
Proof. vm_compute. reflexivity. Qed.

Example md5_abc : MD5.hexdigest (encode "abc") = "900150983cd24fb0d6963f7d28e17f72".
Proof. vm_compute. reflexivity. Qed.

Example md5_two_blocks :
  MD5.hexdigest (encode "aaaaaaaaaaaaaaaaaaaaaaaaaaaaaaaaaaaaaaaaaaaaaaaaaaaaaaaaaaaaaaaaaaaaaa")
  = "0f5c6c4e740bfcc08c3c26ccb2673d46".
Proof. vm_compute. reflexivity. Qed.

Example strptime_unit_separator :
  DateTime.strptime_rfc1123 ("Sun, 06 Nov 1994 08:49:37" ++ String (ascii_of_nat 31) "GMT")
  = Some (DateTime.mk 1994 11 6 8 49 37 0).
Proof. reflexivity. Qed.

Example int_unit_separator : Py.int (String (ascii_of_nat 31) "7") = None.
Proof. reflexivity. Qed.

Example join_keeps_dotdot :
  Path.join (Path.join (Path.parse "/srv/downloads") "..") "secret.txt"
  = Path.mk "/" ["srv"; "downloads"; ".."; "secret.txt"].
Proof. reflexivity. Qed.

Example join_drops_dot :
  Path.join (Path.join (Path.parse "/srv/downloads") "a.mp4") "."
  = Path.mk "/" ["srv"; "downloads"; "a.mp4"].
Proof. reflexivity. Qed.

Example join_rooted :
  Path.join (Path.parse "/srv/downloads") "/etc//passwd" = Path.mk "/" ["etc"; "passwd"].
Proof. reflexivity. Qed.

Example parse_two_slashes : Path.parse "//x/./y/" = Path.mk "//" ["x"; "y"].
Proof. reflexivity. Qed.

Example relative_to_is_lexical :
  Path.relative_to_ok (Path.parse "/srv/downloads/../secret.txt") (Path.parse "/srv/downloads")
  = true.
Proof. reflexivity. Qed.

Example normpath_leaves :
  normpath (Path.parse "/srv/downloads/../secret.txt") = Path.parse "/srv/secret.txt".
Proof. reflexivity. Qed.

(** ** Lists of bytes *)

Lemma firstn_split_at {A} (k n : nat) (l : list A) :
  (k <= n)%nat -> firstn n l = (firstn k l ++ firstn (n - k) (skipn k l))%list.
Proof.
  revert n l. induction k as [|k IH]; intros n l Hk.
  - simpl. now rewrite Nat.sub_0_r.
  - destruct n as [|n]; [lia|]. destruct l as [|x l]; simpl.
    + now rewrite firstn_nil.
    + f_equal. apply IH. lia.
Qed.

Lemma firstn_length_firstn {A} (n : nat) (l : list A) :
  firstn (List.length (firstn n l)) l = firstn n l.
Proof.
  revert l. induction n as [|n IH]; intros [|x l]; simpl; auto.
  f_equal. apply IH.
Qed.

Lemma firstn_empty_inv {A} (n : nat) (l : list A) :
  (0 < n)%nat -> firstn n l = [] -> l = [].
Proof. destruct n; [lia|]. destruct l; simpl; congruence. Qed.

Lemma In_skipn {A} (n : nat) (l : list A) (x : A) : In x (skipn n l) -> In x l.
Proof.
  revert l. induction n as [|n IH]; intros [|y l]; simpl; auto.
Qed.

(** ** The read loops *)

(** The loop of [file_sender_range] ends within its fuel and collects
    the bytes from the position up to [end_], or up to the end of the
    file when that comes first. *)
Lemma range_loop_spec (fuel : nat) :
  forall data pos start end_ chunks tr,
    0 <= start -> pos = Z.to_nat start ->
    (Z.to_nat (end_ - start + 1) < fuel)%nat ->
    exists rest tr',
      range_loop fuel (mkHandle data pos) start end_ chunks tr
      = Some ((chunks ++ rest)%list, (tr ++ tr')%list)
      /\ List.concat rest = firstn (Z.to_nat (end_ - start + 1)) (skipn pos data)
      /\ Forall is_read tr'.
Proof.
  induction fuel as [|fuel IH]; intros data pos start end_ chunks tr Hs Hp Hf; [lia|].
  cbn [range_loop]. destruct (start <=? end_) eqn:Hle.
  - apply Z.leb_le in Hle.
    set (cs := Z.min 65536 (end_ - start + 1)).
    assert (Hcs : 1 <= cs <= 65536) by (unfold cs; lia).
    cbn [read h_pos h_data].
    set (L := skipn pos data).
    destruct (firstn (Z.to_nat cs) L) as [|b bs] eqn:Hchunk.
    + exists [], [OpRead cs]. rewrite app_nil_r. split; [reflexivity|]. split.
      * apply firstn_empty_inv in Hchunk; [|lia]. rewrite Hchunk, firstn_nil. reflexivity.
      * constructor; [|constructor]. exists cs. auto.
    + set (chunk := b :: bs) in *.
      assert (Hlen : (1 <= List.length chunk <= Z.to_nat cs)%nat).
      { split; [unfold chunk; simpl; lia|]. rewrite <- Hchunk, length_firstn. lia. }
      destruct (IH data (pos + List.length chunk)%nat
                  (start + Z.of_nat (List.length chunk)) end_
                  (chunks ++ [chunk])%list (tr ++ [OpRead cs])%list)
        as (rest & tr' & Hrun & Hcat & Htr); [lia|lia|lia|].
      exists (chunk :: rest), (OpRead cs :: tr'). split; [|split].
      * rewrite Hrun. now rewrite <- !app_assoc.
      * cbn [List.concat]. rewrite Hcat.
        rewrite (firstn_split_at (List.length chunk) (Z.to_nat (end_ - start + 1)) L)
          by (unfold cs in Hlen; lia).
        f_equal.
        -- rewrite <- Hchunk. symmetry. apply firstn_length_firstn.
        -- unfold L. rewrite skipn_skipn. f_equal; [lia|]. f_equal. lia.
      * constructor; [exists cs; auto|exact Htr].
  - apply Z.leb_gt in Hle. exists [], []. rewrite !app_nil_r.
    split; [reflexivity|]. split; [|constructor].
    replace (Z.to_nat (end_ - start + 1)) with O by lia. reflexivity.
Qed.

(** The loop of [file_sender] ends within its fuel; its chunks are not
    empty, hold at most 64 KiB each and make up the rest of the file. *)
Lemma file_sender_loop_spec (fuel : nat) :
  forall data pos,
    (List.length data - pos < fuel)%nat ->
    exists chunks tr,
      file_sender_loop fuel (mkHandle data pos) = Some (chunks, tr)
      /\ List.concat chunks = skipn pos data
      /\ Forall (fun c => 1 <= Z.of_nat (List.length c) <= 65536) chunks
      /\ Forall is_read tr.
Proof.
  induction fuel as [|fuel IH]; intros data pos Hf; [lia|].
  cbn [file_sender_loop read h_pos h_data].
  set (L := skipn pos data).
  assert (Hr : is_read (OpRead 65536)) by (exists 65536; split; [reflexivity|lia]).
  destruct (firstn (Z.to_nat 65536) L) as [|b bs] eqn:Hchunk.
  - exists [], [OpRead 65536]. repeat split; auto.
    apply firstn_empty_inv in Hchunk; [|lia]. now rewrite Hchunk.
  - set (chunk := b :: bs) in *.
    assert (Hlen : 1 <= Z.of_nat (List.length chunk) <= 65536).
    { split; [unfold chunk; simpl; lia|]. rewrite <- Hchunk, length_firstn. lia. }
    assert (HL : (List.length chunk <= List.length L)%nat).
    { rewrite <- Hchunk, length_firstn. lia. }
    unfold L in HL. rewrite length_skipn in HL.
    destruct (IH data (pos + List.length chunk)%nat) as (chunks & tr & Hrun & Hcat & Hall & Htr);
      [lia|].
    rewrite Hrun. exists (chunk :: chunks), (OpRead 65536 :: tr). repeat split; auto.
    cbn [List.concat]. rewrite Hcat, <- Hchunk.
    replace (pos + List.length (firstn (Z.to_nat 65536) L))%nat
      with (List.length (firstn (Z.to_nat 65536) L) + pos)%nat by lia.
    rewrite <- skipn_skipn. fold L.
    rewrite <- (firstn_length_firstn (Z.to_nat 65536) L) at 1.
    apply firstn_skipn.
Qed.

(** ** The TTL cache *)

Module TTLCacheFacts.
Import TTLCache.

Section Cache.
Context {V : Type}.
Implicit Types (c : t V) (k : string) (e : entry V).

Lemma find_app k c1 c2 :
  find k (c1 ++ c2)%list = match find k c1 with Some e => Some e | None => find k c2 end.
Proof.
  unfold find. induction c1 as [|e c1 IH]; simpl; [reflexivity|].
  destruct (String.eqb (key e) k); auto.
Qed.

Lemma find_delete_same k c : find k (delete k c) = None.
Proof.
  unfold find, delete. induction c as [|e c IH]; simpl; [reflexivity|].
  destruct (String.eqb (key e) k) eqn:E; simpl; [exact IH|]. now rewrite E.
Qed.

Lemma find_delete_other k k' c : k' <> k -> find k' (delete k c) = find k' c.
Proof.
  intros Hne. unfold find, delete. induction c as [|e c IH]; simpl; [reflexivity|].
  destruct (String.eqb (key e) k) eqn:E; simpl.
  - apply String.eqb_eq in E.
    destruct (String.eqb (key e) k') eqn:E'; [apply String.eqb_eq in E'; congruence|exact IH].
  - destruct (String.eqb (key e) k'); [reflexivity|exact IH].
Qed.

Lemma find_key k c e : find k c = Some e -> key e = k.
Proof.
  unfold find. intros H. apply find_some in H. now apply String.eqb_eq.
Qed.

Lemma find_In k c e : find k c = Some e -> In e c.
Proof. unfold find. intros H. now apply find_some in H. Qed.

(** A look-up moves the entry but leaves every binding as it was. *)
Lemma find_get now k k' c : find k' (snd (get now k c)) = find k' c.
Proof.
  unfold get. destruct (find k c) as [e|] eqn:F; [|reflexivity].
  destruct (now <? expires e); [|reflexivity]. cbn [snd].
  rewrite find_app. pose proof (find_key _ _ _ F) as Hk.
  destruct (String.eqb_spec k' k) as [->|Hne].
  - rewrite find_delete_same. unfold find. simpl. rewrite Hk, String.eqb_refl. now rewrite <- F.
  - rewrite find_delete_other by assumption.
    destruct (find k' c); [reflexivity|]. unfold find. simpl.
    rewrite Hk. destruct (String.eqb_spec k k'); congruence.
Qed.

Lemma get_fst now k c :
  fst (get now k c)
  = match find k c with
    | Some e => if now <? expires e then Some (value e) else None
    | None => None
    end.
Proof.
  unfold get. destruct (find k c) as [e|]; [|reflexivity].
  now destruct (now <? expires e).
Qed.

Lemma get_miss_snd now k c : fst (get now k c) = None -> snd (get now k c) = c.
Proof.
  unfold get. destruct (find k c) as [e|]; [|reflexivity].
  destruct (now <? expires e); [discriminate|reflexivity].
Qed.

Lemma find_setitem p now k v c :
  find k (setitem p now k v c) = Some (mkEntry k v (now + ttl p)).
Proof.
  unfold setitem. rewrite find_app, find_delete_same.
  unfold find. simpl. now rewrite String.eqb_refl.
Qed.

(** What was stored is found again until its time is over. *)
Lemma get_setitem p now now' k v c :
  now' < now + ttl p -> fst (get now' k (setitem p now k v c)) = Some v.
Proof.
  intros H. rewrite get_fst, find_setitem. cbn [expires value].
  apply Z.ltb_lt in H. now rewrite H.
Qed.

Lemma In_get now k c e : In e (snd (get now k c)) -> In e c.
Proof.
  unfold get. destruct (find k c) as [e0|] eqn:F; [|auto].
  destruct (now <? expires e0); [|auto]. cbn [snd].
  rewrite in_app_iff. intros [H|[<-|[]]].
  - unfold delete in H. now apply filter_In in H.
  - eapply find_In; eauto.
Qed.

Lemma In_setitem p now k v c e :
  In e (setitem p now k v c) -> In e c \/ e = mkEntry k v (now + ttl p).
Proof.
  unfold setitem. rewrite in_app_iff. intros [H|[<-|[]]]; [left|now right].
  unfold delete in H. apply filter_In in H. destruct H as [H _].
  assert (He : In e (expire now c)).
  { destruct (find k (expire now c)); [exact H|]. eapply In_skipn; eauto. }
  unfold expire in He. now apply filter_In in He.
Qed.


End Cache.
End TTLCacheFacts.

(** ** [file_sender_range] *)

Lemma open_rb_file fs p content mtime :
  resolve fs p = Some (File content mtime) -> open_rb fs p = Some (mkHandle content 0).
Proof. unfold open_rb. now intros ->. Qed.

(** The miss path of [file_sender_range], with the look-up falsy: no
    live entry under the key, or an empty one. *)
Lemma range_miss st fs now p start end_ content mtime :
  let key := chunk_key p start end_ in
  let got := TTLCache.get now key (chunk_cache st) in
  let blob := firstn (Z.to_nat (end_ - start + 1)) (skipn (Z.to_nat start) content) in
  let s := file_sender_range st fs now p start end_ in
  (fst got = None \/ fst got = Some []) ->
  resolve fs p = Some (File content mtime) ->
  0 <= start ->
  stream s = Yielded [blob]
  /\ (exists tr, reads s = ([OpOpen p; OpSeek start] ++ tr)%list /\ Forall is_read tr)
  /\ meta_cache (state_after s) = meta_cache st
  /\ (Z.of_nat (List.length blob) < 1024 * 1024 ->
      chunk_cache (state_after s) = TTLCache.setitem CHUNK_CACHE now key blob (snd got))
  /\ (1024 * 1024 <= Z.of_nat (List.length blob) ->
      chunk_cache (state_after s) = snd got).
Proof.
  intros key got blob s Hmiss Hfile Hstart.
  destruct (range_loop_spec (S (Z.to_nat (end_ - start + 1))) content (Z.to_nat start)
              start end_ [] [OpOpen p; OpSeek start] Hstart eq_refl)
    as (rest & tr & Hrun & Hcat & Htr); [lia|].
  assert (Hs : s = mkSent (Yielded [blob])
                 (if Z.of_nat (List.length blob) <? 1024 * 1024
                  then mkState (meta_cache st)
                         (TTLCache.setitem CHUNK_CACHE now key blob (snd got))
                  else mkState (meta_cache st) (snd got))
                 ([OpOpen p; OpSeek start] ++ tr)%list).
  { unfold s, file_sender_range. fold key. fold got.
    destruct got as [cached cc] eqn:Hgot. cbn [fst snd] in *.
    assert (Hopen : open_rb fs p = Some (mkHandle content 0)) by (eapply open_rb_file; eauto).
    assert (Hneg : (start <? 0) = false) by (apply Z.ltb_ge; lia).
    destruct Hmiss as [-> | ->]; rewrite Hopen, Hneg; unfold seek; cbn [h_data];
      rewrite Hrun; cbn [app]; rewrite Hcat; fold blob; cbn [meta_cache chunk_cache];
      destruct (Z.of_nat (List.length blob) <? 1024 * 1024); reflexivity. }
  rewrite Hs. cbn [stream reads state_after]. split; [reflexivity|].
  split; [exists tr; auto|].
  destruct (Z.of_nat (List.length blob) <? 1024 * 1024) eqn:Hlt; cbn [meta_cache chunk_cache].
  - apply Z.ltb_lt in Hlt. repeat split; auto. lia.
  - apply Z.ltb_ge in Hlt. repeat split; auto. lia.
Qed.

(** ** Python strings and integers *)

Module PyFacts.
Import Py.

Lemma digit_cases d : 0 <= d <= 9 ->
  d = 0 \/ d = 1 \/ d = 2 \/ d = 3 \/ d = 4 \/ d = 5 \/ d = 6 \/ d = 7 \/ d = 8 \/ d = 9.
Proof. lia. Qed.

Lemma is_digit_digit_char d : 0 <= d <= 9 -> is_digit (digit_char d) = true.
Proof.
  intros H. destruct (digit_cases d H) as [->|[->|[->|[->|[->|[->|[->|[->|[->| ->]]]]]]]]];
    reflexivity.
Qed.

Lemma digit_val_digit_char d : 0 <= d <= 9 -> digit_val (digit_char d) = d.
Proof.
  intros H. destruct (digit_cases d H) as [->|[->|[->|[->|[->|[->|[->|[->|[->| ->]]]]]]]]];
    reflexivity.
Qed.

Lemma digit_val_nonneg c : is_digit c = true -> 0 <= digit_val c <= 9.
Proof.
  unfold is_digit, digit_val. intros H. apply andb_prop in H. destruct H as [H1 H2].
  apply Nat.leb_le in H1, H2. lia.
Qed.

Lemma all_app f a b : all f (a ++ b) = all f a && all f b.
Proof.
  induction a as [|c a IH]; simpl; [reflexivity|]. now rewrite IH, andb_assoc.
Qed.

Lemma all_impl (f g : ascii -> bool) s :
  (forall c, f c = true -> g c = true) -> all f s = true -> all g s = true.
Proof.
  intros Hfg. induction s as [|c s IH]; simpl; [reflexivity|].
  intros H. apply andb_prop in H. destruct H as [H1 H2].
  now rewrite (Hfg _ H1), IH.
Qed.

Lemma log2_div10 n : 10 <= n -> Z.log2 (n / 10) < Z.log2 n.
Proof.
  intros H.
  assert (Hle : Z.log2 (n / 10) <= Z.log2 (n / 2)).
  { apply Z.log2_le_mono. apply Z.div_le_compat_l; lia. }
  rewrite <- Z.div2_div, Z.div2_spec, Z.log2_shiftr in Hle by lia.
  assert (H2 : Z.log2 2 <= Z.log2 n) by (apply Z.log2_le_mono; lia).
  change (Z.log2 2) with 1 in H2. lia.
Qed.

(** The digits written with enough fuel are digits. *)
Lemma digits_fuel_all fuel : forall n acc,
  0 <= n -> all is_digit acc = true -> all is_digit (digits_fuel fuel n acc) = true.
Proof.
  induction fuel as [|fuel IH]; intros n acc Hn Hacc; [exact Hacc|].
  cbn [digits_fuel].
  assert (Hd : is_digit (digit_char (n mod 10)) = true)
    by (apply is_digit_digit_char; pose proof (Z.mod_pos_bound n 10); lia).
  destruct (n <? 10).
  - simpl. now rewrite Hd.
  - apply IH; [apply Z.div_pos; lia|]. simpl. now rewrite Hd.
Qed.

Lemma digits_all n : 0 <= n -> all is_digit (digits n) = true.
Proof. intros H. now apply digits_fuel_all. Qed.



(** Reading back what [digits_fuel] wrote in front of [acc]. *)
Lemma int_digits_digits_fuel fuel : forall n acc b,
  0 <= n -> Z.log2 n < Z.of_nat fuel ->
  int_digits (digits_fuel fuel n acc) 0 b = int_digits acc n true.
Proof.
  induction fuel as [|fuel IH]; intros n acc b Hn Hf.
  - pose proof (Z.log2_nonneg n). lia.
  - cbn [digits_fuel].
    assert (Hm : 0 <= n mod 10 <= 9) by (pose proof (Z.mod_pos_bound n 10); lia).
    destruct (n <? 10) eqn:Hlt.
    + apply Z.ltb_lt in Hlt. cbn [int_digits].
      rewrite is_digit_digit_char, digit_val_digit_char by assumption.
      rewrite Z.mod_small by lia. f_equal.
    + apply Z.ltb_ge in Hlt. rewrite IH.
      * cbn [int_digits]. rewrite is_digit_digit_char, digit_val_digit_char by assumption.
        f_equal. symmetry. apply Z.div_mod. lia.
      * apply Z.div_pos; lia.
      * pose proof (log2_div10 n Hlt). lia.
Qed.

Lemma int_digits_digits n : 0 <= n -> int_digits (digits n) 0 false = Some n.
Proof.
  intros H. unfold digits. rewrite int_digits_digits_fuel; [reflexivity|assumption|lia].
Qed.


Lemma digit_neq c (x : ascii) : is_digit c = true -> is_digit x = false -> Ascii.eqb c x = false.
Proof.
  intros Hc Hx. destruct (Ascii.eqb_spec c x); [congruence|reflexivity].
Qed.




(** A number below [10 ^ k] is written with at most [k] digits. *)
Lemma digits_fuel_length fuel : forall n k acc,
  0 <= n < 10 ^ Z.of_nat k -> (1 <= k)%nat ->
  (String.length (digits_fuel fuel n acc) <= k + String.length acc)%nat.
Proof.
  induction fuel as [|fuel IH]; intros n k acc Hn Hk; cbn [digits_fuel]; [lia|].
  destruct (n <? 10) eqn:Hlt; [simpl; lia|]. apply Z.ltb_ge in Hlt.
  destruct k as [|k]; [lia|]. destruct k as [|k].
  - change (10 ^ Z.of_nat 1) with 10 in Hn. lia.
  - specialize (IH (n / 10) (S k) (String (digit_char (n mod 10)) acc)).
    cbn [String.length] in IH.
    assert (Hp : 10 ^ Z.of_nat (S (S k)) = 10 * 10 ^ Z.of_nat (S k)).
    { rewrite (Nat2Z.inj_succ (S k)). rewrite Z.pow_succ_r by lia. reflexivity. }
    assert (Hq : 0 <= n / 10 < 10 ^ Z.of_nat (S k)).
    { split; [apply Z.div_pos; lia|]. apply Z.div_lt_upper_bound; lia. }
    specialize (IH Hq). lia.
Qed.



Lemma str_int_nonneg n : 0 <= n -> str_int n = digits n.
Proof. intros H. unfold str_int. apply Z.ltb_ge in H. now rewrite H. Qed.

Lemma digits_inj n m : 0 <= n -> 0 <= m -> digits n = digits m -> n = m.
Proof.
  intros Hn Hm E. pose proof (int_digits_digits n Hn) as A.
  rewrite E, (int_digits_digits m Hm) in A. congruence.
Qed.

End PyFacts.

Module SplitFacts.
Import Py PyFacts.

Lemma split_whole sep s : all (differs sep) s = true -> split sep s = [s].
Proof.
  induction s as [|c s IH]; simpl; [reflexivity|]. intros H.
  apply andb_prop in H. destruct H as [Hc Hs]. unfold differs in Hc.
  apply negb_true_iff in Hc. rewrite Hc, (IH Hs). reflexivity.
Qed.


(** No piece of a split holds the separator. *)
Lemma split_pieces sep s : Forall (fun x => all (differs sep) x = true) (split sep s).
Proof.
  induction s as [|c s IH]; simpl; [repeat constructor|].
  destruct (Ascii.eqb c sep) eqn:E; [constructor; [reflexivity|exact IH]|].
  destruct (split sep s) as [|h t]; [repeat constructor; simpl; unfold differs; now rewrite E|].
  inversion IH; subst. constructor; [|assumption].
  simpl. unfold differs at 1. now rewrite E.
Qed.


Lemma digit_differs x s :
  is_digit x = false -> all is_digit s = true -> all (differs x) s = true.
Proof.
  intros Hx. apply all_impl. intros c Hc. unfold differs.
  now rewrite (digit_neq c x Hc Hx).
Qed.

Lemma all_lstrip f s : all f s = true -> all f (lstrip s) = true.
Proof.
  induction s as [|c s IH]; [reflexivity|]. simpl. intros H.
  destruct (is_space c); [|exact H]. apply andb_prop in H. now apply IH.
Qed.

Lemma all_rstrip f s : all f s = true -> all f (rstrip s) = true.
Proof.
  induction s as [|c s IH]; [reflexivity|]. simpl. intros H.
  apply andb_prop in H. destruct H as [Hc Hs]. specialize (IH Hs).
  destruct (rstrip s) as [|c' r].
  - destruct (is_space c); [reflexivity|]. simpl. now rewrite Hc.
  - simpl in *. now rewrite Hc.
Qed.

Lemma int_digits_nonneg s : forall acc b n,
  0 <= acc -> int_digits s acc b = Some n -> 0 <= n.
Proof.
  induction s as [|c s IH]; intros acc b n Hacc; cbn [int_digits].
  - destruct b; [|discriminate]. intros [= <-]. exact Hacc.
  - destruct (is_digit c) eqn:Hd.
    + apply IH. pose proof (digit_val_nonneg c Hd). lia.
    + destruct (Ascii.eqb c "_" && b); [|discriminate]. now apply IH.
Qed.

(** A number read from a string without a minus sign is not negative. *)
Lemma int_nonneg s n : all (differs "-") s = true -> int s = Some n -> 0 <= n.
Proof.
  intros Hs. unfold int.
  assert (H : all (differs "-") (strip s) = true) by (apply all_rstrip, all_lstrip, Hs).
  cbv zeta. destruct (MAX_STR_DIGITS <? count_digits (strip s))%nat; [discriminate|].
  destruct (strip s) as [|c r]; [discriminate|].
  simpl in H. apply andb_prop in H. destruct H as [Hc _].
  unfold differs in Hc. apply negb_true_iff in Hc. rewrite Hc.
  destruct (Ascii.eqb c "+"); apply int_digits_nonneg; lia.
Qed.

End SplitFacts.

(** ** Dates *)

Module DateTimeFacts.
Import Py PyFacts DateTime.

Lemma append_assoc (a b c : string) : (a ++ b) ++ c = a ++ (b ++ c).
Proof. induction a as [|x a IH]; simpl; [reflexivity|]. now rewrite IH. Qed.


Lemma take_digits_all d : forall acc rest,
  all is_digit d = true ->
  take_digits (String.length d) acc (d ++ rest)
  = option_map (fun v => (v, rest)) (int_digits d acc true).
Proof.
  induction d as [|c d IH]; intros acc rest H; [reflexivity|].
  simpl in H. apply andb_prop in H. destruct H as [Hc Hd].
  cbn [String.length take_digits append int_digits]. rewrite Hc. now apply IH.
Qed.

Lemma take_digits_zeros j : forall k s,
  take_digits (j + k) 0 (zeros j ++ s) = take_digits k 0 s.
Proof.
  induction j as [|j IH]; intros k s; [reflexivity|].
  cbn [zeros append Nat.add take_digits]. change (is_digit "0") with true. cbn iota.
  change (10 * 0 + digit_val "0") with 0. apply IH.
Qed.

(** Reading back a zero-padded field. *)
Lemma take_digits_zpad k n rest :
  0 <= n < 10 ^ Z.of_nat k -> (1 <= k)%nat ->
  take_digits k 0 (zpad k n ++ rest) = Some (n, rest).
Proof.
  intros Hn Hk. unfold zpad.
  pose proof (digits_fuel_length (S (Z.to_nat (Z.log2 n))) n k "" Hn Hk) as Hlen.
  fold (digits n) in Hlen. cbn [String.length] in Hlen.
  rewrite append_assoc.
  replace k with ((k - String.length (digits n)) + String.length (digits n))%nat at 1 by lia.
  rewrite take_digits_zeros, take_digits_all by (apply digits_all; lia).
  unfold digits. rewrite int_digits_digits_fuel by lia.
  reflexivity.
Qed.




(** *** The RFC-1123 form read back *)













End DateTimeFacts.

(** ** Cache keys *)

Module KeyFacts.
Import Py PyFacts SplitFacts DateTimeFacts.

(** A string that ends in a dash and a dash-free part splits there in
    one way only. *)
Lemma last_dash_unique a : forall b x y,
  all (differs "-") x = true -> all (differs "-") y = true ->
  a ++ String "-" x = b ++ String "-" y -> a = b /\ x = y.
Proof.
  induction a as [|c a IH]; intros b x y Hx Hy E.
  - destruct b as [|c' b]; simpl in E.
    + injection E as ->. auto.
    + injection E as <- ->. rewrite all_app in Hx. simpl in Hx.
      apply andb_prop in Hx. destruct Hx as [_ Hx]. discriminate.
  - destruct b as [|c' b]; simpl in E.
    + injection E as -> <-. rewrite all_app in Hy. simpl in Hy.
      apply andb_prop in Hy. destruct Hy as [_ Hy]. discriminate.
    + injection E as -> E. destruct (IH b x y Hx Hy E) as [-> ->]. auto.
Qed.

Lemma digits_no_dash n : 0 <= n -> all (differs "-") (digits n) = true.
Proof. intros H. apply digit_differs; [reflexivity|now apply digits_all]. Qed.

(** The key of the chunk cache determines the name and the range, for
    ranges that are not negative. *)
Lemma chunk_key_inj p s e p' s' e' :
  0 <= s -> 0 <= e -> 0 <= s' -> 0 <= e' ->
  chunk_key p s e = chunk_key p' s' e' ->
  Path.name p = Path.name p' /\ s = s' /\ e = e'.
Proof.
  intros Hs He Hs' He'. unfold chunk_key.
  rewrite !str_int_nonneg by assumption.
  change (Path.name p ++ "-" ++ digits s ++ "-" ++ digits e)
    with (Path.name p ++ String "-" (digits s ++ String "-" (digits e))).
  change (Path.name p' ++ "-" ++ digits s' ++ "-" ++ digits e')
    with (Path.name p' ++ String "-" (digits s' ++ String "-" (digits e'))).
  intros E.
  assert (E' : (Path.name p ++ String "-" (digits s)) ++ String "-" (digits e)
               = (Path.name p' ++ String "-" (digits s')) ++ String "-" (digits e')).
  { rewrite !append_assoc. exact E. }
  apply last_dash_unique in E'; try now apply digits_no_dash.
  destruct E' as [E1 E2].
  apply last_dash_unique in E1; try now apply digits_no_dash.
  destruct E1 as [E0 E1].
  repeat split; auto using digits_inj.
Qed.

(** The bounds a [Range] header yields hold no minus sign. *)
Lemma parse_range_nonneg h size s e :
  parse_range h size = Some (s, e) -> 0 <= s /\ (0 <= e \/ e = size - 1).
Proof.
  unfold parse_range.
  pose proof (split_pieces "-" (remove "bytes=" h)) as Hp.
  destruct (split "-" (remove "bytes=" h)) as [|x [|y [|z l]]]; try discriminate.
  inversion Hp as [|? ? Hx Hp']; subst. inversion Hp' as [|? ? Hy _]; subst.
  destruct (int x) as [sx|] eqn:Ex; [|discriminate].
  pose proof (int_nonneg x sx Hx Ex).
  destruct (truthy y).
  - destruct (int y) as [ey|] eqn:Ey; [|discriminate].
    pose proof (int_nonneg y ey Hy Ey). intros [= <- <-]. auto.
  - intros [= <- <-]. auto.
Qed.



End KeyFacts.

(** ** The handler *)

Section Service.

Variable VIDEO_DIR : Path.t.

Import TTLCacheFacts KeyFacts.

Ltac handler_cases :=
  repeat match goal with
         | |- context [match ?x with _ => _ end] => destruct x eqn:?
         | |- context [if ?x then _ else _] => destruct x eqn:?
         end.

(** The handler never touches the chunk cache. *)
Lemma get_video_chunk_cache st fs now req :
  chunk_cache (state (get_video VIDEO_DIR st fs now req)) = chunk_cache st.
Proof. unfold get_video, respond. handler_cases; reflexivity. Qed.


(** [is_file] says yes for the regular files [resolve] reaches, and for
    nothing else. *)
Lemma is_file_true fs p :
  is_file fs p = Some true -> exists content mtime, resolve fs p = Some (File content mtime).
Proof.
  unfold is_file, resolve.
  destruct (lookup_path fs p) as [[c m|es|]| |]; try discriminate. eauto.
Qed.


(** *** What the containment check does establish *)

(** Every response other than 304 is for a path that [relative_to]
    accepts: the components of [VIDEO_DIR] head those of the path. *)
Lemma response_path_accepted st fs now req status headers body :
  result (get_video VIDEO_DIR st fs now req) = Response status headers body ->
  status <> 304 ->
  Path.relative_to_ok (video_path_of VIDEO_DIR req) VIDEO_DIR = true.
Proof.
  unfold get_video, respond. handler_cases; cbn [result]; try discriminate;
    intros [= <- <- <-] Hst; try contradiction;
    match goal with
    | H : negb (Path.relative_to_ok _ _) = false |- _ => now apply negb_false_iff in H
    end.
Qed.

Lemma normalize_no_dotdot absolute parts : forall done,
  no_dotdot parts -> normalize absolute done parts = (rev done ++ parts)%list.
Proof.
  induction parts as [|x parts IH]; intros done H; cbn [normalize].
  - now rewrite app_nil_r.
  - inversion H as [|? ? Hx Hrest]; subst. rewrite Hx, (IH _ Hrest).
    cbn [rev]. now rewrite <- app_assoc.
Qed.

Lemma is_prefix_no_dotdot a : forall b,
  Path.is_prefix a b = true -> no_dotdot b -> no_dotdot a.
Proof.
  induction a as [|x a IH]; intros b Hp Hb; [constructor|].
  destruct b as [|y b]; [discriminate|]. cbn [Path.is_prefix] in Hp.
  apply andb_prop in Hp. destruct Hp as [Hxy Hp]. apply String.eqb_eq in Hxy. subst y.
  inversion Hb; subst. constructor; [assumption|]. eapply IH; eauto.
Qed.

(** A path that [relative_to] accepts and that holds no [".."]
    normalizes inside [VIDEO_DIR]: the check fails only through
    [".."] components. *)
Lemma accepted_without_dotdot_inside p :
  Path.relative_to_ok p VIDEO_DIR = true ->
  no_dotdot (Path.tail p) ->
  descendant VIDEO_DIR p = true.
Proof.
  intros Hrel Hp. unfold descendant, normpath, Path.relative_to_ok in *.
  cbn [Path.root Path.tail]. apply andb_prop in Hrel. destruct Hrel as [Hroot Hpre].
  rewrite Hroot. cbn [andb].
  rewrite !normalize_no_dotdot; cbn [rev app]; eauto using is_prefix_no_dotdot.
Qed.

(** A ranged response carries bounds inside the file, none negative. *)
Lemma get_video_range_bounds st fs now req status headers p s e :
  result (get_video VIDEO_DIR st fs now req)
  = Response status headers (FileSenderRange p s e) ->
  0 <= s /\ 0 <= e.
Proof.
  unfold get_video, respond. handler_cases; cbn [result]; try discriminate.
  intros [= <- <- <- <- <-].
  match goal with
  | H : parse_range _ _ = Some _ |- _ => apply parse_range_nonneg in H; destruct H as [Hs He]
  end.
  match goal with
  | H : (_ || _) = false |- _ => apply orb_false_iff in H; destruct H as [H1 H2]
  end.
  rewrite Z.geb_leb in H1, H2. apply Z.leb_gt in H1, H2. lia.
Qed.

Lemma file_sender_state st fs p : state_after (file_sender st fs p) = st.
Proof. unfold file_sender. handler_cases; reflexivity. Qed.

Lemma file_sender_range_meta st fs now p s e :
  meta_cache (state_after (file_sender_range st fs now p s e)) = meta_cache st.
Proof. unfold file_sender_range. handler_cases; reflexivity. Qed.

(** [file_sender_range] is a look-up in the chunk cache, then at most
    one store, under the key of the range, of what the loop has read. *)
Lemma file_sender_range_steps st fs now p s e :
  let st1 := mkState (meta_cache st)
               (snd (TTLCache.get now (chunk_key p s e) (chunk_cache st))) in
  let st' := state_after (file_sender_range st fs now p s e) in
  st' = st1
  \/ exists fuel file tr0 chunks tr,
       range_loop fuel file s e [] tr0 = Some (chunks, tr)
       /\ st' = mkState (meta_cache st1)
                  (TTLCache.setitem CHUNK_CACHE now (chunk_key p s e) (List.concat chunks)
                     (chunk_cache st1)).
Proof.
  intros st1 st'. unfold st', st1, file_sender_range.
  destruct (TTLCache.get now (chunk_key p s e) (chunk_cache st)) as [cached cc]. cbn [snd].
  destruct cached as [[|b bs]|]; cbn [state_after];
    try (left; reflexivity);
    (destruct (open_rb fs p); [|left; reflexivity];
     destruct (s <? 0); [left; reflexivity|];
     destruct (range_loop _ _ s e [] _) as [[chunks tr]|] eqn:Hrun; [|left; reflexivity];
     cbn [state_after meta_cache chunk_cache];
     destruct (_ <? _); [|left; reflexivity];
     right; do 5 eexists; split; [exact Hrun|reflexivity]).
Qed.

(** The loop reads nothing on an empty range. *)
Lemma range_loop_empty fuel file s e chunks0 tr0 chunks tr :
  e < s -> range_loop fuel file s e chunks0 tr0 = Some (chunks, tr) -> chunks = chunks0.
Proof.
  intros Hlt. destruct fuel as [|fuel]; cbn [range_loop]; [discriminate|].
  apply Z.leb_gt in Hlt. rewrite Hlt. now intros [= <- _].
Qed.

(** Producing the body of a response the handler gave leads from
    reachable states to reachable states. *)
Lemma reachable_send st st0 fs0 now0 req0 status headers body fs now :
  reachable VIDEO_DIR st ->
  result (get_video VIDEO_DIR st0 fs0 now0 req0) = Response status headers body ->
  reachable VIDEO_DIR (state_after (send st fs now body)).
Proof.
  intros Hreach Hres. destruct body as [|p|p s e]; cbn [send state_after].
  - exact Hreach.
  - now rewrite file_sender_state.
  - destruct (file_sender_range_steps st fs now p s e)
      as [-> | (fuel & file & tr0 & chunks & tr & Hrun & ->)].
    + now apply reach_lookup.
    + eapply reach_store; eauto. now apply reach_lookup.
Qed.

(** *** What holds of every reachable state *)

Lemma Forall_get {V} (P : TTLCache.entry V -> Prop) now k (c : TTLCache.t V) :
  Forall P c -> Forall P (snd (TTLCache.get now k c)).
Proof.
  rewrite !Forall_forall. intros H en Hin. apply H. eapply In_get; eauto.
Qed.

Lemma Forall_setitem {V} (P : TTLCache.entry V -> Prop) pr now k v (c : TTLCache.t V) :
  Forall P c -> P (TTLCache.mkEntry k v (now + TTLCache.ttl pr)) ->
  Forall P (TTLCache.setitem pr now k v c).
Proof.
  rewrite !Forall_forall. intros H Hnew en Hin.
  apply In_setitem in Hin. destruct Hin as [Hin | ->]; auto.
Qed.

(** A digest is 32 hexadecimal characters. *)
Lemma hexdigest_length msg : String.length (MD5.hexdigest msg) = 32%nat.
Proof.
  unfold MD5.hexdigest, MD5.digest.
  destruct (fold_left MD5.process _ _) as [[[a b] c] d]. reflexivity.
Qed.

Lemma hexdigest_nonempty msg : MD5.hexdigest msg <> "".
Proof.
  intros E. pose proof (hexdigest_length msg) as H. rewrite E in H. discriminate.
Qed.

Lemma get_video_meta_ok st fs now req :
  meta_ok st -> meta_ok (state (get_video VIDEO_DIR st fs now req)).
Proof.
  unfold meta_ok. intros H.
  pose proof (Forall_get _ now (meta_key req) _ H) as Hg.
  unfold get_video, respond.
  destruct (TTLCache.get now (meta_key req) (meta_cache st)) as [meta mc]. cbn [snd] in Hg.
  handler_cases; cbn [state meta_cache]; auto;
    apply Forall_setitem; auto; cbn [TTLCache.value etag]; apply hexdigest_nonempty.
Qed.

(** The two invariants hold in every reachable state. *)
Lemma reachable_ok st : reachable VIDEO_DIR st -> meta_ok st /\ chunks_ok st.
Proof.
  induction 1 as [|st fs now req _ [IHm IHc]|st now k _ [IHm IHc]
                 |st st0 fs0 now0 req0 sc hs p s e fuel file tr0 chunks tr now
                    _ [IHm IHc] Hres Hrun].
  - split; constructor.
  - split; [now apply get_video_meta_ok|].
    unfold chunks_ok. now rewrite get_video_chunk_cache.
  - split; [exact IHm|]. unfold chunks_ok. cbn [chunk_cache]. now apply Forall_get.
  - split; [exact IHm|]. unfold chunks_ok. cbn [chunk_cache].
    destruct (get_video_range_bounds _ _ _ _ _ _ _ _ _ Hres) as [Hs He].
    apply Forall_setitem; [exact IHc|].
    cbn [TTLCache.key TTLCache.value]. intros p' s' e' Hs' He' Hlt E.
    apply chunk_key_inj in E; try assumption. destruct E as (_ & -> & ->).
    now rewrite (range_loop_empty _ _ _ _ _ _ _ _ Hlt Hrun).
Qed.

End Service.

(** ** Conditional requests *)

Section Conditional.

Variable VIDEO_DIR : Path.t.

Import TTLCacheFacts.

(** The answer to a request whose [If-None-Match] is the stored tag. *)
Lemma get_video_etag_hit st fs now req en :
  TTLCache.find (meta_key req) (meta_cache st) = Some en ->
  now < TTLCache.expires en ->
  if_none_match req = Some (etag (TTLCache.value en)) ->
  etag (TTLCache.value en) <> "" ->
  get_video VIDEO_DIR st fs now req
  = mkOutcome (Response 304 [] NoBody)
      (mkState (snd (TTLCache.get now (meta_key req) (meta_cache st))) (chunk_cache st)) [].
Proof.
  intros Hfind Hlive Hinm Hne. unfold get_video.
  pose proof (get_fst now (meta_key req) (meta_cache st)) as Hg.
  rewrite Hfind in Hg. apply Z.ltb_lt in Hlive. rewrite Hlive in Hg.
  destruct (TTLCache.get now (meta_key req) (meta_cache st)) as [meta mc].
  cbn [fst snd] in *. subst meta.
  unfold conditional, etag_matches, given. rewrite Hinm.
  unfold Py.truthy. destruct (String.eqb_spec (etag (TTLCache.value en)) ""); [contradiction|].
  cbn [negb]. now rewrite String.eqb_refl.
Qed.

Lemma serve_all_not_modified en k (reqs : list (FS * Z * Request)) : forall st,
  TTLCache.find k (meta_cache st) = Some en ->
  etag (TTLCache.value en) <> "" ->
  Forall (fun '(_, now, req) =>
            meta_key req = k /\ now < TTLCache.expires en
            /\ if_none_match req = Some (etag (TTLCache.value en))) reqs ->
  Forall not_modified (serve_all VIDEO_DIR st reqs).
Proof.
  induction reqs as [|[[fs now] req] reqs IH]; intros st Hfind Hne Hall; [constructor|].
  inversion Hall as [|? ? Hhd Hrest]. cbv beta iota in Hhd.
  destruct Hhd as (Hk & Hlive & Hinm). subst.
  cbn [serve_all]. cbv zeta. unfold serve.
  rewrite (get_video_etag_hit st fs now req en Hfind Hlive Hinm Hne).
  cbn [result state trace send stream state_after reads sv_state].
  constructor; [repeat split|].
  apply IH; auto. cbn [meta_cache]. now rewrite find_get.
Qed.

Lemma status_not_304 st fs now req :
  fst (TTLCache.get now (meta_key req) (meta_cache st)) = None ->
  status_of (result (get_video VIDEO_DIR st fs now req)) <> 304.
Proof.
  intros Hcold. unfold get_video, respond.
  destruct (TTLCache.get now (meta_key req) (meta_cache st)) as [meta mc].
  cbn [fst] in Hcold. subst meta. cbn [conditional].
  repeat match goal with
         | |- context [match ?x with _ => _ end] => destruct x eqn:?
         | |- context [if ?x then _ else _] => destruct x eqn:?
         end; cbn [result status_of]; lia.
Qed.

Lemma cold_ignores_conditionals st fs now req :
  fst (TTLCache.get now (meta_key req) (meta_cache st)) = None ->
  get_video VIDEO_DIR st fs now req = get_video VIDEO_DIR st fs now (unconditional req).
Proof.
  intros Hcold. unfold get_video.
  change (meta_key (unconditional req)) with (meta_key req).
  destruct (TTLCache.get now (meta_key req) (meta_cache st)) as [meta mc].
  cbn [fst] in Hcold. subst meta. reflexivity.
Qed.

(** C3.  In every reachable state, while the metadata entry under
    ["{filename}-{subfolder}"] is live, each request of a sequence with
    [If-None-Match] equal to the stored tag is answered 304 with an
    empty body and without any file-system operation, however long the
    sequence; and when the look-up finds no live entry, the handler
    does what it does without the conditional headers and does not
    answer 304. *)
Theorem conditional_idempotent st :
  reachable VIDEO_DIR st ->
  (forall k en reqs,
      TTLCache.find k (meta_cache st) = Some en ->
      Forall (fun '(_, now, req) =>
                meta_key req = k /\ now < TTLCache.expires en
                /\ if_none_match req = Some (etag (TTLCache.value en))) reqs ->
      Forall not_modified (serve_all VIDEO_DIR st reqs))
  /\ (forall fs now req,
         fst (TTLCache.get now (meta_key req) (meta_cache st)) = None ->
         get_video VIDEO_DIR st fs now req = get_video VIDEO_DIR st fs now (unconditional req)
         /\ status_of (result (get_video VIDEO_DIR st fs now req)) <> 304).
Proof.
  intros Hreach. destruct (reachable_ok VIDEO_DIR st Hreach) as [Hmeta _]. split.
  - intros k en reqs Hfind Hall. eapply serve_all_not_modified; eauto.
    unfold meta_ok in Hmeta. rewrite Forall_forall in Hmeta.
    apply Hmeta. eapply find_In; eauto.
  - intros fs now req Hcold. split;
      [now apply cold_ignores_conditionals|now apply status_not_304].
Qed.

(** C8 as amended.  For a filename with a slash or a backslash the
    handler performs no file-system operation, and unless the
    conditional headers decide against a live metadata entry under the
    request's key it raises 400, Invalid filename; with no live entry
    under the key it always does. *)
Theorem separator_rejected st fs now req :
  Py.has_separator (filename req) = true ->
  let meta := fst (TTLCache.get now (meta_key req) (meta_cache st)) in
  let o := get_video VIDEO_DIR st fs now req in
  trace o = []
  /\ result o = match conditional meta req with
                | NotModified => Response 304 [] NoBody
                | ParseError => Unhandled "ValueError"
                | Proceed => HTTPException 400 "Invalid filename"
                end
  /\ (meta = None -> result o = HTTPException 400 "Invalid filename").
Proof.
  intros Hsep meta o. unfold o, meta, get_video, validate_filename.
  destruct (TTLCache.get now (meta_key req) (meta_cache st)) as [m mc]. cbn [fst].
  rewrite Hsep. split; [|split].
  - destruct (conditional m req); reflexivity.
  - destruct (conditional m req); reflexivity.
  - intros ->. reflexivity.
Qed.

End Conditional.

(** ** The name in the key of the chunk cache *)

Section Names.

Variable VIDEO_DIR : Path.t.

Import SplitFacts.

Lemma no_separator_no_slash f :
  Py.has_separator f = false -> Py.all (Py.differs "/") f = true.
Proof.
  induction f as [|c f IH]; [reflexivity|]. simpl. intros H.
  apply orb_false_iff in H. destruct H as [H Hf].
  apply orb_false_iff in H. destruct H as [Hc _].
  rewrite (IH Hf). unfold Py.differs. now rewrite Hc.
Qed.

(** A file name without separators, not empty and not ["."], is one
    relative component. *)
Lemma parse_plain f :
  Py.has_separator f = false -> f <> "" -> f <> "." -> Path.parse f = Path.mk "" [f].
Proof.
  intros Hsep Hne Hdot. pose proof (no_separator_no_slash f Hsep) as Hall.
  unfold Path.parse, Path.splitroot.
  assert (Hstart : Py.startswith "/" f = false).
  { destruct f as [|c f]; [reflexivity|]. cbn [Py.all] in Hall.
    apply andb_prop in Hall. destruct Hall as [Hc _]. unfold Py.differs in Hc.
    apply negb_true_iff in Hc. cbn [Py.startswith].
    now rewrite (Ascii.eqb_sym "/" c), Hc. }
  rewrite Hstart. cbn [negb]. rewrite split_whole by assumption.
  cbn [filter]. unfold Path.keep_part.
  destruct (String.eqb_spec f ""); [contradiction|].
  destruct (String.eqb_spec f "."); [contradiction|]. reflexivity.
Qed.

(** For such a file name the name of the joined path is the file name,
    whatever the subfolder. *)
Lemma video_path_name req :
  Py.has_separator (filename req) = false -> filename req <> "" -> filename req <> "." ->
  Path.name (video_path_of VIDEO_DIR req) = filename req.
Proof.
  intros Hsep Hne Hdot.
  assert (Hjoin : forall X, Path.name (Path.join X (filename req)) = filename req).
  { intros X. unfold Path.join. rewrite (parse_plain _ Hsep Hne Hdot).
    cbn [Path.root Path.tail String.eqb]. unfold Path.name. cbn [Path.tail].
    apply last_last. }
  unfold video_path_of. destruct (given (subfolder req)); apply Hjoin.
Qed.

End Names.

(** ** Full and ranged responses *)

Section Responses.

Variable VIDEO_DIR : Path.t.

Import TTLCacheFacts KeyFacts DateTimeFacts.

(** C7 as amended.  With a live metadata entry whose tag the request
    does not match: an [If-Modified-Since] value that parses in the
    RFC-1123 format to a time not before the stored one is answered
    304; a value that is not empty and does not parse makes the handler
    fail with the [ValueError] of the parser; an empty value is skipped
    as if the header were absent.  None of this touches the file
    system. *)
Theorem if_modified_since_rule st fs now req meta :
  fst (TTLCache.get now (meta_key req) (meta_cache st)) = Some meta ->
  etag_matches meta req = false ->
  let o := get_video VIDEO_DIR st fs now req in
  (forall v d lm,
      if_modified_since req = Some v ->
      DateTime.strptime_rfc1123 v = Some d ->
      DateTime.fromisoformat (last_modified meta) = Some lm ->
      DateTime.ge d lm = true ->
      result o = Response 304 [] NoBody /\ trace o = [])
  /\ (forall v,
         if_modified_since req = Some v -> v <> "" ->
         DateTime.strptime_rfc1123 v = None ->
         result o = Unhandled "ValueError" /\ trace o = [])
  /\ (if_modified_since req = Some "" ->
      o = get_video VIDEO_DIR st fs now (without_if_modified_since req)).
Proof.
  intros Hwarm Hetag o. unfold o, get_video.
  change (meta_key (without_if_modified_since req)) with (meta_key req).
  destruct (TTLCache.get now (meta_key req) (meta_cache st)) as [m mc].
  cbn [fst] in Hwarm. subst m.
  assert (Hgiven : forall v, v <> "" -> given (Some v) = Some v).
  { intros v Hv. unfold given, Py.truthy.
    destruct (String.eqb_spec v ""); [contradiction|reflexivity]. }
  split; [|split].
  - intros v d lm Hv Hd Hlm Hge. unfold conditional. rewrite Hetag, Hv.
    rewrite Hgiven by (intros ->; discriminate Hd).
    now rewrite Hlm, Hd, Hge.
  - intros v Hv Hne Hd. unfold conditional. rewrite Hetag, Hv, (Hgiven v Hne), Hd.
    now destruct (DateTime.fromisoformat (last_modified meta)).
  - intros Hv. unfold conditional.
    change (etag_matches meta (without_if_modified_since req)) with (etag_matches meta req).
    rewrite Hetag, Hv. reflexivity.
Qed.




End Responses.

(** ** The chunk cache across requests *)

Section ChunkCache.

Variable VIDEO_DIR : Path.t.

Import TTLCacheFacts KeyFacts DateTimeFacts SplitFacts.




(** Once a non-empty blob shorter than 1 MiB has been yielded for a
    range, it sits in the chunk cache under the key of the range; the
    streamer then yields it again for any path of the same name, without
    touching the file system, until the entry expires. *)
Lemma range_hit_after st fs1 t1 p1 p2 s e b1 :
  Path.name p1 = Path.name p2 ->
  stream (file_sender_range st fs1 t1 p1 s e) = Yielded [b1] ->
  b1 <> [] -> Z.of_nat (List.length b1) < 1024 * 1024 ->
  let key := chunk_key p1 s e in
  let st1 := state_after (file_sender_range st fs1 t1 p1 s e) in
  exists en,
    TTLCache.find key (chunk_cache st1) = Some en
    /\ TTLCache.value en = b1
    /\ (fst (TTLCache.get t1 key (chunk_cache st)) = None -> TTLCache.expires en = t1 + 60)
    /\ forall st2 fs2 t2,
         chunk_cache st2 = chunk_cache st1 -> t2 < TTLCache.expires en ->
         stream (file_sender_range st2 fs2 t2 p2 s e) = Yielded [b1]
         /\ reads (file_sender_range st2 fs2 t2 p2 s e) = [].
Proof.
  intros Hname Hstream Hne Hlen key st1.
  assert (Hkey : chunk_key p2 s e = key) by (unfold key, chunk_key; now rewrite Hname).
  assert (Hagain : forall en,
             TTLCache.find key (chunk_cache st1) = Some en -> TTLCache.value en = b1 ->
             forall st2 fs2 t2,
               chunk_cache st2 = chunk_cache st1 -> t2 < TTLCache.expires en ->
               stream (file_sender_range st2 fs2 t2 p2 s e) = Yielded [b1]
               /\ reads (file_sender_range st2 fs2 t2 p2 s e) = []).
  { intros en Hfind Hval st2 fs2 t2 Hsame Hlive. unfold file_sender_range.
    rewrite Hkey, Hsame.
    pose proof (get_fst t2 key (chunk_cache st1)) as Hg. rewrite Hfind in Hg.
    apply Z.ltb_lt in Hlive. rewrite Hlive, Hval in Hg.
    destruct (TTLCache.get t2 key (chunk_cache st1)) as [c cc]. cbn [fst] in Hg. subst c.
    destruct b1; [contradiction|]. split; reflexivity. }
  revert Hstream Hagain. unfold st1, file_sender_range. fold key.
  pose proof (get_fst t1 key (chunk_cache st)) as Hg.
  pose proof (find_get t1 key key (chunk_cache st)) as Hf.
  destruct (TTLCache.get t1 key (chunk_cache st)) as [cached cc]. cbn [fst snd] in *.
  assert (Hstored : forall m,
             exists en,
               TTLCache.find key (TTLCache.setitem CHUNK_CACHE t1 key b1 m) = Some en
               /\ TTLCache.value en = b1 /\ TTLCache.expires en = t1 + 60).
  { intros m. eexists. split; [apply find_setitem|]. split; reflexivity. }
  destruct cached as [[|b bs]|].
  - destruct (open_rb fs1 p1); [|discriminate].
    destruct (s <? 0); [discriminate|].
    destruct (range_loop _ _ s e [] _) as [[chunks tr]|]; [|discriminate].
    cbn [stream state_after chunk_cache meta_cache]. intros [= Hb]. rewrite Hb.
    apply Z.ltb_lt in Hlen. rewrite Hlen. cbn [chunk_cache]. intros Hagain.
    destruct (Hstored cc) as (en & Hfind & Hval & Hexp).
    exists en. split; [exact Hfind|]. split; [exact Hval|]. split; [intros _; exact Hexp|].
    now apply Hagain.
  - cbn [stream state_after chunk_cache]. intros [= Hb] Hagain.
    destruct (TTLCache.find key (chunk_cache st)) as [en|] eqn:Hfind; [|discriminate].
    destruct (t1 <? TTLCache.expires en); [|discriminate].
    injection Hg as Hval.
    exists en. split; [exact Hf|]. split; [congruence|]. split; [discriminate|].
    apply Hagain; [exact Hf|congruence].
  - destruct (open_rb fs1 p1); [|discriminate].
    destruct (s <? 0); [discriminate|].
    destruct (range_loop _ _ s e [] _) as [[chunks tr]|]; [|discriminate].
    cbn [stream state_after chunk_cache meta_cache]. intros [= Hb]. rewrite Hb.
    apply Z.ltb_lt in Hlen. rewrite Hlen. cbn [chunk_cache]. intros Hagain.
    destruct (Hstored cc) as (en & Hfind & Hval & Hexp).
    exists en. split; [exact Hfind|]. split; [exact Hval|]. split; [intros _; exact Hexp|].
    now apply Hagain.
Qed.

End ChunkCache.

Section TwoRequests.

Variable VIDEO_DIR : Path.t.

Import TTLCacheFacts KeyFacts DateTimeFacts SplitFacts.

(** Two requests in a row whose ranged responses name paths with the
    same last component and the same range. *)
Lemma second_from_cache st fs1 t1 fs1' t1' fs2 t2 fs2' t2' req1 req2 h1 h2 p1 p2 s e b1 :
  Path.name p1 = Path.name p2 ->
  let first := serve VIDEO_DIR st fs1 t1 fs1' t1' req1 in
  let second := serve VIDEO_DIR (sv_state first) fs2 t2 fs2' t2' req2 in
  let key := chunk_key p1 s e in
  sv_result first = Response 206 h1 (FileSenderRange p1 s e) ->
  sv_stream first = Yielded [b1] ->
  b1 <> [] -> Z.of_nat (List.length b1) < 1024 * 1024 ->
  sv_result second = Response 206 h2 (FileSenderRange p2 s e) ->
  exists en,
    TTLCache.find key (chunk_cache (sv_state first)) = Some en
    /\ TTLCache.value en = b1
    /\ (fst (TTLCache.get t1' key (chunk_cache st)) = None -> TTLCache.expires en = t1' + 60)
    /\ (t2' < TTLCache.expires en ->
        sv_stream second = Yielded [b1] /\ sv_body_trace second = []).
Proof.
  intros Hname first second key Hres1 Hstream1 Hne Hlen Hres2.
  unfold second, serve in Hres2 |- *.
  set (o2 := get_video VIDEO_DIR (sv_state first) fs2 t2 req2) in *.
  pose proof (get_video_chunk_cache VIDEO_DIR (sv_state first) fs2 t2 req2) as Hcc2.
  fold o2 in Hcc2.
  destruct (result o2) as [sc2 hs2 body2| |] eqn:Ho2; cbn [sv_result] in Hres2; try discriminate.
  injection Hres2 as -> -> ->. cbn [send sv_stream sv_body_trace].
  revert Hcc2. unfold first, serve in Hres1, Hstream1 |- *.
  set (o1 := get_video VIDEO_DIR st fs1 t1 req1) in *.
  pose proof (get_video_chunk_cache VIDEO_DIR st fs1 t1 req1) as Hcc1. fold o1 in Hcc1.
  destruct (result o1) as [sc1 hs1 body1| |] eqn:Ho1; cbn [sv_result] in Hres1; try discriminate.
  injection Hres1 as -> -> ->. cbn [send sv_stream sv_state] in *. intros Hcc2.
  destruct (range_hit_after (state o1) fs1' t1' p1 p2 s e b1 Hname Hstream1 Hne Hlen)
    as (en & Hfind & Hval & Hexp & Hagain).
  exists en. split; [exact Hfind|]. split; [exact Hval|].
  split; [now rewrite <- Hcc1|].
  intros Hlive. now apply Hagain.
Qed.

(** C6 as amended.  When a request is answered 206 with a non-empty
    body shorter than 1 MiB, that body sits in the chunk cache under the
    key of the range, for 60 s from its store when the first request
    missed the cache; the same request served next and answered 206
    before the entry expires gets the same bytes as one chunk, and its
    streamer performs no file-system operation. *)
Theorem repeated_range st fs1 t1 fs1' t1' fs2 t2 fs2' t2' req h1 h2 p s e b1 :
  let first := serve VIDEO_DIR st fs1 t1 fs1' t1' req in
  let second := serve VIDEO_DIR (sv_state first) fs2 t2 fs2' t2' req in
  let key := chunk_key p s e in
  sv_result first = Response 206 h1 (FileSenderRange p s e) ->
  sv_stream first = Yielded [b1] ->
  b1 <> [] -> Z.of_nat (List.length b1) < 1024 * 1024 ->
  sv_result second = Response 206 h2 (FileSenderRange p s e) ->
  exists en,
    TTLCache.find key (chunk_cache (sv_state first)) = Some en
    /\ TTLCache.value en = b1
    /\ (fst (TTLCache.get t1' key (chunk_cache st)) = None -> TTLCache.expires en = t1' + 60)
    /\ (t2' < TTLCache.expires en ->
        sv_stream second = sv_stream first /\ sv_stream second = Yielded [b1]
        /\ sv_body_trace second = []).
Proof.
  intros first second key Hres1 Hstream1 Hne Hlen Hres2.
  destruct (second_from_cache st fs1 t1 fs1' t1' fs2 t2 fs2' t2' req req h1 h2 p p s e b1
              eq_refl Hres1 Hstream1 Hne Hlen Hres2) as (en & Hfind & Hval & Hexp & Hhit).
  exists en. split; [exact Hfind|]. split; [exact Hval|]. split; [exact Hexp|].
  intros Hlive. destruct (Hhit Hlive) as [Hs Ht].
  fold first in Hstream1. fold second in Hs, Ht. rewrite Hstream1. auto.
Qed.

(** C2 as amended.  The key of the chunk cache is the last component of
    the joined path, the range start and the range end; it holds the
    file name and not the subfolder when the file name is a plain
    component (no separator, not empty, not ["."]).  For two requests in
    a row with such a file name and the same range, whatever their
    subfolders, both answered 206, the first with a non-empty body
    shorter than 1 MiB: the second, served before the cached entry
    expires, gets the bytes cached for the first and its streamer
    performs no file-system operation. *)
Theorem cross_subfolder_hit st fs1 t1 fs1' t1' fs2 t2 fs2' t2' req1 req2 h1 h2 s e b1 :
  let p1 := video_path_of VIDEO_DIR req1 in
  let p2 := video_path_of VIDEO_DIR req2 in
  let first := serve VIDEO_DIR st fs1 t1 fs1' t1' req1 in
  let second := serve VIDEO_DIR (sv_state first) fs2 t2 fs2' t2' req2 in
  let key := filename req1 ++ "-" ++ Py.str_int s ++ "-" ++ Py.str_int e in
  filename req1 = filename req2 ->
  Py.has_separator (filename req1) = false ->
  filename req1 <> "" -> filename req1 <> "." ->
  sv_result first = Response 206 h1 (FileSenderRange p1 s e) ->
  sv_stream first = Yielded [b1] ->
  b1 <> [] -> Z.of_nat (List.length b1) < 1024 * 1024 ->
  sv_result second = Response 206 h2 (FileSenderRange p2 s e) ->
  chunk_key p1 s e = key /\ chunk_key p2 s e = key
  /\ exists en,
       TTLCache.find key (chunk_cache (sv_state first)) = Some en
       /\ TTLCache.value en = b1
       /\ (fst (TTLCache.get t1' key (chunk_cache st)) = None ->
           TTLCache.expires en = t1' + 60)
       /\ (t2' < TTLCache.expires en ->
           sv_stream second = Yielded [b1] /\ sv_body_trace second = []).
Proof.
  intros p1 p2 first second key Hfn Hsep Hne Hdot Hres1 Hstream1 Hb Hlen Hres2.
  assert (Hn1 : Path.name p1 = filename req1) by now apply video_path_name.
  assert (Hn2 : Path.name p2 = filename req1).
  { rewrite Hfn in *. now apply video_path_name. }
  assert (Hk1 : chunk_key p1 s e = key) by (unfold chunk_key, key; now rewrite Hn1).
  assert (Hk2 : chunk_key p2 s e = key) by (unfold chunk_key, key; now rewrite Hn2).
  split; [exact Hk1|]. split; [exact Hk2|].
  rewrite <- Hk1.
  apply (second_from_cache st fs1 t1 fs1' t1' fs2 t2 fs2' t2' req1 req2 h1 h2 p1 p2 s e b1);
    auto. congruence.
Qed.

End TwoRequests.

(** ** The service on the small installation *)

Section Runs.

Variable VIDEO_DIR : Path.t.

(** Serving a request leads from reachable states to reachable states. *)
Lemma reachable_serve st fs now fs' now' req :
  reachable VIDEO_DIR st ->
  reachable VIDEO_DIR (sv_state (serve VIDEO_DIR st fs now fs' now' req)).
Proof.
  intros H. unfold serve.
  destruct (result (get_video VIDEO_DIR st fs now req)) as [sc hs body| |] eqn:E;
    cbn [sv_state]; try now apply reach_get_video.
  eapply reachable_send; [apply reach_get_video; exact H|exact E].
Qed.

End Runs.

Module Cases.
Import Scenario.

(** C1, the code at the failing input.  With subfolder [".."] the
    joined path [/srv/downloads/../secret.txt] normalizes to
    [/srv/secret.txt], outside the video directory; [relative_to]
    compares the components as written and accepts it, and the handler
    answers 200 with the content of the outside file. *)
Theorem traversal_through_subfolder :
  let req := request "secret.txt" (Some "..") None in
  let p := video_path_of VIDEO_DIR req in
  let sv := serve VIDEO_DIR initial fs 0 fs 0 req in
  normpath p = Path.mk "/" ["srv"; "secret.txt"]
  /\ descendant VIDEO_DIR p = false
  /\ Path.relative_to_ok p VIDEO_DIR = true
  /\ status_of (sv_result sv) = 200
  /\ sv_stream sv = Yielded [bytes "TOPSECRET"].
Proof. vm_compute. repeat split. Qed.

(** C2 fails as stated: with the file name ["."] and the subfolders
    ["a.mp4"] and ["b.mp4"] the two requests share file name, start and
    end and differ in the subfolder, both are answered 206 within the
    TTL, yet the keys are ["a.mp4-0-1"] and ["b.mp4-0-1"], not
    [".-0-1"], and the second request reads its own file and gets its
    own bytes. *)
Lemma dot_filename_keys_differ :
  let r1 := request "." (Some "a.mp4") (Some "bytes=0-1") in
  let r2 := request "." (Some "b.mp4") (Some "bytes=0-1") in
  let first := serve VIDEO_DIR initial fs 0 fs 0 r1 in
  let second := serve VIDEO_DIR (sv_state first) fs 1 fs 1 r2 in
  filename r1 = filename r2 /\ subfolder r1 <> subfolder r2
  /\ status_of (sv_result first) = 206 /\ status_of (sv_result second) = 206
  /\ sv_stream first = Yielded [bytes "01"]
  /\ map TTLCache.key (chunk_cache (sv_state first)) = ["a.mp4-0-1"]
  /\ sv_stream second = Yielded [bytes "AB"]
  /\ sv_stream second <> sv_stream first
  /\ sv_body_trace second
     = [OpOpen (video_path_of VIDEO_DIR r2); OpSeek 0; OpRead 2].
Proof. vm_compute. repeat split; discriminate. Qed.


(** C6 fails as stated: the range [bytes=5-2] of a 10-byte file is
    under 1 MiB and answered 206 twice within a second with identical
    (empty) bodies, but the cached empty blob is falsy, so the second
    request opens the file and seeks again. *)
Lemma empty_range_reopens :
  let req := request "a.mp4" None (Some "bytes=5-2") in
  let first := serve VIDEO_DIR initial fs 0 fs 0 req in
  let second := serve VIDEO_DIR (sv_state first) fs 1 fs 1 req in
  status_of (sv_result first) = 206 /\ status_of (sv_result second) = 206
  /\ sv_stream first = Yielded [[]] /\ sv_stream second = Yielded [[]]
  /\ map (fun en => (TTLCache.key en, TTLCache.value en, TTLCache.expires en))
         (chunk_cache (sv_state first)) = [("a.mp4-5-2", [], 60)]
  /\ sv_body_trace second = [OpOpen (video_path_of VIDEO_DIR req); OpSeek 5]
  /\ sv_body_trace second <> [].
Proof. vm_compute. repeat split. discriminate. Qed.

(** C7 fails as stated: with a warm metadata entry and no
    [If-None-Match], the empty [If-Modified-Since] value does not parse
    in the RFC-1123 format, and the request is answered 200 all the
    same: the empty value is skipped. *)
Lemma empty_if_modified_since_ignored :
  let warm := sv_state (serve VIDEO_DIR initial fs 0 fs 0 (request "a.mp4" None None)) in
  let req := mkRequest "a.mp4" None None None (Some "") in
  let o := get_video VIDEO_DIR warm fs 10 req in
  fst (TTLCache.get 10 (meta_key req) (meta_cache warm))
  = Some (mkMeta "d9b26b99d64e9ef3c53181d1f206fc3c" "2024-03-01T12:00:00" 10)
  /\ DateTime.strptime_rfc1123 "" = None
  /\ status_of (result o) = 200
  /\ result o <> Unhandled "ValueError".
Proof. vm_compute. repeat split. discriminate. Qed.

(** C8 fails as stated: the valid pair (file name ["a"], subfolder
    ["x/y-z"]) and the pair (file name ["a-x/y"], subfolder ["z"]) have
    the same key ["a-x/y-z"].  After the first has been served, a warm
    entry exists under the key of the second, whose file name holds a
    slash, and with the matching [If-None-Match] the second is answered
    304, not 400. *)
Lemma separator_filename_not_modified :
  let warm := sv_state (serve VIDEO_DIR initial fs 0 fs 0 (request "a" (Some "x/y-z") None)) in
  let req := mkRequest "a-x/y" (Some "z") None (Some "68866aa9dd38d524817090bd85dcd2be") None in
  reachable VIDEO_DIR warm
  /\ Py.has_separator (filename req) = true
  /\ map TTLCache.key (meta_cache warm) = [meta_key req]
  /\ result (get_video VIDEO_DIR warm fs 5 req) = Response 304 [] NoBody
  /\ status_of (result (get_video VIDEO_DIR warm fs 5 req)) <> 400.
Proof.
  split; [apply reachable_serve, reach_initial|].
  vm_compute. repeat split. discriminate.
Qed.

(** C5 fails as stated: for the file name ["."] under the subfolder
    ["a.mp4"] the joined path is [/srv/downloads/a.mp4]; the range
    [bytes=2-5] misses the cache, and its blob is stored under
    ["a.mp4-2-5"], the name of the path, while nothing is stored under
    [".-2-5"], the key made from the file name. *)
Lemma blob_key_from_path_name :
  let req := request "." (Some "a.mp4") (Some "bytes=2-5") in
  let sv := serve VIDEO_DIR initial fs 0 fs 0 req in
  let cache := chunk_cache (sv_state sv) in
  status_of (sv_result sv) = 206
  /\ sv_stream sv = Yielded [bytes "2345"]
  /\ filename req ++ "-" ++ Py.str_int 2 ++ "-" ++ Py.str_int 5 = ".-2-5"
  /\ TTLCache.find ".-2-5" cache = None
  /\ TTLCache.find "a.mp4-2-5" cache
     = Some (TTLCache.mkEntry "a.mp4-2-5" (bytes "2345") 60).
Proof. vm_compute. repeat split. Qed.

(** C9 fails as stated.  A request without [Range] for the existing
    file [a.mp4], sent with the entity tag of the warm metadata entry,
    is answered 304 without headers or body, not 200.  And for a file
    last modified in the year 999 the [Last-Modified] header of the 200
    is ["Fri, 01 Mar 999 12:00:00 GMT"], which is not an RFC-1123 date:
    the fixed format does not read it. *)
Lemma full_request_not_modified :
  let req := mkRequest "a.mp4" None None (Some a_tag) None in
  (range req = None
   /\ resolve fs (video_path_of VIDEO_DIR req) = Some (File (bytes "0123456789") mtime)
   /\ sv_result (serve VIDEO_DIR warm fs 10 fs 10 req) = Response 304 [] NoBody
   /\ sv_stream (serve VIDEO_DIR warm fs 10 fs 10 req) = Yielded [])
  /\ (DateTime.valid mtime_999 = true
      /\ resolve fs_999 (video_path_of VIDEO_DIR a_mp4)
         = Some (File (bytes "0123456789") mtime_999)
      /\ sv_result (serve VIDEO_DIR initial fs_999 0 fs_999 0 a_mp4)
         = Response 200
             [("Content-Length", "10");
              ("Content-Type", "video/mp4");
              ("Cache-Control", "public, max-age=300");
              ("ETag", "b5177a77acffde08bfb8c22af701c136");
              ("Last-Modified", "Fri, 01 Mar 999 12:00:00 GMT")]
             (FileSender (video_path_of VIDEO_DIR a_mp4))
      /\ DateTime.strptime_rfc1123 "Fri, 01 Mar 999 12:00:00 GMT" = None).
Proof. vm_compute. repeat split. Qed.

(** C10 fails as stated: for the file name ["."] under the subfolder
    ["a.mp4"] the range [bytes=5-2] of the 10-byte file is answered 206
    with an empty body, and the empty blob is stored under
    ["a.mp4-5-2"], the name of the joined path; nothing is stored under
    [".-5-2"], the key made from the file name. *)
Lemma empty_blob_key_from_path_name :
  let req := request "." (Some "a.mp4") (Some "bytes=5-2") in
  let sv := serve VIDEO_DIR initial fs 0 fs 0 req in
  let cache := chunk_cache (sv_state sv) in
  status_of (sv_result sv) = 206
  /\ sv_stream sv = Yielded [[]]
  /\ filename req ++ "-" ++ Py.str_int 5 ++ "-" ++ Py.str_int 2 = ".-5-2"
  /\ TTLCache.find ".-5-2" cache = None
  /\ TTLCache.find "a.mp4-5-2" cache = Some (TTLCache.mkEntry "a.mp4-5-2" [] 60).
Proof. vm_compute. repeat split. Qed.

End Cases.

(** ** The theorems at work *)

Module Witnesses.
Import Scenario.

Lemma warm_reachable : reachable VIDEO_DIR warm.
Proof. apply reachable_serve, reach_initial. Qed.


Lemma conditional_idempotent_witness :
  let req := mkRequest "a.mp4" None None (Some a_tag) None in
  Forall not_modified
    (serve_all VIDEO_DIR warm [(fs, 1, req); (fs_rewritten, 100, req); (fs, 299, req)]).
Proof.
  intros req.
  destruct (conditional_idempotent VIDEO_DIR warm warm_reachable) as [Hrepeat _].
  apply (Hrepeat "a.mp4-None"
           (TTLCache.mkEntry "a.mp4-None" (mkMeta a_tag "2024-03-01T12:00:00" 10) 300)).
  - vm_compute. reflexivity.
  - repeat constructor.
Defined.


Lemma separator_rejected_witness :
  result (get_video VIDEO_DIR initial fs 0 (request "../a.mp4" None None))
  = HTTPException 400 "Invalid filename".
Proof.
  destruct (separator_rejected VIDEO_DIR initial fs 0 (request "../a.mp4" None None))
    as (_ & _ & Hcold).
  - reflexivity.
  - apply Hcold. reflexivity.
Defined.

Lemma if_modified_since_rule_witness :
  result (get_video VIDEO_DIR warm fs 10
            (mkRequest "a.mp4" None None None (Some "Fri, 01 Mar 2024 12:00:00 GMT")))
  = Response 304 [] NoBody
  /\ result (get_video VIDEO_DIR warm fs 10
               (mkRequest "a.mp4" None None None
                  (Some ("Fri," ++ String (ascii_of_nat 160) "01 Mar 2024 12:00:00 GMT"))))
     = Response 304 [] NoBody
  /\ result (get_video VIDEO_DIR warm fs 10
               (mkRequest "a.mp4" None None None (Some "yesterday")))
     = Unhandled "ValueError".
Proof.
  split; [|split].
  - destruct (if_modified_since_rule VIDEO_DIR warm fs 10
                (mkRequest "a.mp4" None None None (Some "Fri, 01 Mar 2024 12:00:00 GMT"))
                (mkMeta a_tag "2024-03-01T12:00:00" 10)) as (Hparsed & _).
    + vm_compute. reflexivity.
    + reflexivity.
    + apply (Hparsed "Fri, 01 Mar 2024 12:00:00 GMT" mtime mtime); reflexivity.
  - destruct (if_modified_since_rule VIDEO_DIR warm fs 10
                (mkRequest "a.mp4" None None None
                   (Some ("Fri," ++ String (ascii_of_nat 160) "01 Mar 2024 12:00:00 GMT")))
                (mkMeta a_tag "2024-03-01T12:00:00" 10)) as (Hparsed & _).
    + vm_compute. reflexivity.
    + reflexivity.
    + apply (Hparsed ("Fri," ++ String (ascii_of_nat 160) "01 Mar 2024 12:00:00 GMT")
               mtime mtime); reflexivity.
  - destruct (if_modified_since_rule VIDEO_DIR warm fs 10
                (mkRequest "a.mp4" None None None (Some "yesterday"))
                (mkMeta a_tag "2024-03-01T12:00:00" 10)) as (_ & Hbad & _).
    + vm_compute. reflexivity.
    + reflexivity.
    + apply (Hbad "yesterday"); [reflexivity|discriminate|reflexivity].
Defined.




Lemma repeated_range_witness :
  let first := serve VIDEO_DIR initial fs 0 fs 0 ranged in
  let second := serve VIDEO_DIR (sv_state first) fs_rewritten 59 fs_rewritten 59 ranged in
  sv_stream second = Yielded [bytes "2345"] /\ sv_body_trace second = [].
Proof.
  intros first second.
  destruct (repeated_range VIDEO_DIR initial fs 0 fs 0 fs_rewritten 59 fs_rewritten 59 ranged
              (range_headers 2 5 10) (range_headers 2 5 10)
              (video_path_of VIDEO_DIR ranged) 2 5 (bytes "2345"))
    as (en & _ & _ & Hexp & Hhit).
  - vm_compute. reflexivity.
  - vm_compute. reflexivity.
  - discriminate.
  - vm_compute. reflexivity.
  - vm_compute. reflexivity.
  - destruct Hhit as (_ & Hstream & Htrace).
    + rewrite Hexp by reflexivity. lia.
    + split; assumption.
Defined.

Lemma cross_subfolder_hit_witness :
  let first := serve VIDEO_DIR initial fs 0 fs 0 ranged in
  let second := serve VIDEO_DIR (sv_state first) fs 59 fs 59 ranged_sub in
  resolve fs (video_path_of VIDEO_DIR ranged_sub) = Some (File (bytes "KLMNOPQRST") mtime)
  /\ sv_stream second = Yielded [bytes "2345"] /\ sv_body_trace second = [].
Proof.
  intros first second. split; [reflexivity|].
  destruct (cross_subfolder_hit VIDEO_DIR initial fs 0 fs 0 fs 59 fs 59 ranged ranged_sub
              (range_headers 2 5 10) (range_headers 2 5 10) 2 5 (bytes "2345"))
    as (_ & _ & en & _ & _ & Hexp & Hhit).
  - reflexivity.
  - reflexivity.
  - discriminate.
  - discriminate.
  - vm_compute. reflexivity.
  - vm_compute. reflexivity.
  - discriminate.
  - vm_compute. reflexivity.
  - vm_compute. reflexivity.
  - destruct Hhit as (Hstream & Htrace).
    + rewrite Hexp by reflexivity. lia.
    + split; assumption.
Defined.

End Witnesses.

(** * Further properties of the endpoint *)

Section Endpoint.

Variable VIDEO_DIR : Path.t.

Import TTLCacheFacts KeyFacts DateTimeFacts SplitFacts.

Ltac endpoint_cases :=
  repeat match goal with
         | |- context [match ?x with _ => _ end] => destruct x eqn:?
         | |- context [if ?x then _ else _] => destruct x eqn:?
         end.

(** ** Containment *)

(** X1.  Whenever the handler answers with a response other than 304, the
    components of [VIDEO_DIR] head those of the joined path; when the
    joined path holds no [".."], it normalizes to [VIDEO_DIR] or below.
    The containment check is sound for every path without [".."],
    rooted subfolders included. *)
Theorem accepted_path_inside st fs now req status headers body :
  result (get_video VIDEO_DIR st fs now req) = Response status headers body ->
  status <> 304 ->
  let p := video_path_of VIDEO_DIR req in
  Path.relative_to_ok p VIDEO_DIR = true
  /\ (no_dotdot (Path.tail p) -> descendant VIDEO_DIR p = true).
Proof.
  intros Hres Hst p.
  pose proof (response_path_accepted VIDEO_DIR st fs now req status headers body Hres Hst) as Hrel.
  split; [exact Hrel|]. intros Hno. now apply accepted_without_dotdot_inside.
Qed.


(** ** What a request does to the caches *)

(** X3.  A request answered 304, 400 or 404 changes no binding of the
    metadata cache, neither value nor expiry, and leaves the chunk
    cache as it is: in particular a 304 does not renew the entry it
    was answered from. *)
Theorem refused_leaves_caches st fs now req :
  let o := get_video VIDEO_DIR st fs now req in
  status_of (result o) = 304 \/ status_of (result o) = 400 \/ status_of (result o) = 404 ->
  (forall k, TTLCache.find k (meta_cache (state o)) = TTLCache.find k (meta_cache st))
  /\ chunk_cache (state o) = chunk_cache st.
Proof.
  intros o Hstatus. split; [|apply get_video_chunk_cache].
  intros k. revert Hstatus. unfold o, get_video, respond.
  pose proof (find_get now (meta_key req) k (meta_cache st)) as Hfind.
  destruct (TTLCache.get now (meta_key req) (meta_cache st)) as [meta mc]. cbn [snd] in Hfind.
  endpoint_cases; cbn [result state status_of meta_cache]; intros Hstatus;
    try exact Hfind; exfalso; lia.
Qed.




(** ** The [Range] header *)




Lemma ranged_response_inv st fs now req status headers p s e :
  result (get_video VIDEO_DIR st fs now req)
  = Response status headers (FileSenderRange p s e) ->
  exists content mtime,
    p = video_path_of VIDEO_DIR req
    /\ resolve fs p = Some (File content mtime)
    /\ status = 206
    /\ 0 <= s < Z.of_nat (List.length content)
    /\ 0 <= e < Z.of_nat (List.length content)
    /\ headers = range_headers s e (Z.of_nat (List.length content)).
Proof.
  unfold get_video, respond, stat.
  destruct (TTLCache.get now (meta_key req) (meta_cache st)) as [meta mc].
  destruct (conditional meta req); cbn [result]; try discriminate.
  destruct (validate_filename (filename req)); cbn [result]; try discriminate.
  destruct (is_file fs (video_path_of VIDEO_DIR req)) as [[|]|]; cbn [result]; try discriminate.
  destruct (negb (Path.relative_to_ok (video_path_of VIDEO_DIR req) VIDEO_DIR));
    cbn [result]; try discriminate.
  destruct (resolve fs (video_path_of VIDEO_DIR req)) as [[content mtime|es|]|] eqn:Hres;
    cbn [result]; try discriminate.
  destruct (given (range req)) as [h|].
  - destruct (parse_range h (Z.of_nat (List.length content))) as [[s0 e0]|] eqn:Hparse;
      cbn [result]; try discriminate.
    destruct ((s0 >=? _) || (e0 >=? _)) eqn:Hcheck; cbn [result]; try discriminate.
    intros [= <- <- <- <- <-]. exists content, mtime.
    apply parse_range_nonneg in Hparse. destruct Hparse as [Hs He].
    apply orb_false_iff in Hcheck. destruct Hcheck as [H1 H2].
    rewrite Z.geb_leb in H1, H2. apply Z.leb_gt in H1, H2.
    repeat split; auto; lia.
  - destruct (DateTime.fromisoformat _); cbn [result]; discriminate.
Qed.

(** X7.  A ranged response is always a 206 for the joined path, which names
    a regular file, with both bounds inside that file (so [start] and
    [end] are offsets of bytes that exist) and the four headers
    computed from them. *)
Theorem ranged_response_in_bounds st fs now req status headers p s e :
  result (get_video VIDEO_DIR st fs now req)
  = Response status headers (FileSenderRange p s e) ->
  exists content mtime,
    p = video_path_of VIDEO_DIR req
    /\ resolve fs p = Some (File content mtime)
    /\ status = 206
    /\ 0 <= s < Z.of_nat (List.length content)
    /\ 0 <= e < Z.of_nat (List.length content)
    /\ headers = range_headers s e (Z.of_nat (List.length content)).
Proof. apply ranged_response_inv. Qed.


(** ** The body against the declared length *)

Lemma slice_length content s e :
  0 <= s -> s <= e ->
  Z.of_nat (List.length (slice content s e))
  = Z.max 0 (Z.min (e - s + 1) (Z.of_nat (List.length content) - s)).
Proof.
  intros Hs He. unfold slice. rewrite length_firstn, length_skipn. lia.
Qed.

(** X9.  For a 206 response with [start <= end] served on a chunk-cache
    miss, the body is one chunk whose length is the declared
    [Content-Length], [end - start + 1], when the file still has its
    byte [end] at the time the body is read, and is what is left of the
    file from [start] when the file has become shorter: the body is
    never longer than declared, and shorter exactly when the file
    ends before [end]. *)
Theorem body_length_declared st fs now fs' now' req status headers p s e content' mtime' :
  let sv := serve VIDEO_DIR st fs now fs' now' req in
  let cached := fst (TTLCache.get now' (chunk_key p s e) (chunk_cache st)) in
  sv_result sv = Response status headers (FileSenderRange p s e) ->
  s <= e ->
  cached = None \/ cached = Some [] ->
  resolve fs' p = Some (File content' mtime') ->
  exists blob,
    sv_stream sv = Yielded [blob]
    /\ In ("Content-Length", Py.str_int (e - s + 1)) headers
    /\ Z.of_nat (List.length blob)
       = Z.max 0 (Z.min (e - s + 1) (Z.of_nat (List.length content') - s))
    /\ (Z.of_nat (List.length blob) = e - s + 1 <-> e < Z.of_nat (List.length content')).
Proof.
  intros sv cached Hres Hle Hmiss Hfile. unfold sv, serve in *.
  pose proof (get_video_chunk_cache VIDEO_DIR st fs now req) as Hcc.
  destruct (result (get_video VIDEO_DIR st fs now req)) as [sc hs body| |] eqn:Ho;
    cbn [sv_result] in Hres; try discriminate.
  injection Hres as -> -> ->.
  destruct (ranged_response_inv _ _ _ _ _ _ _ _ _ Ho)
    as (content & mtime & _ & _ & _ & Hs & _ & ->).
  cbn [sv_stream send].
  assert (Hmiss' : fst (TTLCache.get now' (chunk_key p s e)
                          (chunk_cache (state (get_video VIDEO_DIR st fs now req)))) = None
                   \/ fst (TTLCache.get now' (chunk_key p s e)
                             (chunk_cache (state (get_video VIDEO_DIR st fs now req)))) = Some [])
    by (rewrite Hcc; exact Hmiss).
  destruct (range_miss _ fs' now' p s e content' mtime' Hmiss' Hfile) as [Hstream _]; [lia|].
  exists (slice content' s e). split; [exact Hstream|]. split; [cbn; auto|].
  rewrite slice_length by lia. split; [reflexivity|]. lia.
Qed.

Lemma whole_response_inv st fs now req status headers p :
  result (get_video VIDEO_DIR st fs now req) = Response status headers (FileSender p) ->
  exists content mtime,
    p = video_path_of VIDEO_DIR req
    /\ resolve fs p = Some (File content mtime)
    /\ status = 200
    /\ In ("Content-Length", Py.str_int (Z.of_nat (List.length content))) headers.
Proof.
  unfold get_video, respond, stat.
  destruct (TTLCache.get now (meta_key req) (meta_cache st)) as [meta mc].
  destruct (conditional meta req); cbn [result]; try discriminate.
  destruct (validate_filename (filename req)); cbn [result]; try discriminate.
  destruct (is_file fs (video_path_of VIDEO_DIR req)) as [[|]|]; cbn [result]; try discriminate.
  destruct (negb (Path.relative_to_ok (video_path_of VIDEO_DIR req) VIDEO_DIR));
    cbn [result]; try discriminate.
  destruct (resolve fs (video_path_of VIDEO_DIR req)) as [[content mtime|es|]|] eqn:Hres;
    cbn [result]; try discriminate.
  destruct (given (range req)) as [h|].
  - destruct (parse_range h (Z.of_nat (List.length content))) as [[s0 e0]|];
      cbn [result]; try discriminate.
    destruct ((s0 >=? _) || (e0 >=? _)); cbn [result]; discriminate.
  - destruct (DateTime.fromisoformat _); cbn [result]; try discriminate.
    intros [= <- <- <-]. exists content, mtime. repeat split; auto. cbn. auto.
Qed.

(** X10.  The body of a 200 is the file as it is when the body is produced:
    chunks of 1 to 65536 bytes that together are its content at that
    time, all of it, while [Content-Length] is the size the handler
    saw.  The two agree when the file has kept its length; the body is
    neither cut nor padded to the declared length, and the caches are
    left as the handler left them. *)
Theorem whole_body_is_current_file st fs now fs' now' req status headers p content' mtime' :
  let sv := serve VIDEO_DIR st fs now fs' now' req in
  sv_result sv = Response status headers (FileSender p) ->
  resolve fs' p = Some (File content' mtime') ->
  exists content mtime chunks,
    resolve fs p = Some (File content mtime)
    /\ status = 200
    /\ In ("Content-Length", Py.str_int (Z.of_nat (List.length content))) headers
    /\ sv_stream sv = Yielded chunks
    /\ List.concat chunks = content'
    /\ Forall (fun c => 1 <= Z.of_nat (List.length c) <= 65536) chunks
    /\ sv_state sv = state (get_video VIDEO_DIR st fs now req).
Proof.
  intros sv Hres Hfile. unfold sv, serve in *.
  destruct (result (get_video VIDEO_DIR st fs now req)) as [sc hs bd| |] eqn:Ho;
    cbn [sv_result] in Hres; try discriminate.
  injection Hres as -> -> ->.
  destruct (whole_response_inv _ _ _ _ _ _ _ Ho) as (content & mtime & _ & Hold & -> & Hlen).
  exists content, mtime. cbn [sv_stream sv_state send]. unfold file_sender.
  rewrite (open_rb_file _ _ _ _ Hfile). cbn [h_data].
  destruct (file_sender_loop_spec (S (List.length content')) content' 0)
    as (chunks & tr & Hrun & Hcat & Hall & _); [lia|].
  rewrite Hrun. cbn [stream state_after]. exists chunks. repeat split; assumption.
Qed.

Lemma response_body st fs now req status headers body :
  result (get_video VIDEO_DIR st fs now req) = Response status headers body ->
  status <> 304 ->
  (status = 200 /\ body = FileSender (video_path_of VIDEO_DIR req))
  \/ (status = 206 /\ exists s e, body = FileSenderRange (video_path_of VIDEO_DIR req) s e).
Proof.
  unfold get_video, respond. endpoint_cases; cbn [result]; try discriminate;
    intros [= <- <- <-] Hst; try contradiction; [right|left]; eauto.
Qed.

(** X11.  The status and the headers are fixed before the file is opened.
    When the file can no longer be opened by the time the body is
    produced, the response is still a 200 or a 206 and its body fails
    on the attempt to open, with one exception: a range whose bytes are
    in the chunk cache is served from there, the file not even
    looked for. *)
Theorem file_gone_before_body st fs now fs' now' req status headers body :
  let sv := serve VIDEO_DIR st fs now fs' now' req in
  let p := video_path_of VIDEO_DIR req in
  sv_result sv = Response status headers body ->
  status <> 304 ->
  open_rb fs' p = None ->
  match body with
  | NoBody => False
  | FileSender q =>
      status = 200 /\ q = p
      /\ sv_stream sv = Raised "OSError" /\ sv_body_trace sv = [OpOpen p]
  | FileSenderRange q s e =>
      status = 206 /\ q = p
      /\ match fst (TTLCache.get now' (chunk_key p s e) (chunk_cache st)) with
         | Some (b :: bs) => sv_stream sv = Yielded [b :: bs] /\ sv_body_trace sv = []
         | _ => sv_stream sv = Raised "OSError" /\ sv_body_trace sv = [OpOpen p]
         end
  end.
Proof.
  intros sv p Hres Hst Hopen. unfold sv, serve in *.
  pose proof (get_video_chunk_cache VIDEO_DIR st fs now req) as Hcc.
  destruct (result (get_video VIDEO_DIR st fs now req)) as [sc hs bd| |] eqn:Ho;
    cbn [sv_result] in Hres; try discriminate.
  injection Hres as -> -> ->.
  destruct (response_body _ _ _ _ _ _ _ Ho Hst) as [(-> & ->) | (-> & s & e & ->)];
    fold p; cbn [sv_stream sv_body_trace send].
  - unfold file_sender. rewrite Hopen. auto.
  - unfold file_sender_range. rewrite Hcc.
    destruct (TTLCache.get now' (chunk_key p s e) (chunk_cache st)) as [cached cc].
    cbn [fst]. destruct cached as [[|b bs]|]; rewrite ?Hopen; auto.
Qed.

(** ** Dates echoed by the client *)

Lemma lex_compare_refl l : DateTime.lex_compare l l = Eq.
Proof. induction l as [|x l IH]; cbn; [reflexivity|]. now rewrite Z.compare_refl. Qed.





(** ** The size of the caches *)

Lemma length_delete_le {V} k (c : TTLCache.t V) :
  (List.length (TTLCache.delete k c) <= List.length c)%nat.
Proof.
  unfold TTLCache.delete. induction c as [|x c IH]; cbn; [lia|].
  destruct (negb _); cbn; lia.
Qed.

Lemma length_delete_found {V} k (c : TTLCache.t V) e :
  TTLCache.find k c = Some e ->
  (List.length (TTLCache.delete k c) < List.length c)%nat.
Proof.
  unfold TTLCache.find, TTLCache.delete. induction c as [|x c IH]; cbn; [discriminate|].
  destruct (String.eqb (TTLCache.key x) k); cbn.
  - intros _. pose proof (length_delete_le k c) as H. unfold TTLCache.delete in H. lia.
  - intros H. specialize (IH H). lia.
Qed.

Lemma length_expire_le {V} now (c : TTLCache.t V) :
  (List.length (TTLCache.expire now c) <= List.length c)%nat.
Proof.
  unfold TTLCache.expire. induction c as [|x c IH]; cbn; [lia|].
  destruct (now <? _); cbn; lia.
Qed.

(** A look-up never makes the cache longer. *)
Lemma length_get_le {V} now k (c : TTLCache.t V) :
  (List.length (snd (TTLCache.get now k c)) <= List.length c)%nat.
Proof.
  unfold TTLCache.get. destruct (TTLCache.find k c) as [e|] eqn:Hf; cbn [snd]; [|lia].
  destruct (now <? TTLCache.expires e); cbn [snd]; [|lia].
  rewrite length_app. cbn [List.length]. pose proof (length_delete_found k c e Hf). lia.
Qed.

(** A store keeps the cache within its capacity. *)
Lemma length_setitem_le {V} pr now k (v : V) (c : TTLCache.t V) :
  (1 <= TTLCache.maxsize pr)%nat ->
  (List.length c <= TTLCache.maxsize pr)%nat ->
  (List.length (TTLCache.setitem pr now k v c) <= TTLCache.maxsize pr)%nat.
Proof.
  intros Hpos Hlen. unfold TTLCache.setitem.
  pose proof (length_expire_le now c) as Hexp.
  rewrite length_app. cbn [List.length].
  destruct (TTLCache.find k (TTLCache.expire now c)) as [e|] eqn:Hf.
  - pose proof (length_delete_found k _ e Hf). lia.
  - pose proof (length_delete_le k
      (skipn (List.length (TTLCache.expire now c) + 1 - TTLCache.maxsize pr)
             (TTLCache.expire now c))) as Hd.
    rewrite length_skipn in Hd. lia.
Qed.

Lemma get_video_meta_length st fs now req :
  (List.length (meta_cache st) <= 50)%nat ->
  (List.length (meta_cache (state (get_video VIDEO_DIR st fs now req))) <= 50)%nat.
Proof.
  intros H.
  pose proof (length_get_le now (meta_key req) (meta_cache st)) as Hg.
  unfold get_video, respond.
  destruct (TTLCache.get now (meta_key req) (meta_cache st)) as [meta mc]. cbn [snd] in Hg.
  endpoint_cases; cbn [state meta_cache]; try lia;
    apply (length_setitem_le VIDEO_META_CACHE); cbn [VIDEO_META_CACHE TTLCache.maxsize]; lia.
Qed.

Lemma file_sender_range_chunks st fs now p s e :
  (List.length (chunk_cache st) <= 25)%nat ->
  Forall (fun en => Z.of_nat (List.length (TTLCache.value en)) < 1024 * 1024) (chunk_cache st) ->
  let st' := state_after (file_sender_range st fs now p s e) in
  (List.length (chunk_cache st') <= 25)%nat
  /\ Forall (fun en => Z.of_nat (List.length (TTLCache.value en)) < 1024 * 1024) (chunk_cache st').
Proof.
  intros Hlen Hall st'. unfold st', file_sender_range.
  pose proof (length_get_le now (chunk_key p s e) (chunk_cache st)) as Hg.
  pose proof (Forall_get _ now (chunk_key p s e) _ Hall) as Hga.
  destruct (TTLCache.get now (chunk_key p s e) (chunk_cache st)) as [cached cc].
  cbn [snd] in Hg, Hga.
  endpoint_cases; cbn [state_after chunk_cache]; (split; [try lia|try assumption]).
  all: try (apply (length_setitem_le CHUNK_CACHE); cbn [CHUNK_CACHE TTLCache.maxsize]; lia).
  all: apply Forall_setitem; [assumption|]; cbn [TTLCache.value]; now apply Z.ltb_lt.
Qed.

Lemma serve_bounded st fs now fs' now' req :
  (List.length (meta_cache st) <= 50)%nat ->
  (List.length (chunk_cache st) <= 25)%nat ->
  Forall (fun en => Z.of_nat (List.length (TTLCache.value en)) < 1024 * 1024) (chunk_cache st) ->
  let st' := sv_state (serve VIDEO_DIR st fs now fs' now' req) in
  (List.length (meta_cache st') <= 50)%nat
  /\ (List.length (chunk_cache st') <= 25)%nat
  /\ Forall (fun en => Z.of_nat (List.length (TTLCache.value en)) < 1024 * 1024) (chunk_cache st').
Proof.
  intros Hm Hc Hall st'. unfold st', serve.
  pose proof (get_video_meta_length st fs now req Hm) as Hm1.
  pose proof (get_video_chunk_cache VIDEO_DIR st fs now req) as Hc1.
  set (o := get_video VIDEO_DIR st fs now req) in *.
  assert (Hbase : (List.length (chunk_cache (state o)) <= 25)%nat
                  /\ Forall (fun en => Z.of_nat (List.length (TTLCache.value en)) < 1024 * 1024)
                       (chunk_cache (state o))) by (rewrite Hc1; auto).
  destruct Hbase as [Hc2 Hall2].
  destruct (result o) as [sc hs body| |]; cbn [sv_state]; [|auto|auto].
  destruct body as [|p|p s e]; cbn [send state_after].
  - auto.
  - rewrite file_sender_state. auto.
  - rewrite file_sender_range_meta. split; [exact Hm1|].
    apply file_sender_range_chunks; assumption.
Qed.

Lemma run_bounded steps : forall st,
  (List.length (meta_cache st) <= 50)%nat ->
  (List.length (chunk_cache st) <= 25)%nat ->
  Forall (fun en => Z.of_nat (List.length (TTLCache.value en)) < 1024 * 1024) (chunk_cache st) ->
  let st' := run VIDEO_DIR st steps in
  (List.length (meta_cache st') <= 50)%nat
  /\ (List.length (chunk_cache st') <= 25)%nat
  /\ Forall (fun en => Z.of_nat (List.length (TTLCache.value en)) < 1024 * 1024) (chunk_cache st').
Proof.
  induction steps as [|[[[[fs now] fs'] now'] req] rest IH]; intros st Hm Hc Hall; cbn [run].
  - auto.
  - destruct (serve_bounded st fs now fs' now' req Hm Hc Hall) as (Hm' & Hc' & Hall').
    apply IH; assumption.
Qed.

Lemma sum_bounded (c : TTLCache.t (list byte)) :
  Forall (fun en => Z.of_nat (List.length (TTLCache.value en)) < 1024 * 1024) c ->
  fold_right (fun en acc => Z.of_nat (List.length (TTLCache.value en)) + acc) 0 c
  <= Z.of_nat (List.length c) * (1024 * 1024 - 1).
Proof.
  induction 1 as [|en c Hen _ IH]; cbn [fold_right List.length]; [lia|].
  rewrite Nat2Z.inj_succ. lia.
Qed.

(** X13.  However many requests are served one after the other from empty
    caches, whatever the file systems, the clocks and the requests, the
    metadata cache never holds more than 50 entries, the chunk cache
    never more than 25, every cached blob is shorter than 1 MiB, and
    the chunk cache therefore holds less than 25 MiB. *)
Theorem caches_bounded steps :
  let st := run VIDEO_DIR initial steps in
  (List.length (meta_cache st) <= 50)%nat
  /\ (List.length (chunk_cache st) <= 25)%nat
  /\ Forall (fun en => Z.of_nat (List.length (TTLCache.value en)) < 1024 * 1024) (chunk_cache st)
  /\ cached_bytes st < 25 * (1024 * 1024).
Proof.
  intros st.
  destruct (run_bounded steps initial) as (Hm & Hc & Hall);
    [cbn; lia | cbn; lia | constructor |].
  fold st in Hm, Hc, Hall. repeat (split; [assumption|]).
  unfold cached_bytes. pose proof (sum_bounded _ Hall) as Hsum. nia.
Qed.

End Endpoint.

(** * The speech-to-text endpoints *)

Module STTFacts.
Import STT.

(** ** Dictionaries *)

Section Dicts.
Context {V : Type}.
Implicit Types (d : Dict.t V) (k : string) (v : V).

Lemma get_set_same k v d : Dict.get k (Dict.set k v d) = Some v.
Proof.
  induction d as [|[k' v'] d IH]; cbn.
  - now rewrite String.eqb_refl.
  - destruct (String.eqb k' k) eqn:E; cbn; rewrite E; auto.
Qed.

Lemma get_set_other k k' v d : k' <> k -> Dict.get k' (Dict.set k v d) = Dict.get k' d.
Proof.
  intros Hne. induction d as [|[k0 v0] d IH]; cbn.
  - apply String.eqb_neq in Hne. rewrite String.eqb_sym. now rewrite Hne.
  - destruct (String.eqb k0 k) eqn:E; cbn.
    + apply String.eqb_eq in E. subst k0.
      assert (H : String.eqb k k' = false) by (apply String.eqb_neq; congruence).
      now rewrite H.
    + now rewrite IH.
Qed.

Lemma get_del_other k k' d : k' <> k -> Dict.get k' (Dict.del k d) = Dict.get k' d.
Proof.
  intros Hne. induction d as [|[k0 v0] d IH]; cbn; [reflexivity|].
  destruct (String.eqb k0 k) eqn:E; cbn.
  - apply String.eqb_eq in E. subst k0.
    assert (H : String.eqb k k' = false) by (apply String.eqb_neq; congruence).
    now rewrite H.
  - now rewrite IH.
Qed.

Lemma get_none_not_in k d : Dict.get k d = None -> ~ In k (map fst d).
Proof.
  induction d as [|[k0 v0] d IH]; cbn; [tauto|].
  destruct (String.eqb k0 k) eqn:E; [discriminate|].
  apply String.eqb_neq in E. intros H [H'|H']; [congruence|]. now apply IH.
Qed.

Lemma not_in_get_none k d : ~ In k (map fst d) -> Dict.get k d = None.
Proof.
  induction d as [|[k0 v0] d IH]; cbn; [reflexivity|].
  intros H. destruct (String.eqb_spec k0 k) as [->|Hne]; [tauto|]. apply IH. tauto.
Qed.

Lemma get_del_same k d : NoDup (map fst d) -> Dict.get k (Dict.del k d) = None.
Proof.
  induction d as [|[k0 v0] d IH]; cbn; [reflexivity|].
  intros Hnd. inversion Hnd as [|? ? Hnot Hnd']; subst.
  destruct (String.eqb_spec k0 k) as [->|Hne].
  - now apply not_in_get_none.
  - cbn. apply String.eqb_neq in Hne. rewrite Hne. auto.
Qed.

Lemma get_In k v d : Dict.get k d = Some v -> In (k, v) d.
Proof.
  induction d as [|[k0 v0] d IH]; cbn; [discriminate|].
  destruct (String.eqb_spec k0 k) as [->|Hne].
  - intros [= ->]. now left.
  - intros H. right. auto.
Qed.

Lemma In_set k v d x : In x (Dict.set k v d) -> x = (k, v) \/ In x d.
Proof.
  induction d as [|[k0 v0] d IH]; cbn.
  - intros [<-|[]]. now left.
  - destruct (String.eqb_spec k0 k) as [->|Hne]; cbn.
    + intros [<-|H]; auto.
    + intros [<-|H]; auto. destruct (IH H); auto.
Qed.

Lemma In_del k d x : In x (Dict.del k d) -> In x d.
Proof.
  induction d as [|[k0 v0] d IH]; cbn; [tauto|].
  destruct (String.eqb k0 k); cbn; [auto|]. intros [<-|H]; auto.
Qed.

Lemma keys_set k v d :
  map fst (Dict.set k v d)
  = if existsb (String.eqb k) (map fst d) then map fst d else (map fst d ++ [k])%list.
Proof.
  induction d as [|[k0 v0] d IH]; cbn; [reflexivity|].
  rewrite (String.eqb_sym k k0). destruct (String.eqb k0 k) eqn:E; cbn.
  - apply String.eqb_eq in E. now subst.
  - rewrite IH. now destruct (existsb _ _).
Qed.

Lemma NoDup_set k v d : NoDup (map fst d) -> NoDup (map fst (Dict.set k v d)).
Proof.
  intros Hnd. rewrite keys_set.
  destruct (existsb (String.eqb k) (map fst d)) eqn:E; [assumption|].
  apply NoDup_app; [assumption | repeat constructor; cbn; tauto |].
  intros x Hin [Hx|[]]. subst x.
  assert (H : existsb (String.eqb k) (map fst d) = true).
  { apply existsb_exists. exists k. split; [assumption | apply String.eqb_refl]. }
  congruence.
Qed.

Lemma NoDup_del k d : NoDup (map fst d) -> NoDup (map fst (Dict.del k d)).
Proof.
  induction d as [|[k0 v0] d IH]; cbn; [auto|].
  intros Hnd. inversion Hnd as [|? ? Hnot Hnd']; subst.
  destruct (String.eqb k0 k); cbn; [assumption|].
  constructor; [|auto].
  intros Hin. apply Hnot. apply in_map_iff in Hin. destruct Hin as (x & Hx & Hin).
  apply in_map_iff. exists x. split; [assumption|]. eapply In_del; eauto.
Qed.

End Dicts.

(** ** The run of [transcribe_audio] inside [process_stt_task] *)

(** The configuration of a task has no key ["model"]. *)
Lemma user_config_no_model task : Dict.get "model" (user_config_of task) = None.
Proof. reflexivity. Qed.

Lemma transcribe_without_model engine cuda uc config exists_ path :
  Dict.get "model" config = None ->
  transcribe_audio engine true cuda uc exists_ path (Some config)
  = if exists_
    then inr ([(VFloat "0.1", "正在加载模型..."); (VInt 0, "转录失败: 'model'")],
              Failure "'model'")
    else inl (FileNotFoundError ("Audio file not found: " ++ path)).
Proof.
  intros Hget. unfold transcribe_audio. cbn [negb].
  destruct exists_; cbn [negb]; [|reflexivity].
  unfold transcribe_body, item. rewrite Hget. reflexivity.
Qed.

(** What [process_stt_task] does for a task of the table that is not
    being processed. *)
Lemma process_known env tasks task_id task :
  Dict.get task_id tasks = Some task ->
  status task <> "processing" ->
  let data := [("task_id", VStr task_id)] in
  let failed msg t := set_error (VStr msg) (set_status "error" t) in
  let started :=
    set_message "开始处理..." (set_progress (VFloat "0.1") (set_status "processing" task)) in
  let path := file_path task in
  process_stt_task env tasks task_id
  = match project_imports env with
    | ImportError =>
        mkHandled (JSONResponse (body 1 "STT依赖未安装" data))
                  (Dict.set task_id (failed "STT依赖未安装" task) tasks) []
    | ImportRaises e =>
        mkHandled (HTTP500 (Exc e)) (Dict.set task_id (failed (str e) task) tasks) []
    | Imported =>
        match faster_whisper env with
        | ImportRaises e =>
            mkHandled (HTTP500 (Exc e)) (Dict.set task_id (failed (str e) task) tasks) []
        | ImportError =>
            mkHandled (JSONResponse (body 1 "STT功能不可用" data))
                      (Dict.set task_id (failed "STT功能不可用" task) tasks) []
        | Imported =>
            if audio_exists env
            then mkHandled (JSONResponse (body 0 "处理已开始" data))
                   (Dict.set task_id
                      (set_message "处理失败: 'model'"
                         (failed "'model'"
                            (set_message "转录失败: 'model'" (set_progress (VInt 0) started))))
                      tasks)
                   [OpExists path]
            else mkHandled
                   (HTTP500 (Exc (FileNotFoundError ("Audio file not found: " ++ path))))
                   (Dict.set task_id
                      (failed ("Audio file not found: " ++ path) started) tasks)
                   [OpExists path]
        end
    end.
Proof.
  intros Hget Hst data failed started path.
  unfold process_stt_task. rewrite Hget.
  apply String.eqb_neq in Hst. rewrite Hst.
  destruct (project_imports env); try reflexivity.
  destruct (faster_whisper env); cbn [initialize]; try reflexivity.
  cbv zeta.
  change (file_path (set_message "开始处理..."
            (set_progress (VFloat "0.1") (set_status "processing" task))))
    with (file_path task).
  change (Dict.update _ get_default_config) with (user_config_of task).
  rewrite transcribe_without_model by apply user_config_no_model.
  subst path. destruct (audio_exists env); reflexivity.
Qed.

End STTFacts.

Section SpeechEndpoints.
Import STT STTFacts.

(** ** Unknown tasks *)

(** X14.  For a task that is not in the table, the four endpoints that take
    a task id raise the 404 inside their own [try], whose
    [except Exception] turns it into a 500: the client never sees the
    404.  The table is left as it is and no file is touched. *)
Theorem unknown_task_is_500 env file_exists tasks task_id :
  Dict.get task_id tasks = None ->
  Forall (fun h => reply h = HTTP500 (Http 404 "Task not found")
                   /\ status_code_of (reply h) = 500
                   /\ tasks_after h = tasks
                   /\ file_ops h = [])
         [process_stt_task env tasks task_id;
          get_stt_task_status tasks task_id;
          download_stt_result tasks task_id;
          delete_stt_task file_exists tasks task_id].
Proof.
  intros Hget.
  unfold process_stt_task, get_stt_task_status, download_stt_result, delete_stt_task.
  rewrite Hget. repeat constructor.
Qed.

(** ** Upload *)

Lemma existsb_In x l : existsb (String.eqb x) l = true <-> In x l.
Proof.
  rewrite existsb_exists. split.
  - intros (y & Hin & E). apply String.eqb_eq in E. now subst.
  - intros Hin. exists x. split; [assumption | apply String.eqb_refl].
Qed.

Lemma upload_all_or_nothing_cases tasks file_name language model response_format
    task_id temp read write :
  let h := upload_audio_for_stt tasks file_name language model response_format
                                task_id temp read write in
  (status_code_of (reply h) = 500 /\ tasks_after h = tasks
   /\ (file_ops h = []
       \/ exists path, temp = TempFile path
                       /\ (file_ops h = [OpCreate path]
                           \/ exists content, file_ops h = [OpCreate path; OpWrite path content])))
  \/ (exists name path content,
        file_name = Some name /\ name <> "" /\ temp = TempFile path
        /\ read = inr content /\ write = None
        /\ In (lower (suffix (Path.parse name))) supported_extensions
        /\ reply h = JSONResponse
                       (body 0 "文件上传成功"
                          [("task_id", VStr task_id);
                           ("filename", VStr name);
                           ("file_size", VInt (Z.of_nat (List.length content)))])
        /\ file_ops h = [OpCreate path; OpWrite path content]
        /\ Dict.get task_id (tasks_after h)
           = Some (mkTask "uploaded" (VInt 0) "文件上传成功" path name
                          (mkConfig language model response_format) VNone VNone)
        /\ forall id, id <> task_id -> Dict.get id (tasks_after h) = Dict.get id tasks).
Proof.
  intros h. unfold h, upload_audio_for_stt.
  destruct file_name as [name|]; [|left; repeat split; now left].
  destruct (String.eqb_spec name "") as [->|Hname]; [left; repeat split; now left|].
  destruct (existsb (String.eqb (lower (suffix (Path.parse name)))) supported_extensions)
    eqn:Hext; cbn [negb]; [|left; repeat split; now left].
  destruct temp as [path|e]; [|left; repeat split; now left].
  destruct read as [e|content].
  { left. repeat split. right. exists path. split; [reflexivity|]. now left. }
  destruct write as [e|].
  { left. repeat split. right. exists path. split; [reflexivity|]. right. now exists content. }
  right. exists name, path, content. cbn [answer_plain reply tasks_after file_ops].
  repeat split; try assumption.
  - now apply existsb_In.
  - apply get_set_same.
  - intros id Hid. now apply get_set_other.
Qed.

(** X15.  An upload either fails or succeeds as a whole.  When it fails the
    answer is a 500 and the table is unchanged; if the failure comes
    after the temporary file was created (the read or the write
    raised), that file stays behind, known to no task.  When it
    succeeds the file has a name whose lower-cased suffix is one of the
    ten supported ones, the content read is written to the temporary
    file, the reply gives the number of bytes, the task is stored as
    ["uploaded"] under the id drawn, and no other task changes. *)
Theorem upload_all_or_nothing tasks file_name language model response_format
    task_id temp read write :
  let h := upload_audio_for_stt tasks file_name language model response_format
                                task_id temp read write in
  (status_code_of (reply h) = 500 /\ tasks_after h = tasks
   /\ (file_ops h = []
       \/ exists path, temp = TempFile path
                       /\ (file_ops h = [OpCreate path]
                           \/ exists content, file_ops h = [OpCreate path; OpWrite path content])))
  \/ (exists name path content,
        file_name = Some name /\ name <> "" /\ temp = TempFile path
        /\ read = inr content /\ write = None
        /\ In (lower (suffix (Path.parse name))) supported_extensions
        /\ reply h = JSONResponse
                       (body 0 "文件上传成功"
                          [("task_id", VStr task_id);
                           ("filename", VStr name);
                           ("file_size", VInt (Z.of_nat (List.length content)))])
        /\ file_ops h = [OpCreate path; OpWrite path content]
        /\ Dict.get task_id (tasks_after h)
           = Some (mkTask "uploaded" (VInt 0) "文件上传成功" path name
                          (mkConfig language model response_format) VNone VNone)
        /\ forall id, id <> task_id -> Dict.get id (tasks_after h) = Dict.get id tasks).
Proof. apply upload_all_or_nothing_cases. Qed.

(** X16.  After an upload that succeeded, the status endpoint reports the
    task as ["uploaded"], with progress 0, the name of the file, no
    result and no error, and changes nothing. *)
Theorem upload_then_status tasks name language model response_format task_id temp
    read write :
  let h := upload_audio_for_stt tasks (Some name) language model response_format
                                task_id temp read write in
  status_code_of (reply h) = 200 ->
  get_stt_task_status (tasks_after h) task_id
  = mkHandled
      (JSONResponse
         (body 0 "获取状态成功"
            [("task_id", VStr task_id);
             ("status", VStr "uploaded");
             ("progress", VInt 0);
             ("message", VStr "文件上传成功");
             ("filename", VStr name);
             ("result", VNone);
             ("error", VNone)]))
      (tasks_after h) [].
Proof.
  intros h Hok.
  destruct (upload_all_or_nothing_cases tasks (Some name) language model
              response_format task_id temp read write)
    as [(H500 & _) | (name' & path & content & Hn & _ & _ & _ & _ & _ & _ & _ & Hget & _)].
  - fold h in H500. congruence.
  - injection Hn as <-. fold h in Hget.
    unfold get_stt_task_status. rewrite Hget. reflexivity.
Qed.

(** ** Processing *)

(** X17.  With a configuration that has no key ["model"], such as the one
    [process_stt_task] passes, [transcribe_audio] on an existing file
    reports "loading the model", fails on [config["model"]] before any
    model is loaded, reports the failure with progress 0 and returns
    the error ['model'].  Called without a configuration it builds one
    with [get_stt_config] and reaches the engine, with the model of the
    task on the CPU when the task's settings are the user's. *)
Theorem transcribe_config_keys eng cuda task path e :
  let uc := user_config_of task in
  transcribe_audio eng true cuda uc true path (Some uc)
  = inr ([(VFloat "0.1", "正在加载模型..."); (VInt 0, "转录失败: 'model'")], Failure "'model'")
  /\ (load eng (VStr (model (config task))) (VStr "cpu") "float32" = Some e ->
      transcribe_audio eng true cuda uc true path None
      = inr ([(VFloat "0.1", "正在加载模型..."); (VInt 0, "转录失败: " ++ str e)],
             Failure (str e))).
Proof.
  intros uc. split.
  - apply (transcribe_without_model eng cuda uc uc true path). apply user_config_no_model.
  - intros Hload. unfold transcribe_audio, transcribe_body. cbn [negb].
    change (item "model" (get_stt_config uc true cuda)) with (@inr Exn _ (VStr (model (config task)))).
    change (item "device" (get_stt_config uc true cuda)) with (@inr Exn _ (VStr "cpu")).
    cbn [bind eq_str]. change (String.eqb "cpu" "cpu") with true. cbv iota.
    rewrite Hload. reflexivity.
Qed.

Lemma process_task_after env tasks task_id task :
  Dict.get task_id tasks = Some task ->
  status task <> "processing" ->
  let h := process_stt_task env tasks task_id in
  exists task',
    tasks_after h = Dict.set task_id task' tasks
    /\ status task' = "error"
    /\ result task' = result task
    /\ (progress task' = progress task \/ progress task' = VInt 0
        \/ progress task' = VFloat "0.1")
    /\ (exists s, error task' = VStr s)
    /\ (reply h = JSONResponse (body 0 "处理已开始" [("task_id", VStr task_id)]) ->
        error task' = VStr "'model'" /\ message task' = "处理失败: 'model'"
        /\ progress task' = VInt 0).
Proof.
  intros Hget Hst h. unfold h. rewrite (process_known env tasks task_id task Hget Hst).
  destruct (project_imports env) as [| |e];
    [destruct (faster_whisper env) as [| |e];
       [destruct (audio_exists env)| |]| |];
    (eexists; split; [reflexivity|]; cbn;
     repeat split; eauto; try (unfold body in *; congruence)).
Qed.

(** X18.  Processing a task of the table that is not marked ["processing"]
    always leaves it in error, whatever is installed and whatever the
    engine would do; its result is untouched and no other task
    changes.  The reply is the code 0 "started" exactly when the
    imports succeed and the file of the task exists, and then the error recorded
    is ['model']: the transcription never ran. *)
Theorem process_leaves_error env tasks task_id task :
  Dict.get task_id tasks = Some task ->
  status task <> "processing" ->
  let h := process_stt_task env tasks task_id in
  let started := JSONResponse (body 0 "处理已开始" [("task_id", VStr task_id)]) in
  (exists task',
     Dict.get task_id (tasks_after h) = Some task'
     /\ status task' = "error"
     /\ result task' = result task
     /\ (exists s, error task' = VStr s)
     /\ (reply h = started -> error task' = VStr "'model'"))
  /\ (reply h = started <->
      project_imports env = Imported /\ faster_whisper env = Imported
      /\ audio_exists env = true)
  /\ (forall id, id <> task_id -> Dict.get id (tasks_after h) = Dict.get id tasks).
Proof.
  intros Hget Hst h started.
  destruct (process_task_after env tasks task_id task Hget Hst)
    as (task' & Hafter & Hstatus & Hresult & _ & Herr & Hmodel).
  fold h in Hafter, Hmodel. split; [|split].
  - exists task'. rewrite Hafter, get_set_same. repeat split; auto.
    intros Hr. now apply Hmodel.
  - unfold h, started. rewrite (process_known env tasks task_id task Hget Hst).
    destruct (project_imports env) as [| |e]; cbn [reply];
      [|split; [discriminate | intros (H & _); discriminate]
       |split; [discriminate | intros (H & _); discriminate]].
    destruct (faster_whisper env) as [| |e]; cbn [reply];
      [|split; [discriminate | intros (_ & H & _); discriminate]
       |split; [discriminate | intros (_ & H & _); discriminate]].
    destruct (audio_exists env); cbn [reply].
    + split; auto.
    + split; [discriminate | intros (_ & _ & H); discriminate].
  - intros id Hid. rewrite Hafter. now apply get_set_other.
Qed.

(** ** What a run of the endpoints can reach *)

Lemma serve_calls_snoc calls c :
  serve_calls (calls ++ [c]) = tasks_after (handle (serve_calls calls) c).
Proof. unfold serve_calls. now rewrite fold_left_app. Qed.

Lemma pending_not_processing t : pending t -> status t <> "processing".
Proof. intros ([E|E] & _); rewrite E; discriminate. Qed.

Lemma pending_not_completed t : pending t -> status t <> "completed".
Proof. intros ([E|E] & _); rewrite E; discriminate. Qed.

Lemma Forall_set (P : Task -> Prop) k v (d : Tasks) :
  Forall (fun kv => P (snd kv)) d -> P v -> Forall (fun kv => P (snd kv)) (Dict.set k v d).
Proof.
  rewrite !Forall_forall. intros H Hv x Hin.
  apply In_set in Hin. destruct Hin as [->|Hin]; auto.
Qed.

Lemma handle_keeps tasks c :
  NoDup (map fst tasks) /\ Forall (fun kv => pending (snd kv)) tasks ->
  let tasks' := tasks_after (handle tasks c) in
  NoDup (map fst tasks') /\ Forall (fun kv => pending (snd kv)) tasks'.
Proof.
  intros [Hnd Hall] tasks'. unfold tasks'.
  destruct c as [file_name language model response_format task_id temp read write
                |env task_id|task_id|task_id|file_exists task_id]; cbn [handle].
  - destruct (upload_all_or_nothing_cases tasks file_name language model
                response_format task_id temp read write)
      as [(_ & -> & _) | (name & path & content & -> & Hname & -> & -> & -> & Hext & _)];
      [auto|].
    unfold upload_audio_for_stt.
    apply String.eqb_neq in Hname. rewrite Hname.
    apply existsb_In in Hext. rewrite Hext. cbn [negb answer_plain tasks_after].
    split; [now apply NoDup_set|].
    apply Forall_set; [assumption|].
    cbn. repeat split; auto.
  - destruct (Dict.get task_id tasks) as [task|] eqn:Hget.
    + assert (Hp : pending task).
      { apply get_In in Hget. rewrite Forall_forall in Hall. exact (Hall _ Hget). }
      destruct (process_task_after env tasks task_id task Hget (pending_not_processing _ Hp))
        as (task' & -> & Hstatus & Hresult & Hprog & Herr & _).
      split; [now apply NoDup_set|].
      apply Forall_set; [assumption|].
      destruct Hp as (_ & Hr & Hpr & _).
      repeat split; auto; [congruence|].
      destruct Hprog as [E|[E|E]]; rewrite E; auto.
    + unfold process_stt_task. rewrite Hget. auto.
  - unfold get_stt_task_status, answer.
    destruct (Dict.get task_id tasks); [|auto].
    destruct (json_response _); auto.
  - unfold download_stt_result.
    destruct (Dict.get task_id tasks) as [task|]; [|auto].
    destruct (negb _); [auto|]. destruct (negb _); [auto|].
    destruct (if String.eqb _ _ then _ else _) as [content media].
    destruct content; auto. destruct (is_latin1 _); auto.
  - unfold delete_stt_task.
    destruct (Dict.get task_id tasks) as [task|]; [|auto].
    cbn [answer_plain tasks_after]. split; [now apply NoDup_del|].
    rewrite Forall_forall in *. intros x Hin. apply Hall. eapply In_del; eauto.
Qed.

Lemma serve_calls_keeps calls :
  NoDup (map fst (serve_calls calls))
  /\ Forall (fun kv => pending (snd kv)) (serve_calls calls).
Proof.
  induction calls as [|c calls IH] using rev_ind.
  - split; constructor.
  - rewrite serve_calls_snoc. now apply handle_keeps.
Qed.

(** X19.  Whatever calls are made to the five endpoints, starting from the
    empty table, every task in the table is ["uploaded"] or in
    ["error"], has no result, and its progress is 0 or 0.1: no task is
    ever ["completed"] or left ["processing"]. *)
Theorem tasks_stay_pending calls :
  Forall (fun kv => pending (snd kv)) (serve_calls calls).
Proof. apply serve_calls_keeps. Qed.

(** X20.  Whatever calls came before, the download endpoint never returns a
    file: it answers 500, from the 404 of an unknown task or from the
    400 of a task that is not completed. *)
Theorem download_never_succeeds calls task_id :
  let h := download_stt_result (serve_calls calls) task_id in
  reply h = HTTP500 (Http 404 "Task not found")
  \/ reply h = HTTP500 (Http 400 "Task not completed").
Proof.
  intros h. unfold h, download_stt_result.
  destruct (Dict.get task_id (serve_calls calls)) as [task|] eqn:Hget; [|now left].
  right.
  assert (Hp : pending task).
  { apply get_In in Hget. destruct (serve_calls_keeps calls) as [_ Hall].
    rewrite Forall_forall in Hall. exact (Hall _ Hget). }
  apply pending_not_completed in Hp. apply String.eqb_neq in Hp. now rewrite Hp.
Qed.

(** X21.  Whatever calls came before, [process_stt_task] never answers that
    the task is being processed, and the status endpoint never shows a
    result: a status reply is the 500 of an unknown task or a body
    whose ["result"] is [None]. *)
Theorem processing_never_reported calls env task_id :
  let tasks := serve_calls calls in
  reply (process_stt_task env tasks task_id)
  <> JSONResponse (body 1 "任务正在处理中" [("task_id", VStr task_id)])
  /\ (reply (get_stt_task_status tasks task_id) = HTTP500 (Http 404 "Task not found")
      \/ exists task,
           Dict.get task_id tasks = Some task
           /\ reply (get_stt_task_status tasks task_id)
              = JSONResponse
                  (body 0 "获取状态成功"
                     [("task_id", VStr task_id);
                      ("status", VStr (status task));
                      ("progress", progress task);
                      ("message", VStr (message task));
                      ("filename", VStr (filename task));
                      ("result", VNone);
                      ("error", if String.eqb (status task) "error" then error task
                                else VNone)])).
Proof.
  intros tasks. unfold tasks.
  destruct (Dict.get task_id (serve_calls calls)) as [task|] eqn:Hget.
  - assert (Hp : pending task).
    { apply get_In in Hget. destruct (serve_calls_keeps calls) as [_ Hall].
      rewrite Forall_forall in Hall. exact (Hall _ Hget). }
    split.
    + rewrite (process_known env _ task_id task Hget (pending_not_processing _ Hp)).
      destruct (project_imports env); [|discriminate|discriminate].
      destruct (faster_whisper env); [|discriminate|discriminate].
      destruct (audio_exists env); discriminate.
    + right. exists task. split; [reflexivity|].
      unfold get_stt_task_status, answer, json_response. rewrite Hget.
      pose proof (pending_not_completed _ Hp) as Hnc. apply String.eqb_neq in Hnc.
      rewrite Hnc.
      destruct Hp as (Hs & _ & Hprog & Herr).
      assert (Hc : Json.compliant
                (body 0 "获取状态成功"
                   [("task_id", VStr task_id);
                    ("status", VStr (status task));
                    ("progress", progress task);
                    ("message", VStr (message task));
                    ("filename", VStr (filename task));
                    ("result", VNone);
                    ("error", if String.eqb (status task) "error" then error task
                              else VNone)]) = true).
      { cbn. destruct Hprog as [-> | ->];
          (destruct (String.eqb (status task) "error");
           [destruct Herr as [-> | (s & ->)]; reflexivity | reflexivity]). }
      rewrite Hc. reflexivity.
  - split.
    + unfold process_stt_task. rewrite Hget. discriminate.
    + left. unfold get_stt_task_status. now rewrite Hget.
Qed.

(** ** Deleting *)

(** X22.  Deleting a task that a run of the endpoints has left in the table
    succeeds: the file of the task is unlinked when it exists, and
    only then; the task is gone, so that the status endpoint then
    answers 500; the other tasks are as before. *)
Theorem delete_forgets calls file_exists task_id task :
  let tasks := serve_calls calls in
  Dict.get task_id tasks = Some task ->
  let h := delete_stt_task file_exists tasks task_id in
  reply h = JSONResponse (body 0 "任务删除成功" [("task_id", VStr task_id)])
  /\ file_ops h = (if file_exists
                   then [OpExists (file_path task); OpUnlink (file_path task)]
                   else [OpExists (file_path task)])
  /\ Dict.get task_id (tasks_after h) = None
  /\ reply (get_stt_task_status (tasks_after h) task_id) = HTTP500 (Http 404 "Task not found")
  /\ (forall id, id <> task_id -> Dict.get id (tasks_after h) = Dict.get id tasks).
Proof.
  intros tasks Hget h. unfold h, delete_stt_task. rewrite Hget.
  cbn [answer_plain reply file_ops tasks_after].
  assert (Hgone : Dict.get task_id (Dict.del task_id tasks) = None).
  { apply get_del_same. apply serve_calls_keeps. }
  split; [reflexivity|]. split; [reflexivity|].
  split; [exact Hgone|]. split.
  - unfold get_stt_task_status. now rewrite Hgone.
  - intros id Hid. now apply get_del_other.
Qed.

End SpeechEndpoints.

(** * Time strings *)

Section TimeStrings.
Import Py PyFacts DateTime DateTimeFacts.

Lemma zeros_length j : String.length (zeros j) = j.
Proof. induction j as [|j IH]; cbn; [reflexivity|]. now rewrite IH. Qed.

Lemma append_length (a b : string) :
  String.length (a ++ b) = (String.length a + String.length b)%nat.
Proof. induction a as [|x a IH]; cbn; [reflexivity|]. now rewrite IH. Qed.

Lemma append_inj_length (a b c d : string) :
  String.length a = String.length b -> a ++ c = b ++ d -> a = b /\ c = d.
Proof.
  revert b. induction a as [|x a IH]; intros [|y b] Hlen H; cbn in *; try discriminate.
  - auto.
  - injection H as -> H. injection Hlen as Hlen. destruct (IH b Hlen H) as [-> ->]. auto.
Qed.

(** A padded number read back, whatever its width. *)
Lemma zpad_read w n rest :
  0 <= n ->
  take_digits (String.length (zpad w n)) 0 (zpad w n ++ rest) = Some (n, rest).
Proof.
  intros Hn. unfold zpad.
  rewrite append_length, zeros_length, append_assoc.
  rewrite take_digits_zeros, take_digits_all by (apply digits_all; lia).
  unfold digits. rewrite int_digits_digits_fuel by lia. reflexivity.
Qed.

Lemma zpad_inj w n m : 0 <= n -> 0 <= m -> zpad w n = zpad w m -> n = m.
Proof.
  intros Hn Hm H.
  pose proof (zpad_read w n "" Hn) as Rn. pose proof (zpad_read w m "" Hm) as Rm.
  rewrite H in Rn. rewrite Rn in Rm. now injection Rm.
Qed.

Lemma zpad_length w n :
  0 <= n < 10 ^ Z.of_nat w -> (1 <= w)%nat -> String.length (zpad w n) = w.
Proof.
  intros Hn Hw. unfold zpad.
  pose proof (digits_fuel_length (S (Z.to_nat (Z.log2 n))) n w "" Hn Hw) as Hlen.
  fold (digits n) in Hlen. cbn [String.length] in Hlen.
  rewrite append_length, zeros_length. lia.
Qed.

Lemma zpad_field_inj k n m (r1 r2 : string) :
  0 <= n < 10 ^ Z.of_nat k -> 0 <= m < 10 ^ Z.of_nat k -> (1 <= k)%nat ->
  zpad k n ++ r1 = zpad k m ++ r2 -> n = m /\ r1 = r2.
Proof.
  intros Hn Hm Hk H.
  pose proof (take_digits_zpad k n r1 Hn Hk) as Rn.
  pose proof (take_digits_zpad k m r2 Hm Hk) as Rm.
  rewrite H in Rn. rewrite Rn in Rm. now injection Rm.
Qed.

Lemma format_0d_nonneg w n : 0 <= n -> STT.format_0d w n = zpad w n.
Proof. intros H. unfold STT.format_0d. apply Z.ltb_ge in H. now rewrite H. Qed.

(** The four fields of a time string. *)
Lemma time_fields ms :
  0 <= (ms mod 3600000) / 60000 < 60
  /\ 0 <= (ms mod 60000) / 1000 < 60
  /\ 0 <= ms mod 1000 < 1000.
Proof.
  pose proof (Z.mod_pos_bound ms 3600000 ltac:(lia)).
  pose proof (Z.mod_pos_bound ms 60000 ltac:(lia)).
  pose proof (Z.mod_pos_bound ms 1000 ltac:(lia)).
  repeat split; try lia; try (apply Z.div_pos; lia);
    apply Z.div_lt_upper_bound; lia.
Qed.

Lemma format_time_string_nonneg ms :
  0 <= ms ->
  STT.format_time_string ms
  = zpad 2 (ms / 3600000) ++ ":" ++ zpad 2 ((ms mod 3600000) / 60000) ++ ":"
    ++ zpad 2 ((ms mod 60000) / 1000) ++ "," ++ zpad 3 (ms mod 1000).
Proof.
  intros H. destruct (time_fields ms) as (Hm & Hs & Hms).
  unfold STT.format_time_string. cbv zeta.
  rewrite !format_0d_nonneg by (try lia; apply Z.div_pos; lia). reflexivity.
Qed.

Lemma time_string_fields a b :
  0 <= a -> 0 <= b ->
  STT.format_time_string a = STT.format_time_string b ->
  a / 3600000 = b / 3600000
  /\ (a mod 3600000) / 60000 = (b mod 3600000) / 60000
  /\ (a mod 60000) / 1000 = (b mod 60000) / 1000
  /\ a mod 1000 = b mod 1000.
Proof.
  intros Ha Hb H.
  rewrite !format_time_string_nonneg in H by assumption.
  destruct (time_fields a) as (Hma & Hsa & Hmsa).
  destruct (time_fields b) as (Hmb & Hsb & Hmsb).
  assert (Hha : 0 <= a / 3600000) by (apply Z.div_pos; lia).
  assert (Hhb : 0 <= b / 3600000) by (apply Z.div_pos; lia).
  assert (Hlen : String.length (zpad 2 (a / 3600000)) = String.length (zpad 2 (b / 3600000))).
  { apply (f_equal String.length) in H. rewrite !append_length in H.
    rewrite (zpad_length 2 (a mod 3600000 / 60000)), (zpad_length 2 (b mod 3600000 / 60000)),
      (zpad_length 2 (a mod 60000 / 1000)), (zpad_length 2 (b mod 60000 / 1000)),
      (zpad_length 3 (a mod 1000)), (zpad_length 3 (b mod 1000)) in H
      by (try lia; try (change (10 ^ Z.of_nat 2) with 100; lia);
          change (10 ^ Z.of_nat 3) with 1000; lia).
    lia. }
  destruct (append_inj_length _ _ _ _ Hlen H) as [Hh Hrest].
  apply zpad_inj in Hh; [|assumption|assumption].
  cbn [append] in Hrest. injection Hrest as Hrest.
  apply zpad_field_inj in Hrest;
    [|change (10 ^ Z.of_nat 2) with 100; lia|change (10 ^ Z.of_nat 2) with 100; lia|lia].
  destruct Hrest as [Hm Hrest]. injection Hrest as Hrest.
  apply zpad_field_inj in Hrest;
    [|change (10 ^ Z.of_nat 2) with 100; lia|change (10 ^ Z.of_nat 2) with 100; lia|lia].
  destruct Hrest as [Hs Hrest]. injection Hrest as Hrest.
  apply zpad_inj in Hrest; [|lia|lia].
  repeat split; congruence.
Qed.

(** X23.  Two different instants, counted in milliseconds from zero, never
    get the same time string: a subtitle cue keeps its order. *)
Theorem format_time_string_distinct a b :
  0 <= a < b -> STT.format_time_string a <> STT.format_time_string b.
Proof.
  intros Hab H.
  destruct (time_string_fields a b ltac:(lia) ltac:(lia) H) as (Hh & Hm & Hs & Hms).
  revert Hh Hm Hs Hms.
  Z.div_mod_to_equations. lia.
Qed.

(** X24.  On integers [STTTools.ms_to_time_string] is
    [STTManager.format_time_string] taken modulo one day: the two agree
    below 24 hours, and from there on the first starts again at
    [00:00:00,000] where the second goes on counting hours.  Beyond
    999999999 days the first raises [OverflowError]. *)
Theorem time_strings_agree ms :
  -999999999 <= ms / 86400000 <= 999999999 ->
  STT.ms_to_time_string ms None = Some (STT.format_time_string (ms mod 86400000)).
Proof.
  intros Hdays. unfold STT.ms_to_time_string, STT.timedelta.
  assert (Hd : ms * 1000 / 86400000000 = ms / 86400000).
  { change 86400000000 with (86400000 * 1000). apply Z.div_mul_cancel_r; lia. }
  rewrite Hd.
  assert (Hin : (-999999999 <=? ms / 86400000) && (ms / 86400000 <=? 999999999) = true).
  { apply andb_true_intro. split; apply Z.leb_le; lia. }
  rewrite Hin. unfold STT.format_time_string. cbv zeta.
  assert (E1 : (ms * 1000) mod 86400000000 / 1000000 / 3600 = ms mod 86400000 / 3600000)
    by (Z.div_mod_to_equations; lia).
  assert (E2 : ((ms * 1000) mod 86400000000 / 1000000) mod 3600 / 60
               = (ms mod 86400000) mod 3600000 / 60000)
    by (Z.div_mod_to_equations; lia).
  assert (E3 : (((ms * 1000) mod 86400000000 / 1000000) mod 3600) mod 60
               = (ms mod 86400000) mod 60000 / 1000)
    by (Z.div_mod_to_equations; lia).
  assert (E4 : (ms * 1000) mod 1000000 / 1000 = (ms mod 86400000) mod 1000)
    by (Z.div_mod_to_equations; lia).
  rewrite E1, E2, E3, E4. reflexivity.
Qed.

End TimeStrings.

(** * The further properties on the scenarios *)

Module Instances.
Import Scenario.


Lemma accepted_path_inside_witness :
  let p := video_path_of VIDEO_DIR ranged_sub in
  Path.relative_to_ok p VIDEO_DIR = true /\ descendant VIDEO_DIR p = true.
Proof.
  intros p.
  destruct (accepted_path_inside VIDEO_DIR initial fs 0 ranged_sub 206
              (range_headers 2 5 10) (FileSenderRange p 2 5)) as [Hrel Hin].
  - vm_compute. reflexivity.
  - lia.
  - split; [exact Hrel|]. apply Hin. repeat constructor.
Defined.


Lemma refused_leaves_caches_witness :
  let o := get_video VIDEO_DIR warm fs 10 (request "nothing.mp4" None None) in
  status_of (result o) = 404
  /\ TTLCache.find "a.mp4-None" (meta_cache (state o)) = TTLCache.find "a.mp4-None" (meta_cache warm)
  /\ chunk_cache (state o) = chunk_cache warm.
Proof.
  intros o.
  destruct (refused_leaves_caches VIDEO_DIR warm fs 10 (request "nothing.mp4" None None))
    as [Hmeta Hchunk].
  - right. right. vm_compute. reflexivity.
  - split; [vm_compute; reflexivity|]. split; [apply Hmeta | exact Hchunk].
Defined.




Lemma ranged_response_in_bounds_witness :
  exists content mtime',
    resolve fs (Path.parse "/srv/downloads/a.mp4") = Some (File content mtime')
    /\ 0 <= 2 < Z.of_nat (List.length content)
    /\ 0 <= 5 < Z.of_nat (List.length content).
Proof.
  destruct (ranged_response_in_bounds VIDEO_DIR initial fs 0 ranged 206
              (range_headers 2 5 10) (Path.parse "/srv/downloads/a.mp4") 2 5)
    as (content & mtime' & _ & Hfile & _ & Hs & He & _).
  - vm_compute. reflexivity.
  - exists content, mtime'. auto.
Defined.


Lemma body_length_declared_witness :
  let fs_short := mkFS (tree "0123") [] in
  let sv := serve VIDEO_DIR initial fs 0 fs_short 1 ranged in
  exists blob,
    sv_stream sv = Yielded [blob] /\ Z.of_nat (List.length blob) = 2
    /\ In ("Content-Length", "4") (range_headers 2 5 10).
Proof.
  intros fs_short sv.
  destruct (body_length_declared VIDEO_DIR initial fs 0 fs_short 1 ranged 206
              (range_headers 2 5 10) (Path.parse "/srv/downloads/a.mp4") 2 5
              (bytes "0123") mtime) as (blob & Hstream & Hin & Hlen & _).
  - vm_compute. reflexivity.
  - lia.
  - left. reflexivity.
  - reflexivity.
  - exists blob. split; [exact Hstream|]. split; [rewrite Hlen; reflexivity | exact Hin].
Defined.

Lemma whole_body_is_current_file_witness :
  let fs_longer := mkFS (tree "0123456789abcdef") [] in
  let sv := serve VIDEO_DIR initial fs 0 fs_longer 1 a_mp4 in
  In ("Content-Length", "10") (full_headers 10 a_tag mtime)
  /\ exists chunks, sv_stream sv = Yielded chunks
                    /\ List.concat chunks = bytes "0123456789abcdef".
Proof.
  intros fs_longer sv.
  destruct (whole_body_is_current_file VIDEO_DIR initial fs 0 fs_longer 1 a_mp4 200
              (full_headers 10 a_tag mtime) (Path.parse "/srv/downloads/a.mp4")
              (bytes "0123456789abcdef") mtime)
    as (content & mtime0 & chunks & _ & _ & _ & Hstream & Hcat & _).
  - vm_compute. reflexivity.
  - reflexivity.
  - split; [cbn; auto|]. exists chunks. auto.
Defined.

Lemma file_gone_before_body_witness :
  let fs_gone := mkFS (Dir [("srv", Dir [("downloads", Dir [])])]) [] in
  let sv := serve VIDEO_DIR initial fs 0 fs_gone 1 a_mp4 in
  status_of (sv_result sv) = 200 /\ sv_stream sv = Raised "OSError".
Proof.
  intros fs_gone sv.
  pose proof (file_gone_before_body VIDEO_DIR initial fs 0 fs_gone 1 a_mp4 200
                (full_headers 10 a_tag mtime)
                (FileSender (Path.parse "/srv/downloads/a.mp4"))) as H.
  cbv zeta in H.
  destruct H as (_ & _ & Hstream & _).
  - vm_compute. reflexivity.
  - lia.
  - reflexivity.
  - split; [vm_compute; reflexivity | exact Hstream].
Defined.


Lemma format_time_string_distinct_witness :
  STT.format_time_string 3599999 <> STT.format_time_string 3600000.
Proof. apply format_time_string_distinct. lia. Defined.

Lemma time_strings_agree_witness :
  STT.ms_to_time_string 90061001 None = Some "01:01:01,001".
Proof.
  rewrite (time_strings_agree 90061001).
  - reflexivity.
  - vm_compute. split; discriminate.
Defined.

End Instances.

Module SpeechInstances.
Import STT SpeechScenario.

Lemma unknown_task_is_500_witness :
  status_code_of (reply (get_stt_task_status [] "7f3a")) = 500
  /\ status_code_of (reply (delete_stt_task true [] "7f3a")) = 500.
Proof.
  pose proof (unknown_task_is_500 env true [] "7f3a" eq_refl) as H.
  pose proof (Forall_inv (Forall_inv_tail H)) as Hs.
  pose proof (Forall_inv (Forall_inv_tail (Forall_inv_tail (Forall_inv_tail H)))) as Hd.
  cbv beta in Hs, Hd. destruct Hs as (_ & Hs & _). destruct Hd as (_ & Hd & _).
  split; assumption.
Defined.

Lemma transcribe_config_keys_witness :
  transcribe_audio broken_engine true false (user_config_of task) true "/tmp/tmpk2x9.mp3" None
  = inr ([(VFloat "0.1", "正在加载模型..."); (VInt 0, "转录失败: no such model")],
         Failure "no such model").
Proof.
  destruct (transcribe_config_keys broken_engine false task "/tmp/tmpk2x9.mp3"
              (RuntimeError "no such model")) as [_ Hnone].
  apply Hnone. reflexivity.
Defined.

Lemma upload_then_status_witness :
  let tasks := serve_calls [upload] in
  exists body, reply (get_stt_task_status tasks "7f3a") = JSONResponse body
               /\ Dict.get "status" (match body with
                                     | VDict [_; _; (_, VDict data)] => data
                                     | _ => []
                                     end) = Some (VStr "uploaded").
Proof.
  intros tasks.
  pose proof (upload_then_status [] "talk.MP3" "en" "small" "json" "7f3a"
                (TempFile "/tmp/tmpk2x9.mp3") (inr (Scenario.bytes "RIFFdata")) None
                eq_refl) as H.
  eexists. split; [exact (f_equal reply H) | reflexivity].
Defined.

Lemma process_leaves_error_witness :
  let h := process_stt_task env (serve_calls [upload]) "7f3a" in
  reply h = JSONResponse (body 0 "处理已开始" [("task_id", VStr "7f3a")])
  /\ exists task', Dict.get "7f3a" (tasks_after h) = Some task'
                   /\ status task' = "error" /\ error task' = VStr "'model'".
Proof.
  intros h.
  destruct (process_leaves_error env (serve_calls [upload]) "7f3a" task)
    as ((task' & Hget & Hstatus & _ & _ & Hmodel) & Hreply & _).
  - reflexivity.
  - discriminate.
  - assert (Hr : reply h = JSONResponse (body 0 "处理已开始" [("task_id", VStr "7f3a")])).
    { apply Hreply. repeat split; reflexivity. }
    split; [exact Hr|]. exists task'. auto.
Defined.

Lemma delete_forgets_witness :
  let h := delete_stt_task true (serve_calls [upload]) "7f3a" in
  file_ops h = [OpExists "/tmp/tmpk2x9.mp3"; OpUnlink "/tmp/tmpk2x9.mp3"]
  /\ Dict.get "7f3a" (tasks_after h) = None.
Proof.
  intros h.
  destruct (delete_forgets [upload] true "7f3a" task eq_refl) as (_ & Hops & Hgone & _).
  split; [exact Hops | exact Hgone].
Defined.

End SpeechInstances.
